(** * Real-estate analysis backend: ingestion, query interpretation,
      filtering and aggregation

    A shallow embedding of [api/utils/data_processor.py]
    ([RealEstateDataProcessor]), [api/serializers/real_estate.py]
    ([AnalysisQuerySerializer], [ExportDataSerializer]), the views of
    [api/views.py] and the import command, followed by the properties of
    the pipeline.

    Conventions of the embedding.
    - A Python [str] is a list of Unicode code points ([Text.str]); the
      literals of the source are written with [Text.lit], which decodes the
      UTF-8 bytes of a Rocq string.
    - The character classes are Python's on the ASCII range: [lower],
      [title] and the digit class [\d] act on ASCII letters and digits and
      leave other code points alone; white space is the full [str.isspace]
      set.
    - Python integers are [Z]; pandas' float64 cells are exact rationals
      ([Q]), [NaN] is a constructor of its own.
    - A raised exception is a [None] or an [inl]; a [try/except] is the
      match that handles it.
    - [datetime.now().year] is the parameter [current_year]. *)

From Stdlib Require Import List ZArith NArith QArith Qround Bool Lia String Ascii.
From Stdlib Require Import Permutation Sorted DecimalString.
Import ListNotations.
Close Scope Q_scope.
Close Scope string_scope.
Open Scope Z_scope.

Set Implicit Arguments.

(* ================================================================== *)
(** * Python text *)
(* ================================================================== *)

Module Text.

(** A code point, and a Python [str]. *)
Definition char := N.
Definition str := list char.

(** UTF-8 decoding of the bytes of a literal (well-formed input). *)
Fixpoint decode_utf8 (bs : list N) : str :=
  match bs with
  | [] => []
  | b :: t =>
      if (b <? 128)%N then b :: decode_utf8 t
      else if (b <? 224)%N then
        match t with
        | b1 :: t1 => ((b - 192) * 64 + (b1 - 128))%N :: decode_utf8 t1
        | [] => []
        end
      else if (b <? 240)%N then
        match t with
        | b1 :: b2 :: t2 =>
            ((b - 224) * 4096 + (b1 - 128) * 64 + (b2 - 128))%N :: decode_utf8 t2
        | _ => []
        end
      else
        match t with
        | b1 :: b2 :: b3 :: t3 =>
            ((b - 240) * 262144 + (b1 - 128) * 4096 + (b2 - 128) * 64 + (b3 - 128))%N
              :: decode_utf8 t3
        | _ => []
        end
  end.

Definition lit (s : string) : str :=
  decode_utf8 (map N_of_ascii (list_ascii_of_string s)).

Fixpoint eqb (s t : str) : bool :=
  match s, t with
  | [], [] => true
  | a :: s', b :: t' => (a =? b)%N && eqb s' t'
  | _, _ => false
  end.

(** Lexicographic order on code points: Python's [<=] on [str]. *)
Fixpoint leb (s t : str) : bool :=
  match s, t with
  | [], _ => true
  | _ :: _, [] => false
  | a :: s', b :: t' => (a <? b)%N || ((a =? b)%N && leb s' t')
  end.

(** [str.isspace] of one code point. *)
Definition isspace (c : char) : bool :=
  ((9 <=? c) && (c <=? 13) || (28 <=? c) && (c <=? 32) || (c =? 133)
   || (c =? 160) || (c =? 5760) || (8192 <=? c) && (c <=? 8202)
   || (c =? 8232) || (c =? 8233) || (c =? 8239) || (c =? 8287)
   || (c =? 12288))%N.

Definition isdigit (c : char) : bool := ((48 <=? c) && (c <=? 57))%N.
Definition isupper (c : char) : bool := ((65 <=? c) && (c <=? 90))%N.
Definition islower (c : char) : bool := ((97 <=? c) && (c <=? 122))%N.
Definition isalpha (c : char) : bool := isupper c || islower c.

Definition lower_char (c : char) : char := if isupper c then (c + 32)%N else c.
Definition upper_char (c : char) : char := if islower c then (c - 32)%N else c.

(** [s.lower()] *)
Definition lower (s : str) : str := map lower_char s.

(** [s.title()]: a letter that follows a letter is lowered, any other
    letter is raised. *)
Fixpoint title_from (after_letter : bool) (s : str) : str :=
  match s with
  | [] => []
  | c :: t =>
      if isalpha c
      then (if after_letter then lower_char c else upper_char c) :: title_from true t
      else c :: title_from false t
  end.
Definition title (s : str) : str := title_from false s.

Fixpoint dropwhile (p : char -> bool) (s : str) : str :=
  match s with
  | [] => []
  | c :: t => if p c then dropwhile p t else s
  end.

Fixpoint takewhile (p : char -> bool) (s : str) : str :=
  match s with
  | [] => []
  | c :: t => if p c then c :: takewhile p t else []
  end.

(** [s.strip()] *)
Definition lstrip (s : str) : str := dropwhile isspace s.
Definition rstrip (s : str) : str := rev (dropwhile isspace (rev s)).
Definition strip (s : str) : str := rstrip (lstrip s).

(** [s.startswith(p)], [s.endswith(p)], [p in s] *)
Fixpoint startswith (p s : str) : bool :=
  match p, s with
  | [], _ => true
  | a :: p', b :: s' => (a =? b)%N && startswith p' s'
  | _ :: _, [] => false
  end.

Definition endswith (p s : str) : bool := startswith (rev p) (rev s).

Fixpoint contains (p s : str) : bool :=
  startswith p s || match s with [] => false | _ :: t => contains p t end.

(** [s.replace(old, new)] for a non-empty [old]: occurrences are found left
    to right and do not overlap.  [skip] counts the code points of an
    occurrence that remain to be passed over. *)
Fixpoint replace_from (old new : str) (skip : nat) (s : str) : str :=
  match s with
  | [] => []
  | c :: t =>
      match skip with
      | S k => replace_from old new k t
      | O =>
          if startswith old s
          then new ++ replace_from old new (pred (List.length old)) t
          else c :: replace_from old new 0 t
      end
  end.
Definition replace (old new s : str) : str := replace_from old new 0 s.

(** [s.split()]: the maximal runs of non-space code points.  [cur] is the
    run being read, reversed. *)
Fixpoint split_ws_from (cur : str) (s : str) : list str :=
  match s with
  | [] => match cur with [] => [] | _ => [rev cur] end
  | c :: t =>
      if isspace c
      then match cur with
           | [] => split_ws_from [] t
           | _ => rev cur :: split_ws_from [] t
           end
      else split_ws_from (c :: cur) t
  end.
Definition split_ws (s : str) : list str := split_ws_from [] s.

(** [s.split(sep)] for a separator of one code point. *)
Fixpoint split_char (sep : char) (s : str) : list str :=
  match s with
  | [] => [[]]
  | c :: t =>
      if (c =? sep)%N then [] :: split_char sep t
      else match split_char sep t with
           | h :: r => (c :: h) :: r
           | [] => [[c]]
           end
  end.

Definition hyphen : char := 45%N.
Definition underscore : char := 95%N.
Definition plus_sign : char := 43%N.

Definition digit_value (c : char) : Z := Z.of_N (c - 48).

(** The digit part of an integer literal: decimal digits, single
    underscores allowed between two digits. *)
Fixpoint digits_value (acc : Z) (after_digit : bool) (s : str) : option Z :=
  match s with
  | [] => if after_digit then Some acc else None
  | c :: t =>
      if isdigit c then digits_value (10 * acc + digit_value c) true t
      else if (c =? underscore)%N && after_digit then digits_value acc false t
      else None
  end.

(** [int(s)]: [None] is [ValueError]. *)
Definition py_int (s : str) : option Z :=
  match strip s with
  | c :: t =>
      if (c =? hyphen)%N then option_map Z.opp (digits_value 0 false t)
      else if (c =? plus_sign)%N then digits_value 0 false t
      else digits_value 0 false (c :: t)
  | [] => None
  end.

(** [str(n)] of an integer. *)
Definition repr_Z (n : Z) : str :=
  lit (NilZero.string_of_int (Z.to_int n)).

(** ** The regular expressions of the source *)

(** [\d{4}] at the head of [s]: the four digits and the rest. *)
Definition four_digits (s : str) : option (str * str) :=
  match s with
  | a :: b :: c :: d :: t =>
      if isdigit a && isdigit b && isdigit c && isdigit d
      then Some ([a; b; c; d], t) else None
  | _ => None
  end.

(** [re.findall(r'(\d{4})', s)]: matches are found left to right and do not
    overlap. *)
Fixpoint findall_year_from (skip : nat) (s : str) : list str :=
  match s with
  | [] => []
  | _ :: t =>
      match skip with
      | S k => findall_year_from k t
      | O =>
          match four_digits s with
          | Some (g, _) => g :: findall_year_from 3 t
          | None => findall_year_from 0 t
          end
      end
  end.
Definition findall_year (s : str) : list str := findall_year_from 0 s.

(** [(\d{4})\s*-\s*(\d{4})] anchored at the head of [s].  White space and
    the hyphen, and white space and the digits, are disjoint classes, so
    the greedy [\s*] has one way to match. *)
Definition match_year_span (s : str) : option (str * str) :=
  match four_digits s with
  | Some (g1, r1) =>
      match dropwhile isspace r1 with
      | c :: r2 =>
          if (c =? hyphen)%N then
            match four_digits (dropwhile isspace r2) with
            | Some (g2, _) => Some (g1, g2)
            | None => None
            end
          else None
      | [] => None
      end
  | None => None
  end.

(** [re.search(r'(\d{4})\s*-\s*(\d{4})', s)]: the leftmost match. *)
Fixpoint search_year_span (s : str) : option (str * str) :=
  match match_year_span s with
  | Some g => Some g
  | None => match s with [] => None | _ :: t => search_year_span t end
  end.

(** [last\s+(\d+)\s+years?] anchored at the head of [s]; the result is
    group 1. *)
Definition match_last_years (s : str) : option str :=
  if startswith (lit "last") s then
    let r0 := skipn 4 s in
    let r1 := dropwhile isspace r0 in
    let g := takewhile isdigit r1 in
    let r2 := dropwhile isdigit r1 in
    let r3 := dropwhile isspace r2 in
    if negb (Nat.eqb (List.length r1) (List.length r0))
       && negb (Nat.eqb (List.length g) 0)
       && negb (Nat.eqb (List.length r3) (List.length r2))
       && startswith (lit "year") r3
    then Some g else None
  else None.

(** [re.search(r'last\s+(\d+)\s+years?', s)] *)
Fixpoint search_last_years (s : str) : option str :=
  match match_last_years s with
  | Some g => Some g
  | None => match s with [] => None | _ :: t => search_last_years t end
  end.

End Text.

(* ================================================================== *)
(** * Numbers: rounding and formatting *)
(* ================================================================== *)

Module Num.
Import Text.

(** Rounding to the nearest integer, a tie going to the even neighbour
    (the rounding of [format] and of [round]). *)
Definition round_half_even (x : Q) : Z :=
  let f := Qfloor x in
  match Qcompare (x - inject_Z f) (1 # 2) with
  | Lt => f
  | Gt => f + 1
  | Eq => if Z.even f then f else f + 1
  end.

(** [x.round(2)] and [x.round(0)] *)
Definition round2 (x : Q) : Q := Qmake (round_half_even (x * inject_Z 100)) 100.
Definition round0 (x : Q) : Q := inject_Z (round_half_even x).

(** [int(x)] of a float: truncation towards zero. *)
Definition truncate (x : Q) : Z :=
  if Qle_bool 0 x then Qfloor x else Qceiling x.

(** A comma before every group of three digits, counted from the right;
    the digits arrive reversed. *)
Fixpoint group_from (seen : nat) (rev_digits : str) : str :=
  match rev_digits with
  | [] => []
  | d :: t =>
      match seen with
      | 3%nat => 44%N :: d :: group_from 1 t
      | _ => d :: group_from (S seen) t
      end
  end.
Definition group_thousands (digits : str) : str :=
  rev (group_from 0 (rev digits)).

(** [f"{x:,.0f}"]; [None] is a NaN. *)
Definition format_comma0 (x : option Q) : str :=
  match x with
  | None => lit "nan"
  | Some q =>
      (if Qle_bool 0 q then [] else [hyphen])
        ++ group_thousands (repr_Z (Z.abs (round_half_even q)))
  end.

Definition Qsum (l : list Q) : Q := fold_left Qplus l 0%Q.

(** The mean of the present values; NaN when there is none. *)
Definition Qmean (l : list Q) : option Q :=
  match l with
  | [] => None
  | _ => Some (Qsum l / inject_Z (Z.of_nat (List.length l)))%Q
  end.

(** ** The numeric literals read by [pd.to_numeric]

    An optional sign, digits with an optional fraction, and an optional
    decimal exponent, between optional white space. *)

Fixpoint digits_of (acc : Z) (n : nat) (s : str) : Z * nat * str :=
  match s with
  | c :: t => if isdigit c then digits_of (10 * acc + digit_value c) (S n) t
              else (acc, n, s)
  | [] => (acc, n, s)
  end.

Definition scale10 (m e : Z) : Q :=
  if 0 <=? e then inject_Z (m * 10 ^ e)
  else Qmake m (Z.to_pos (10 ^ (- e))).

Definition parse_exponent (s : str) : option Z :=
  match s with
  | [] => Some 0
  | c :: t =>
      if ((c =? 101) || (c =? 69))%N then
        match t with
        | d :: t' =>
            let '(neg, ds) :=
              if (d =? hyphen)%N then (true, t')
              else if (d =? plus_sign)%N then (false, t') else (false, t) in
            match digits_of 0 0 ds with
            | (e, S _, []) => Some (if neg then - e else e)
            | _ => None
            end
        | [] => None
        end
      else None
  end.

Definition parse_unsigned (s : str) : option Q :=
  let '(ip, ni, r1) := digits_of 0 0 s in
  let '(m, nf, r2) :=
    match r1 with
    | c :: t => if (c =? 46)%N then digits_of ip 0 t else (ip, 0%nat, r1)
    | [] => (ip, 0%nat, r1)
    end in
  match (ni + nf)%nat with
  | O => None
  | _ => match parse_exponent r2 with
         | Some e => Some (scale10 m (e - Z.of_nat nf))
         | None => None
         end
  end.

Definition parse_number (s : str) : option Q :=
  match strip s with
  | c :: t =>
      if (c =? hyphen)%N then option_map Qopp (parse_unsigned t)
      else if (c =? plus_sign)%N then parse_unsigned t
      else parse_unsigned (c :: t)
  | [] => None
  end.

End Num.

(* ================================================================== *)
(** * Data frames *)
(* ================================================================== *)

Module Frame.
Import Text.

(** A cell: text, a number, or missing ([NaN], [None]). *)
Inductive cell :=
| Str (s : str)
| Num (x : Q)
| NaN.

(** A row maps column labels to cells, in column order. *)
Definition row := list (str * cell).

Record DataFrame := {
  columns : list str;
  rows : list row
}.

Fixpoint mem (c : str) (l : list str) : bool :=
  match l with
  | [] => false
  | x :: t => Text.eqb c x || mem c t
  end.

Fixpoint get (r : row) (c : str) : cell :=
  match r with
  | [] => NaN
  | (k, v) :: t => if Text.eqb k c then v else get t c
  end.

(** [df.empty] *)
Definition empty (df : DataFrame) : bool :=
  match rows df, columns df with
  | [], _ => true
  | _, [] => true
  | _, _ => false
  end.

Definition notna (c : cell) : bool :=
  match c with NaN => false | _ => true end.

(** The numeric value of a cell, when it has one. *)
Definition to_number (c : cell) : option Q :=
  match c with Num x => Some x | _ => None end.

(** [df[mask]] *)
Definition select (keep : row -> bool) (df : DataFrame) : DataFrame :=
  {| columns := columns df; rows := filter keep (rows df) |}.

(** [df[c]] *)
Definition column (df : DataFrame) (c : str) : list cell :=
  map (fun r => get r c) (rows df).

(** The present numeric values of a series. *)
Fixpoint numbers (l : list cell) : list Q :=
  match l with
  | [] => []
  | Num x :: t => x :: numbers t
  | _ :: t => numbers t
  end.

(** [series.sum()], [series.mean()]: missing values are skipped. *)
Definition sum (l : list cell) : Q := Num.Qsum (numbers l).
Definition mean (l : list cell) : option Q := Num.Qmean (numbers l).

Definition cell_eqb (a b : cell) : bool :=
  match a, b with
  | Str s, Str t => Text.eqb s t
  | Num x, Num y => Qeq_bool x y
  | NaN, NaN => true
  | _, _ => false
  end.

(** The order of [sort_values] on one column: numbers by value, text by
    code points, missing values last.  A column read by pandas holds
    numbers or text, not both; numbers are put first here. *)
Definition cell_leb (a b : cell) : bool :=
  match a, b with
  | _, NaN => true
  | NaN, _ => false
  | Num x, Num y => Qle_bool x y
  | Num _, Str _ => true
  | Str _, Num _ => false
  | Str s, Str t => Text.leb s t
  end.

(** A stable sort: [insert] puts [x] before the first element that is not
    below it, so [x] stays ahead of the equal elements that followed it. *)
Section Sort.
Variable A : Type.
Variable le : A -> A -> bool.

Fixpoint insert (x : A) (l : list A) : list A :=
  match l with
  | [] => [x]
  | h :: t => if le x h then x :: l else h :: insert x t
  end.

Fixpoint sort (l : list A) : list A :=
  match l with
  | [] => []
  | x :: t => insert x (sort t)
  end.

(** Every element is below all the elements after it. *)
Definition ordered : list A -> Prop :=
  StronglySorted (fun x y => le x y = true).

(** Two elements the order does not tell apart. *)
Definition tied (x y : A) : bool := le x y && le y x.
End Sort.

(** [series.unique()]: the distinct values in order of first appearance. *)
Section Unique.
Variable A : Type.
Variable eq : A -> A -> bool.

Fixpoint unique_from (seen : list A) (l : list A) : list A :=
  match l with
  | [] => []
  | x :: t =>
      if existsb (eq x) seen then unique_from seen t
      else x :: unique_from (x :: seen) t
  end.
Definition unique (l : list A) : list A := unique_from [] l.
End Unique.

End Frame.

(* ================================================================== *)
(** * [RealEstateDataProcessor] (api/utils/data_processor.py) *)
(* ================================================================== *)

Module Processor.
Import Text Frame.

Definition COLUMN_MAP : list (str * str) := [
  (lit "final location", lit "final_location");
  (lit "year", lit "year");
  (lit "city", lit "city");
  (lit "loc_lat", lit "loc_lat");
  (lit "loc_lng", lit "loc_lng");
  (lit "total_sales - igr", lit "total_sales");
  (lit "total sold - igr", lit "total_sold");
  (lit "flat_sold - igr", lit "flat_sold");
  (lit "office_sold - igr", lit "office_sold");
  (lit "others_sold - igr", lit "others_sold");
  (lit "shop_sold - igr", lit "shop_sold");
  (lit "commercial_sold - igr", lit "commercial_sold");
  (lit "other_sold - igr", lit "other_sold");
  (lit "residential_sold - igr", lit "residential_sold");
  (lit "flat - weighted average rate", lit "flat_weighted_avg_rate");
  (lit "office - weighted average rate", lit "office_weighted_avg_rate");
  (lit "others - weighted average rate", lit "others_weighted_avg_rate");
  (lit "shop - weighted average rate", lit "shop_weighted_avg_rate");
  (lit "flat - most prevailing rate - range", lit "flat_prevailing_rate_range");
  (lit "office - most prevailing rate - range", lit "office_prevailing_rate_range");
  (lit "others - most prevailing rate - range", lit "others_prevailing_rate_range");
  (lit "shop - most prevailing rate - range", lit "shop_prevailing_rate_range");
  (lit "total units", lit "total_units");
  (lit "total carpet area supplied (sqft)", lit "total_carpet_area");
  (lit "flat total", lit "flat_total");
  (lit "shop total", lit "shop_total");
  (lit "office total", lit "office_total");
  (lit "others total", lit "others_total")
].

Definition NUMERIC_COLUMNS : list str := [
  lit "year"; lit "loc_lat"; lit "loc_lng"; lit "total_sales"; lit "total_sold";
  lit "flat_sold"; lit "office_sold"; lit "others_sold"; lit "shop_sold";
  lit "commercial_sold"; lit "other_sold"; lit "residential_sold";
  lit "flat_weighted_avg_rate"; lit "office_weighted_avg_rate";
  lit "others_weighted_avg_rate"; lit "shop_weighted_avg_rate"; lit "total_units";
  lit "total_carpet_area"; lit "flat_total"; lit "shop_total"; lit "office_total";
  lit "others_total"
].

Definition PROPERTY_COLUMNS : list str := [
  lit "flat"; lit "office"; lit "shop"; lit "others"; lit "commercial";
  lit "residential"
].

Definition DB_FIELDS : list str := map snd COLUMN_MAP.

Definition final_location : str := lit "final_location".
Definition city : str := lit "city".
Definition year : str := lit "year".

(** ** Loading and normalization *)

Inductive load_error :=
| MissingColumns (cols : list str)   (* ValueError: required columns *)
| YearNotInteger                     (* astype(int) on a missing year *)
| DecodeError                        (* pd.read_csv / pd.read_excel raised *)
| NoDataset.                         (* FileNotFoundError *)

(** [df.rename(columns=COLUMN_MAP)] on one label. *)
Fixpoint lookup (k : str) (m : list (str * str)) : option str :=
  match m with
  | [] => None
  | (a, b) :: t => if Text.eqb a k then Some b else lookup k t
  end.

Definition rename_label (c : str) : str :=
  match lookup c COLUMN_MAP with
  | Some c' => c'
  | None => c
  end.

Definition relabel (f : str -> str) (df : DataFrame) : DataFrame :=
  {| columns := map f (columns df);
     rows := map (map (fun kv : str * cell => (f (fst kv), snd kv))) (rows df) |}.

Definition _clean_numeric_value (value : cell) : cell :=
  match value with
  | Str v =>
      let v' := strip (replace (lit "₹") [] (replace (lit ",") [] v)) in
      if Text.eqb v' [] || Text.eqb (lower v') (lit "na") then NaN else Str v'
  | _ => value
  end.

(** [pd.to_numeric(..., errors='coerce')] on one cell. *)
Definition to_numeric (c : cell) : cell :=
  match c with
  | Str s => match Num.parse_number s with
             | Some x => Num x
             | None => NaN
             end
  | _ => c
  end.

(** [df[col] = f(df[col])], cell by cell. *)
Definition assign (col : str) (f : cell -> cell) (df : DataFrame) : DataFrame :=
  {| columns := columns df;
     rows := map (map (fun kv : str * cell =>
                         if Text.eqb (fst kv) col then (fst kv, f (snd kv)) else kv))
                 (rows df) |}.

(** The loop over [NUMERIC_COLUMNS]. *)
Definition coerce_numeric (f : cell -> cell) (df : DataFrame) : DataFrame :=
  fold_left (fun d col => if mem col (columns d) then assign col f d else d)
            NUMERIC_COLUMNS df.

(** [int] of one cell of the year column: [None] where pandas raises. *)
Definition astype_int (c : cell) : option cell :=
  match c with
  | Num x => Some (Num (inject_Z (Num.truncate x)))
  | _ => None
  end.

Fixpoint year_row_astype_int (r : row) : option row :=
  match r with
  | [] => Some []
  | (k, v) :: t =>
      match year_row_astype_int t with
      | None => None
      | Some t' =>
          if Text.eqb k year
          then match astype_int v with
               | Some v' => Some ((k, v') :: t')
               | None => None
               end
          else Some ((k, v) :: t')
      end
  end.

Fixpoint all_rows (f : row -> option row) (l : list row) : option (list row) :=
  match l with
  | [] => Some []
  | r :: t =>
      match f r, all_rows f t with
      | Some r', Some t' => Some (r' :: t')
      | _, _ => None
      end
  end.

(** [df['year'] = df['year'].astype(int)] *)
Definition year_astype_int (df : DataFrame) : load_error + DataFrame :=
  match all_rows year_row_astype_int (rows df) with
  | Some rs => inr {| columns := columns df; rows := rs |}
  | None => inl YearNotInteger
  end.

(** [df.dropna(subset=['final_location', 'city'])] *)
Definition dropna (df : DataFrame) : DataFrame :=
  select (fun r => notna (get r final_location) && notna (get r city)) df.

(** The order of [sort_values(['final_location', 'year'])]. *)
Definition key_leb (r1 r2 : row) : bool :=
  if cell_leb (get r1 final_location) (get r2 final_location)
  then (if cell_leb (get r2 final_location) (get r1 final_location)
        then cell_leb (get r1 year) (get r2 year)
        else true)
  else false.

Definition sort_values (df : DataFrame) : DataFrame :=
  {| columns := columns df; rows := sort key_leb (rows df) |}.

(** The tail shared by both loaders: integer years, rows without a
    location or a city dropped, then the sort. *)
Definition finish (df : DataFrame) : load_error + DataFrame :=
  match year_astype_int df with
  | inl e => inl e
  | inr df1 => inr (sort_values (dropna df1))
  end.

(** What the process can read: the decoded local file (when the path
    exists and the file is not empty), the decoded sheet behind
    [data_url], and the rows of the [RealEstateData] table (when the model
    is registered). *)
Inductive source :=
| Absent
| Unreadable
| Table (df : DataFrame).

Record World := {
  excel_file : source;
  data_url : source;
  database : option (list row)
}.

(** Lines 118-133: header reconciliation, required columns, numeric
    cleaning and the shared tail. *)
Definition normalize (raw : DataFrame) : load_error + DataFrame :=
  let df := relabel (fun col => lower (strip col)) raw in
  let df := relabel rename_label df in
  let missing_cols := filter (fun col => negb (mem col (columns df))) DB_FIELDS in
  match missing_cols with
  | _ :: _ => inl (MissingColumns missing_cols)
  | [] => finish (coerce_numeric (fun v => to_numeric (_clean_numeric_value v)) df)
  end.

Definition _load_from_external_source (w : World) : load_error + DataFrame :=
  match excel_file w with
  | Table raw => normalize raw
  | Unreadable => inl DecodeError
  | Absent =>
      match data_url w with
      | Table raw => normalize raw
      | Unreadable => inl DecodeError
      | Absent => inl NoDataset
      end
  end.

(** [None] when there is no table or no row to read. *)
Definition _load_from_database (w : World) : load_error + option DataFrame :=
  match database w with
  | None => inr None
  | Some [] => inr None
  | Some rs =>
      let df := {| columns := DB_FIELDS; rows := rs |} in
      match finish (coerce_numeric to_numeric df) with
      | inl e => inl e
      | inr df' => inr (Some df')
      end
  end.

Definition load_data (prefer_database : bool) (w : World) : load_error + DataFrame :=
  match (if prefer_database then _load_from_database w else inr None) with
  | inl e => inl e
  | inr (Some df) => inr df
  | inr None => _load_from_external_source w
  end.

(** ** Filtering *)

Record Filters := {
  locality : option str;
  year_range : option str;
  property_type : option str;
  year_from : option Z;
  year_to : option Z
}.

(** Truth value of [filters.get(key)]: present and not empty. *)
Definition truthy (v : option str) : option str :=
  match v with
  | Some (c :: t) => Some (c :: t)
  | _ => None
  end.

Definition year_ge (n : Z) (r : row) : bool :=
  match get r year with
  | Num y => Qle_bool (inject_Z n) y
  | _ => false
  end.

Definition year_le (n : Z) (r : row) : bool :=
  match get r year with
  | Num y => Qle_bool y (inject_Z n)
  | _ => false
  end.

Definition positive (col : str) (r : row) : bool :=
  match get r col with
  | Num x => negb (Qle_bool x 0)
  | _ => false
  end.

Definition location_is (loc : str) (r : row) : bool :=
  match get r final_location with
  | Str s => Text.eqb (lower s) (lower loc)
  | _ => false
  end.

(** [nth] of a Python list: [None] is [IndexError]. *)
Definition index (A : Type) (l : list A) (i : nat) : option A := nth_error l i.

(** [start_year, end_year = map(int, parts)]: [None] is [ValueError],
    from [int] or from the unpacking. *)
Definition unpack_two_ints (parts : list str) : option (Z * Z) :=
  match parts with
  | [a; b] =>
      match py_int a, py_int b with
      | Some x, Some y => Some (x, y)
      | _, _ => None
      end
  | _ => None
  end.

Definition apply_year_range (current_year : Z) (yr : str) (df : DataFrame)
  : DataFrame :=
  if startswith (lit "last ") (lower yr) then
    match index (split_ws yr) 1 with
    | Some tok =>
        match py_int tok with
        | Some years =>
            let min_year := current_year - years in
            select (year_ge min_year) df
        | None => df                 (* except ValueError: pass *)
        end
    | None => df                     (* except IndexError: pass *)
    end
  else if contains (lit "-") yr then
    match unpack_two_ints (split_char hyphen yr) with
    | Some (start_year, end_year) =>
        select (fun r => year_ge start_year r && year_le end_year r) df
    | None => df                     (* except ValueError: pass *)
    end
  else df.

Definition filter_data (current_year : Z) (df : DataFrame) (filters : Filters)
  : DataFrame :=
  let df_filtered := df in
  let df_filtered :=
    match truthy (locality filters) with
    | Some loc => select (location_is loc) df_filtered
    | None => df_filtered
    end in
  let df_filtered :=
    match truthy (year_range filters) with
    | Some yr => apply_year_range current_year yr df_filtered
    | None => df_filtered
    end in
  let df_filtered :=
    match truthy (property_type filters) with
    | Some pt =>
        let column_name := lower pt ++ lit "_sold" in
        if mem column_name (columns df_filtered)
        then select (positive column_name) df_filtered
        else df_filtered
    | None => df_filtered
    end in
  df_filtered.

(** ** Aggregation *)

(** The text values of a series. *)
Fixpoint texts (l : list cell) : list str :=
  match l with
  | [] => []
  | Str s :: t => s :: texts t
  | _ :: t => texts t
  end.

(** The years of a frame, as integers (the loaders leave [year] an
    integer column). *)
Definition years_of (df : DataFrame) : list Z :=
  map Num.truncate (numbers (column df year)).

(** [min(l)], [max(l)] of a non-empty list; the default stands for the
    [ValueError] on an empty one. *)
Definition py_min (l : list Z) : Z :=
  match l with [] => 0 | x :: t => fold_left Z.min t x end.
Definition py_max (l : list Z) : Z :=
  match l with [] => 0 | x :: t => fold_left Z.max t x end.

(** [df[[c for c in df.columns if c.endswith('_sold')]].sum()]: one sum per
    column, in column order. *)
Definition property_sums (df : DataFrame) : list (str * Q) :=
  map (fun col => (col, sum (column df col)))
      (filter (endswith (lit "_sold")) (columns df)).

(** [series.idxmax()]: the label of the first largest value. *)
Definition idxmax (l : list (str * Q)) : option str :=
  match l with
  | [] => None
  | first :: t =>
      Some (fst (fold_left
                   (fun best cur => if Qle_bool (snd cur) (snd best) then best else cur)
                   t first))
  end.

Definition top_property (df : DataFrame) : str :=
  match idxmax (property_sums df) with
  | Some label =>
      title (replace (lit "_") (lit " ") (replace (lit "_sold") [] label))
  | None => lit "N/A"
  end.

(** [property_sums.sum()] *)
Definition units_sold (df : DataFrame) : Q :=
  Num.Qsum (map snd (property_sums df)).

Definition no_data : str := lit "No data available for the specified filters.".

Definition generate_summary (df : DataFrame) (query : option str) : str :=
  if empty df then no_data
  else
    let localities := unique Text.eqb (texts (column df final_location)) in
    let years := sort Z.leb (unique Z.eqb (years_of df)) in
    let total_sales := sum (column df (lit "total_sales")) in
    let avg_flat_price := mean (column df (lit "flat_weighted_avg_rate")) in
    let avg_office_price := mean (column df (lit "office_weighted_avg_rate")) in
    let avg_shop_price := mean (column df (lit "shop_weighted_avg_rate")) in
    let scope_text :=
      match localities with
      | [only] => only
      | _ => repr_Z (Z.of_nat (List.length localities)) ++ lit " localities"
      end in
    lit "Between " ++ repr_Z (py_min years) ++ lit " and " ++ repr_Z (py_max years)
      ++ lit ", " ++ scope_text ++ lit " recorded ₹"
      ++ Num.format_comma0 (Some total_sales) ++ lit " in total sales with "
      ++ Num.format_comma0 (Some (units_sold df)) ++ lit " units sold. "
      ++ lit "Average prices per sq.ft (Flat/Office/Shop) were ₹"
      ++ Num.format_comma0 avg_flat_price ++ lit " / ₹"
      ++ Num.format_comma0 avg_office_price ++ lit " / ₹"
      ++ Num.format_comma0 avg_shop_price ++ lit ". "
      ++ lit "Most active segment: " ++ top_property df ++ lit ".".

(** One series of the chart.  The presentation attributes (colours, axis,
    tension) are kept as text. *)
Record Dataset := {
  label : str;
  data : list cell;
  attributes : list (str * str)
}.

Record ChartData := {
  labels : list Z;
  datasets : list Dataset
}.

Definition year_is (y : Z) (r : row) : bool :=
  match get r year with
  | Num x => Z.eqb (Num.truncate x) y
  | _ => false
  end.

Definition cell_of (x : option Q) : cell :=
  match x with Some q => Num q | None => NaN end.

Definition prepare_chart_data (df : DataFrame) : ChartData :=
  if empty df then {| labels := []; datasets := [] |}
  else
    (* df.groupby('year'): the groups in ascending order of the key *)
    let keys := sort Z.leb (unique Z.eqb (years_of df)) in
    let group y := select (year_is y) df in
    {| labels := keys;
       datasets := [
         {| label := lit "Avg Flat Price (₹/sq.ft)";
            data := map (fun y =>
                           cell_of (option_map Num.round2
                             (mean (column (group y) (lit "flat_weighted_avg_rate")))))
                        keys;
            attributes := [(lit "borderColor", lit "rgb(67, 97, 238)");
                           (lit "tension", lit "0.2");
                           (lit "yAxisID", lit "y")] |};
         {| label := lit "Total Units Sold";
            data := map (fun y =>
                           Num (Num.round0 (sum (column (group y) (lit "total_sold")))))
                        keys;
            attributes := [(lit "type", lit "bar");
                           (lit "backgroundColor", lit "rgba(230, 57, 70, 0.4)");
                           (lit "borderColor", lit "rgba(230, 57, 70, 1)");
                           (lit "yAxisID", lit "y1")] |}
       ] |}.

(** The displayed columns and their labels after the rename. *)
Definition display_columns : list (str * str) := [
  (lit "year", lit "year");
  (lit "final_location", lit "Location");
  (lit "city", lit "city");
  (lit "total_sales", lit "Total Sales (₹)");
  (lit "total_sold", lit "Total Units Sold");
  (lit "flat_weighted_avg_rate", lit "Flat Avg Rate (₹/sq.ft)");
  (lit "office_weighted_avg_rate", lit "Office Avg Rate (₹/sq.ft)");
  (lit "shop_weighted_avg_rate", lit "Shop Avg Rate (₹/sq.ft)");
  (lit "others_weighted_avg_rate", lit "Others Avg Rate (₹/sq.ft)")
].

Definition round_cell (c : cell) : cell :=
  match c with
  | Num x => Num (Num.round2 x)
  | _ => c
  end.

Definition prepare_table_data (df : DataFrame) : list row :=
  if empty df then []
  else
    map (fun r => map (fun cl : str * str => (snd cl, round_cell (get r (fst cl))))
                      display_columns)
        (rows df).

(** ** The query pipeline *)

Record AnalysisResult := {
  query : str;
  summary : str;
  chart_data : ChartData;
  table_data : list row;
  filters : Filters
}.

Definition set_locality (f : Filters) (v : str) : Filters :=
  {| locality := Some v; year_range := year_range f;
     property_type := property_type f; year_from := year_from f;
     year_to := year_to f |}.

Definition set_year_range (f : Filters) (v : str) : Filters :=
  {| locality := locality f; year_range := Some v;
     property_type := property_type f; year_from := year_from f;
     year_to := year_to f |}.

Definition set_property_type (f : Filters) (v : str) : Filters :=
  {| locality := locality f; year_range := year_range f;
     property_type := Some v; year_from := year_from f;
     year_to := year_to f |}.

Definition is_set (v : option str) : bool :=
  match truthy v with Some _ => true | None => false end.

Definition nonempty (s : str) : bool :=
  match s with [] => false | _ => true end.

(** Locality from the text: the first known location whose lowered name
    occurs in the lowered query. *)
Definition infer_locality (df : DataFrame) (q : str) (f : Filters) : Filters :=
  if negb (is_set (locality f)) && nonempty q then
    let localities := unique Text.eqb (texts (column df final_location)) in
    match find (fun loc => contains (lower loc) (lower q)) localities with
    | Some loc => set_locality f loc
    | None => f
    end
  else f.

(** Year range from the text: ['2019-2023'] first, then ['last 3 years']. *)
Definition infer_year_range (q : str) (f : Filters) : Filters :=
  if negb (is_set (year_range f)) && nonempty q then
    match search_year_span q with
    | Some (g1, g2) => set_year_range f (g1 ++ lit "-" ++ g2)
    | None =>
        match search_last_years (lower q) with
        | Some g => set_year_range f (lit "last " ++ g)
        | None => f
        end
    end
  else f.

Definition infer_property_type (q : str) (f : Filters) : Filters :=
  if negb (is_set (property_type f)) && nonempty q then
    match find (fun prop => contains prop (lower q)) PROPERTY_COLUMNS with
    | Some prop => set_property_type f prop
    | None => f
    end
  else f.

(** Lines 333-360: the three inference steps, in the order of the source. *)
Definition resolve_filters (df : DataFrame) (q : str) (f : Filters) : Filters :=
  infer_property_type q (infer_year_range q (infer_locality df q f)).

Definition process_query (current_year : Z) (df : DataFrame) (q : str)
  (f : Filters) : AnalysisResult :=
  let f' := resolve_filters df q f in
  let filtered_df := filter_data current_year df f' in
  {| query := q;
     summary := generate_summary filtered_df (Some q);
     chart_data := prepare_chart_data filtered_df;
     table_data := prepare_table_data filtered_df;
     filters := f' |}.

End Processor.

(* ================================================================== *)
(** * The loaders, row by row *)
(* ================================================================== *)

Module Rowwise.
Import Text Frame Processor.

(** [relabel] and [assign] on one row. *)
Definition relabel_row (f : str -> str) (r : row) : row :=
  map (fun kv : str * cell => (f (fst kv), snd kv)) r.

Definition assign_row (col : str) (f : cell -> cell) (r : row) : row :=
  map (fun kv : str * cell =>
         if Text.eqb (fst kv) col then (fst kv, f (snd kv)) else kv) r.

(** The loop over [NUMERIC_COLUMNS] on one row of a frame with the columns
    [cols]. *)
Definition coerce_row (f : cell -> cell) (cols : list str) (r : row) : row :=
  fold_left (fun r' col => if mem col cols then assign_row col f r' else r')
            NUMERIC_COLUMNS r.

(** Lines 118-129 on one row of a sheet with the headers [headers]: the
    headers trimmed, lowered and renamed, the numeric cells cleaned and
    coerced, the year cast to [int]; [None] where the cast raises. *)
Definition sheet_row (headers : list str) (r : row) : option row :=
  let label := fun col => rename_label (lower (strip col)) in
  year_row_astype_int
    (coerce_row (fun v => to_numeric (_clean_numeric_value v))
                (map label headers) (relabel_row label r)).

(** Lines 95-99 on one row of the table. *)
Definition table_row (r : row) : option row :=
  year_row_astype_int (coerce_row to_numeric DB_FIELDS r).

End Rowwise.

(* ================================================================== *)
(** * [AnalysisQuerySerializer] (api/serializers/real_estate.py) *)
(* ================================================================== *)

Module Serializer.
Import Text.

(** The request as it arrives: every field may be absent. *)
Record Request := {
  req_query : option str;
  req_locality : option str;
  req_year_from : option Z;
  req_year_to : option Z;
  req_property_type : option str
}.

(** The validated data handed to [validate]. *)
Record QueryData := {
  query : str;
  locality : option str;
  year_from : option Z;
  year_to : option Z;
  property_type : option str
}.

Inductive ValidationError :=
| FieldErrors (fields : list str)    (* the declared fields that failed *)
| NonFieldError (message : str).     (* raised by [validate] *)

Definition year_order_message : str :=
  lit "'year_from' cannot be after 'year_to'".

(** Truth value of an optional integer and of an optional text. *)
Definition int_set (v : option Z) : bool :=
  match v with
  | Some n => negb (n =? 0)
  | None => false
  end.

Definition text_set (v : option str) : bool :=
  match v with
  | Some (_ :: _) => true
  | _ => false
  end.

(** [int(y)] of a match of [\d{4}]: a run of digits has no sign, space or
    underscore, and [int] cannot fail on it. *)
Definition int_of_digits (y : str) : Z :=
  fold_left (fun acc c => 10 * acc + digit_value c) y 0.

(** [years[0]] and [years[-1]] *)
Definition first (l : list Z) : Z := hd 0 l.
Definition final (l : list Z) : Z := last l 0.

Definition locality_keywords : list (str * str) := [
  (lit "wakad", lit "Wakad");
  (lit "aundh", lit "Aundh");
  (lit "baner", lit "Baner");
  (lit "hinjewadi", lit "Hinjewadi")
].

Definition with_years (d : QueryData) (a b : Z) : QueryData :=
  {| query := query d; locality := locality d; year_from := Some a;
     year_to := Some b; property_type := property_type d |}.

Definition with_locality (d : QueryData) (v : str) : QueryData :=
  {| query := query d; locality := Some v; year_from := year_from d;
     year_to := year_to d; property_type := property_type d |}.

(** Years from the text (lines 79-85). *)
Definition extract_years (d : QueryData) : QueryData :=
  if negb (int_set (year_from d)) || negb (int_set (year_to d)) then
    let year_matches := findall_year (query d) in
    if (2 <=? List.length year_matches)%nat then
      let years := Frame.sort Z.leb (map int_of_digits year_matches) in
      with_years d (first years) (final years)
    else d
  else d.

(** Locality from the text (lines 87-99). *)
Definition extract_locality (d : QueryData) : QueryData :=
  if negb (text_set (locality d)) then
    let q := lower (query d) in
    match find (fun kv : str * str => contains (fst kv) q) locality_keywords with
    | Some kv => with_locality d (snd kv)
    | None => d
    end
  else d.

Definition validate (data : QueryData) : ValidationError + QueryData :=
  let bad_order :=
    match year_from data, year_to data with
    | Some a, Some b => int_set (Some a) && int_set (Some b) && (b <? a)
    | _, _ => false
    end in
  if bad_order then inl (NonFieldError year_order_message)
  else inr (extract_locality (extract_years data)).

(** ** The declared fields (lines 42-69) *)

Definition year_in_bounds (v : option Z) : bool :=
  match v with
  | Some n => (2000 <=? n) && (n <=? 2100)
  | None => true
  end.

Definition property_choices : list str := [
  lit "flat"; lit "office"; lit "shop"; lit "others"; lit "commercial";
  lit "residential"
].

Definition choice_ok (v : option str) : bool :=
  match v with
  | Some [] => true
  | Some s => Frame.mem s property_choices
  | None => true
  end.

(** A required text field: present and not blank once trimmed. *)
Definition query_ok (v : option str) : bool :=
  match v with
  | Some s => match strip s with [] => false | _ => true end
  | None => false
  end.

Definition field_errors (r : Request) : list str :=
  (if query_ok (req_query r) then [] else [lit "query"])
  ++ (if year_in_bounds (req_year_from r) then [] else [lit "year_from"])
  ++ (if year_in_bounds (req_year_to r) then [] else [lit "year_to"])
  ++ (if choice_ok (req_property_type r) then [] else [lit "property_type"]).

Definition internal_value (r : Request) : QueryData :=
  {| query := match req_query r with Some s => strip s | None => [] end;
     locality := option_map strip (req_locality r);
     year_from := req_year_from r;
     year_to := req_year_to r;
     property_type := req_property_type r |}.

(** [serializer.is_valid()] with its [validated_data]: the declared fields
    first, [validate] only when they all pass. *)
Definition run_validation (r : Request) : ValidationError + QueryData :=
  match field_errors r with
  | [] => validate (internal_value r)
  | errs => inl (FieldErrors errs)
  end.

End Serializer.

(* ================================================================== *)
(** * [RealEstateAnalysisView] (api/views.py) *)
(* ================================================================== *)

Module Views.
Import Text.

(** What a request does to the processor and to the enrichment
    collaborator, in order. *)
Inductive event :=
| FilterCall (f : Processor.Filters)
| EnrichmentCall (q : str).

Record Metadata := {
  meta_rows : nat;
  generated_at : str;
  ai_summary : bool
}.

Inductive Response :=
| BadRequest (error : str) (details : Serializer.ValidationError)   (* 400 *)
| Ok (result : Processor.AnalysisResult) (metadata : Metadata).    (* 200 *)

(** The view object: the loaded frame, the clock, the time-zone setting and
    the optional enrichment client (its answer to a query and a baseline
    result; [None] when the call fails). *)
Record View := {
  df : Frame.DataFrame;
  current_year : Z;
  time_zone : str;
  ai_client : option (str -> Processor.AnalysisResult -> option str)
}.

Definition or_empty (v : option str) : str :=
  match v with Some s => s | None => [] end.

Definition _maybe_generate_ai_summary (v : View) (q : str)
  (result : Processor.AnalysisResult) : option str * list event :=
  match ai_client v with
  | None => (None, [])
  | Some client =>
      match q with
      | [] => (None, [])
      | _ => (option_map strip (client q result), [EnrichmentCall q])
      end
  end.

Definition with_summary (r : Processor.AnalysisResult) (s : str)
  : Processor.AnalysisResult :=
  {| Processor.query := Processor.query r;
     Processor.summary := s;
     Processor.chart_data := Processor.chart_data r;
     Processor.table_data := Processor.table_data r;
     Processor.filters := Processor.filters r |}.

Definition process_analysis (v : View) (data : Serializer.QueryData)
  : Response * list event :=
  let q := Serializer.query data in
  let filters :=
    {| Processor.locality := Some (or_empty (Serializer.locality data));
       Processor.year_range := Some [];
       Processor.property_type := Some (or_empty (Serializer.property_type data));
       Processor.year_from := Serializer.year_from data;
       Processor.year_to := Serializer.year_to data |} in
  let result := Processor.process_query (current_year v) (df v) q filters in
  let filter_events := [FilterCall (Processor.filters result)] in
  let rows := List.length (Processor.table_data result) in
  let '(reply, ai_events) := _maybe_generate_ai_summary v q result in
  match reply with
  | Some (c :: t) =>
      (Ok (with_summary result (c :: t))
          {| meta_rows := rows; generated_at := time_zone v; ai_summary := true |},
       filter_events ++ ai_events)
  | _ =>
      (Ok result
          {| meta_rows := rows; generated_at := time_zone v; ai_summary := false |},
       filter_events ++ ai_events)
  end.

(** [get] and [post]: validation first; a rejected request is answered
    without reaching [process_analysis].  The embedding of the pipeline is
    total, so the [except Exception] arm of [process_analysis] (status 500)
    has no counterpart here. *)
Definition handle (message : str) (v : View) (r : Serializer.Request)
  : Response * list event :=
  match Serializer.run_validation r with
  | inl errors => (BadRequest message errors, [])
  | inr data => process_analysis v data
  end.

Definition get (v : View) (r : Serializer.Request) : Response * list event :=
  handle (lit "Invalid query parameters") v r.

Definition post (v : View) (r : Serializer.Request) : Response * list event :=
  handle (lit "Invalid request data") v r.

End Views.

(* ================================================================== *)
(** * The filters, as the specification words them *)
(* ================================================================== *)

Module Spec.
Import Text Frame Processor.

(** [yr] starts with ['last '] (in any case) followed by an integer [n]:
    the first word after the prefix reads as [n]. *)
Definition last_form (yr : str) (n : Z) : Prop :=
  exists prefix rest tok more,
    yr = prefix ++ rest /\ lower prefix = lit "last " /\
    split_ws rest = tok :: more /\ py_int tok = Some n.

(** [yr] is two integers around one hyphen, ['YYYY-YYYY']. *)
Definition span_form (yr : str) (a b : Z) : Prop :=
  exists sa sb,
    yr = sa ++ hyphen :: sb /\ ~ In hyphen sa /\ ~ In hyphen sb /\
    py_int sa = Some a /\ py_int sb = Some b.

Definition year_between (a b : Z) (r : row) : Prop :=
  exists y, get r year = Num y /\ (inject_Z a <= y)%Q /\ (y <= inject_Z b)%Q.

Definition year_at_least (a : Z) (r : row) : Prop :=
  exists y, get r year = Num y /\ (inject_Z a <= y)%Q.

Definition in_locality (loc : str) (r : row) : Prop :=
  exists s, get r final_location = Str s /\ lower s = lower loc.

Definition sold_some (col : str) (r : row) : Prop :=
  exists x, get r col = Num x /\ (0 < x)%Q.

(** A row passes every filter that is present. *)
Definition passes (current_year : Z) (df : DataFrame) (f : Filters) (r : row)
  : Prop :=
  (forall loc, truthy (locality f) = Some loc -> in_locality loc r)
  /\ (forall yr, truthy (year_range f) = Some yr ->
        (forall n, last_form yr n -> year_at_least (current_year - n) r)
        /\ (forall a b, span_form yr a b -> year_between a b r))
  /\ (forall pt, truthy (property_type f) = Some pt ->
        mem (lower pt ++ lit "_sold") (columns df) = true ->
        sold_some (lower pt ++ lit "_sold") r).

(** The year-range test of [filter_data] on one row. *)
Definition parse_last (yr : str) : option Z :=
  match index (split_ws yr) 1 with
  | Some tok => py_int tok
  | None => None
  end.

Definition parse_span (yr : str) : option (Z * Z) :=
  unpack_two_ints (split_char hyphen yr).

(** The test [filter_data] makes of one row for a year range, and for a
    whole filter set. *)
Definition keeps_year (current_year : Z) (yr : str) (r : row) : bool :=
  if startswith (lit "last ") (lower yr) then
    match parse_last yr with
    | Some n => year_ge (current_year - n) r
    | None => true
    end
  else if contains (lit "-") yr then
    match parse_span yr with
    | Some (a, b) => year_ge a r && year_le b r
    | None => true
    end
  else true.

Definition keeps (current_year : Z) (df : DataFrame) (f : Filters) (r : row)
  : bool :=
  match truthy (locality f) with
  | Some loc => location_is loc r
  | None => true
  end
  && match truthy (year_range f) with
     | Some yr => keeps_year current_year yr r
     | None => true
     end
  && match truthy (property_type f) with
     | Some pt =>
         if mem (lower pt ++ lit "_sold") (columns df)
         then positive (lower pt ++ lit "_sold") r
         else true
     | None => true
     end.

(** Two rows with the same location and the same year. *)
Definition same_key (r1 r2 : row) : bool :=
  cell_eqb (get r1 final_location) (get r2 final_location)
  && cell_eqb (get r1 year) (get r2 year).

(** [out] is [input] sorted by [key_leb], stably: it is ordered, and the
    rows of any one key stand in it as they stand in [input]. *)
Definition stable_sort_of (input out : list row) : Prop :=
  ordered key_leb out
  /\ Permutation out input
  /\ forall k, filter (same_key k) out = filter (same_key k) input.

(** The rows [dropna] keeps: a location and a city are present. *)
Definition surviving (r : row) : bool :=
  notna (get r final_location) && notna (get r city).

(** The filter set with its year range taken out. *)
Definition without_year_range (f : Filters) : Filters :=
  {| locality := locality f; year_range := None;
     property_type := property_type f; year_from := year_from f;
     year_to := year_to f |}.

(** The per-category sold counts: the columns named after a property
    category of [PROPERTY_COLUMNS]. *)
Definition category_columns : list str :=
  map (fun p => p ++ lit "_sold") PROPERTY_COLUMNS.






End Spec.

(* ================================================================== *)
(** * Sample data *)
(* ================================================================== *)

Module Samples.
Import Text Frame Processor.

Definition num (n : Z) : cell := Num (inject_Z n).

(** A canonical row, in the order of [DB_FIELDS]. *)
Definition canonical_row (loc : str) (y total_sales total_sold flat_sold
  office_sold shop_sold : Z) : row := [
  (lit "final_location", Str loc);
  (lit "year", num y);
  (lit "city", Str (lit "Pune"));
  (lit "loc_lat", NaN);
  (lit "loc_lng", NaN);
  (lit "total_sales", num total_sales);
  (lit "total_sold", num total_sold);
  (lit "flat_sold", num flat_sold);
  (lit "office_sold", num office_sold);
  (lit "others_sold", num 0);
  (lit "shop_sold", num shop_sold);
  (lit "commercial_sold", num 0);
  (lit "other_sold", num 0);
  (lit "residential_sold", num 0);
  (lit "flat_weighted_avg_rate", num 6500);
  (lit "office_weighted_avg_rate", num 9000);
  (lit "others_weighted_avg_rate", NaN);
  (lit "shop_weighted_avg_rate", num 12000);
  (lit "flat_prevailing_rate_range", Str (lit "6000-7000"));
  (lit "office_prevailing_rate_range", Str []);
  (lit "others_prevailing_rate_range", Str []);
  (lit "shop_prevailing_rate_range", Str []);
  (lit "total_units", num 40);
  (lit "total_carpet_area", num 32000);
  (lit "flat_total", num 30);
  (lit "shop_total", num 4);
  (lit "office_total", num 6);
  (lit "others_total", num 0)
].

Definition baner (y : Z) : row := canonical_row (lit "Baner") y 900000 9 6 2 1.
Definition wakad (y : Z) : row := canonical_row (lit "Wakad") y 800000 8 5 3 0.

(** Wakad and Baner, 2018 to 2023. *)
Definition wakad_baner : DataFrame :=
  {| columns := DB_FIELDS;
     rows := map baner [2018; 2019; 2020; 2021; 2022; 2023]
             ++ map wakad [2018; 2019; 2020; 2021; 2022; 2023] |}.

Definition no_filters : Filters :=
  {| locality := None; year_range := None; property_type := None;
     year_from := None; year_to := None |}.

(** [{locality: 'wakad', year_range: '2020-2022'}] *)
Definition wakad_2020_2022 : Filters :=
  {| locality := Some (lit "wakad"); year_range := Some (lit "2020-2022");
     property_type := None; year_from := None; year_to := None |}.

(** One Wakad row: 5 flats and 3 offices sold, 8 units in all. *)
Definition one_wakad_row : DataFrame :=
  {| columns := DB_FIELDS; rows := [wakad 2021] |}.

(** A request that supplies [year_from] alone, with two years in the
    text. *)
Definition half_range_request : Serializer.Request :=
  {| Serializer.req_query := Some (lit "compare 2015 and 2018");
     Serializer.req_locality := None;
     Serializer.req_year_from := Some 2020;
     Serializer.req_year_to := None;
     Serializer.req_property_type := None |}.

(** [year_from=2023, year_to=2020] *)
Definition reversed_request : Serializer.Request :=
  {| Serializer.req_query := Some (lit "prices in Wakad");
     Serializer.req_locality := None;
     Serializer.req_year_from := Some 2023;
     Serializer.req_year_to := Some 2020;
     Serializer.req_property_type := None |}.

Definition compare_request : Serializer.Request :=
  {| Serializer.req_query := Some (lit "compare 2023 and 2019");
     Serializer.req_locality := None;
     Serializer.req_year_from := None;
     Serializer.req_year_to := None;
     Serializer.req_property_type := None |}.

(** A sheet as it is read: free-form headers, text cells, blanks. *)
Definition raw_headers : list str :=
  [lit " Final Location "; lit "YEAR"; lit "City"]
  ++ skipn 3 (map fst COLUMN_MAP).

Definition raw_row (loc : cell) (y : str) (city : cell) (sales : str) : row :=
  combine raw_headers
    ([loc; Str y; city; NaN; NaN; Str sales]
     ++ repeat (Str (lit "NA")) 22).

Definition raw_sheet : DataFrame :=
  {| columns := raw_headers;
     rows := [
       raw_row (Str (lit "Wakad")) (lit "2021") (Str (lit "Pune")) (lit "₹1,200");
       raw_row (Str (lit "Baner")) (lit "2020") (Str (lit "Pune")) (lit "₹3,400");
       raw_row (Str (lit "Wakad")) (lit "2019") (Str (lit "Pune")) (lit "n/a");
       raw_row NaN (lit "2019") (Str (lit "Pune")) (lit "10");
       raw_row (Str (lit "Baner")) (lit "2020") (Str (lit "Mumbai")) (lit "5,600")
     ] |}.

Definition sample_view : Views.View :=
  {| Views.df := wakad_baner; Views.current_year := 2026;
     Views.time_zone := lit "UTC"; Views.ai_client := None |}.


(** Three categories: 3 flats, then 5 offices and 5 shops sold. *)
Definition segments_frame : DataFrame :=
  {| columns := [lit "final_location"; lit "year"; lit "flat_sold";
                 lit "office_sold"; lit "shop_sold"];
     rows := [
       [(lit "final_location", Str (lit "Wakad")); (lit "year", num 2021);
        (lit "flat_sold", num 1); (lit "office_sold", num 2);
        (lit "shop_sold", num 5)];
       [(lit "final_location", Str (lit "Wakad")); (lit "year", num 2022);
        (lit "flat_sold", num 2); (lit "office_sold", num 3);
        (lit "shop_sold", num 0)]
     ] |}.

(** A view whose enrichment client answers every query with the same
    sentence, and one whose client answers with blanks. *)
Definition enriched_view : Views.View :=
  {| Views.df := wakad_baner; Views.current_year := 2026;
     Views.time_zone := lit "UTC";
     Views.ai_client := Some (fun _ _ => Some (lit "  Prices rose.  ")) |}.

Definition blank_view : Views.View :=
  {| Views.df := wakad_baner; Views.current_year := 2026;
     Views.time_zone := lit "UTC";
     Views.ai_client := Some (fun _ _ => Some (lit "   ")) |}.

End Samples.

(* ================================================================== *)
(** * The other endpoints of api/views.py *)
(* ================================================================== *)

Module Endpoints.
Import Text Frame Processor.

(** [AvailableLocalitiesView.get]: the processor is built with its
    defaults ([prefer_database=True]); any failure is answered with
    status 500. *)
Inductive LocalitiesResponse :=
| Localities (names : list str)     (* 200 *)
| LocalitiesFailed.                 (* 500 *)

Definition localities_get (w : World) : LocalitiesResponse :=
  match load_data true w with
  | inr df =>
      Localities (sort Text.leb (unique Text.eqb (texts (column df final_location))))
  | inl _ => LocalitiesFailed
  end.

(** ** [DataExportView.post]

    A value of a JSON body, as Python holds it once parsed. *)
#[local] Unset Elimination Schemes.
Inductive value :=
| VNull
| VBool (b : bool)
| VNumber (x : Q)
| VText (s : str)
| VArray (items : list value)
| VObject (fields : list (str * value)).
#[local] Set Elimination Schemes.

(** Python's truth value. *)
Definition truth (v : value) : bool :=
  match v with
  | VNull => false
  | VBool b => b
  | VNumber x => negb (Qeq_bool x 0)
  | VText s => match s with [] => false | _ => true end
  | VArray items => match items with [] => false | _ => true end
  | VObject fields => match fields with [] => false | _ => true end
  end.

(** The keys of the body that the view or its serializer read; [None] is
    an absent key.  The body is a JSON object; a form body, where every
    value is a text and the framework reads a blank as an absent key, is
    not covered. *)
Record ExportRequest := {
  format : option value;
  include_charts : option value;
  include_raw_data : option value;
  export_locality : option value;
  export_year_range : option value;
  export_property_type : option value;
  export_year_from : option value;
  export_year_to : option value
}.

(** The [ChoiceField] [format]: a text that is one of the two choices,
    ['csv'] when the key is absent; [None] is the validation error. *)
Definition validated_format (v : option value) : option str :=
  match v with
  | None => Some (lit "csv")
  | Some (VText s) =>
      if Text.eqb s (lit "csv") || Text.eqb s (lit "excel") then Some s else None
  | Some _ => None
  end.

(** A [BooleanField] with a default: an absent key is valid, [null] is
    not ([allow_null] is not set), and any other value is valid when the
    field of the framework takes it as a boolean ([accepts]: the Python
    booleans and the spellings of its tables of true and false
    values). *)
Definition boolean_valid (accepts : value -> bool) (v : option value) : bool :=
  match v with
  | None => true
  | Some VNull => false
  | Some x => accepts x
  end.

(** [ExportDataSerializer(data=...).is_valid()], with
    [validated_data['format']] when it holds. *)
Definition is_valid (accepts : value -> bool) (r : ExportRequest) : option str :=
  match validated_format (format r) with
  | Some f =>
      if boolean_valid accepts (include_charts r)
         && boolean_valid accepts (include_raw_data r)
      then Some f else None
  | None => None
  end.

(** The answer of [DataExportView.post].  The bytes of the file are what
    [to_csv] or [to_excel] writes for [content]; the frame stands for
    them. *)
Inductive ExportResponse :=
| ExportRejected                          (* 400, raise_exception=True *)
| ExportUnavailable (e : load_error)      (* the processor could not load *)
| ExportRaised                            (* AttributeError in filter_data *)
| ExportNotFound (detail : str)           (* 404 *)
| ExportFile (content_type filename : str) (content : DataFrame).

(** A filter value as [filter_data] meets it.  The view passes what the
    body holds, [''] for an absent key.  A false value is no filter (it
    stands here as the empty text), a text is the filter, and any other
    true value has no [lower]: [None] is the AttributeError. *)
Definition filter_text (v : option value) : option (option str) :=
  match v with
  | None => Some (Some [])
  | Some (VText s) => Some (Some s)
  | Some x => if truth x then None else Some (Some [])
  end.

(** [year_from] and [year_to] are carried as the body holds them and not
    read; an integer is kept, any other value stands as [None]. *)
Definition carried_int (v : option value) : option Z :=
  match v with
  | Some (VNumber x) =>
      if Qeq_bool x (inject_Z (Qfloor x)) then Some (Qfloor x) else None
  | _ => None
  end.

Definition export_filters (r : ExportRequest) : option Filters :=
  match filter_text (export_locality r), filter_text (export_year_range r),
        filter_text (export_property_type r) with
  | Some l, Some y, Some p =>
      Some {| locality := l; year_range := y; property_type := p;
              year_from := carried_int (export_year_from r);
              year_to := carried_int (export_year_to r) |}
  | _, _, _ => None
  end.

Definition export_post (accepts : value -> bool) (current_year : Z) (w : World)
  (r : ExportRequest) : ExportResponse :=
  match is_valid accepts r with
  | None => ExportRejected
  | Some export_format =>
      match load_data true w with
      | inl e => ExportUnavailable e
      | inr df =>
          match export_filters r with
          | None => ExportRaised
          | Some filters =>
              let filtered_df := filter_data current_year df filters in
              if empty filtered_df then
                ExportNotFound (lit "No data available for the specified filters.")
              else if Text.eqb export_format (lit "excel") then
                ExportFile
                  (lit "application/vnd.openxmlformats-officedocument.spreadsheetml.sheet")
                  (lit "real_estate_export.xlsx") filtered_df
              else
                ExportFile (lit "text/csv") (lit "real_estate_export.csv") filtered_df
          end
      end
  end.

(** ** Sample requests *)

(** The table holds the Wakad and Baner rows. *)
Definition sample_world : World :=
  {| excel_file := Absent; data_url := Absent;
     database := Some (rows Samples.wakad_baner) |}.

(** A boolean field that takes the two booleans and no spelling of
    them.  On the sample bodies below it answers as the field of the
    framework does: [false] is taken, the word ['maybe'] is not. *)
Definition booleans_only (v : value) : bool :=
  match v with
  | VBool _ => true
  | _ => false
  end.

(** [{format: 'excel', include_raw_data: false, locality: 'wakad',
    year_range: '2020-2022', year_from: 2023, year_to: 2019}] *)
Definition wakad_export : ExportRequest :=
  {| format := Some (VText (lit "excel"));
     include_charts := None;
     include_raw_data := Some (VBool false);
     export_locality := Some (VText (lit "wakad"));
     export_year_range := Some (VText (lit "2020-2022"));
     export_property_type := None;
     export_year_from := Some (VNumber (inject_Z 2023));
     export_year_to := Some (VNumber (inject_Z 2019)) |}.

(** The same body, with a word where a boolean is expected. *)
Definition maybe_export : ExportRequest :=
  {| format := Some (VText (lit "excel"));
     include_charts := Some (VText (lit "maybe"));
     include_raw_data := Some (VBool false);
     export_locality := Some (VText (lit "wakad"));
     export_year_range := Some (VText (lit "2020-2022"));
     export_property_type := None;
     export_year_from := Some (VNumber (inject_Z 2023));
     export_year_to := Some (VNumber (inject_Z 2019)) |}.

End Endpoints.

(* ================================================================== *)
(** * The import command
      (api/management/commands/import_real_estate_data.py) *)
(* ================================================================== *)

Module ImportCommand.
Import Text Frame Processor.

(** The table of [RealEstateData] as the command uses it: the count that
    [objects.all().delete()] returns ([None] when it raises), and whether
    the database stores the prepared records ([false] when the insert
    raises, as on a repeated [(final_location, year, city)]). *)
Record Store := {
  delete_all : option nat;
  bulk_create : list row -> bool
}.

Inductive Outcome :=
| LoadFailed (e : load_error)          (* the processor raised *)
| CommandError (message : str)
| DeleteFailed                         (* delete raised *)
| CreateFailed (removed : option nat)  (* bulk_create raised on [payloads] *)
               (payloads : list row)
| Imported (removed : option nat)      (* rows deleted, with [--truncate] *)
           (payloads : list row)       (* the records given to bulk_create *)
           (message : str).

(** The [IntegerField]s of [RealEstateData] (api/models.py). *)
Definition INTEGER_FIELDS : list str := [
  lit "year"; lit "total_sold"; lit "flat_sold"; lit "office_sold";
  lit "others_sold"; lit "shop_sold"; lit "commercial_sold"; lit "other_sold";
  lit "residential_sold"; lit "total_units"; lit "flat_total"; lit "shop_total";
  lit "office_total"; lit "others_total"
].

(** [{field: row.get(field) for field in model_fields}] *)
Definition payload (r : row) : row :=
  map (fun field => (field, get r field)) DB_FIELDS.

(** The values of a record are prepared for the insert field by field;
    an [IntegerField] takes [int] of its value, which raises on a missing
    number (a [nan]). *)
Definition prepares (p : row) : bool :=
  forallb (fun field => notna (get p field)) INTEGER_FIELDS.

(** [handle]: the sources of [w] are the resolved [--file] and [--url]
    options; the processor is built with [prefer_database=False]. *)
Definition handle (truncate : bool) (table : Store) (w : World) : Outcome :=
  match load_data false w with
  | inl e => LoadFailed e
  | inr df =>
      if empty df then
        CommandError
          (lit "No rows available to import. Verify the provided file path or URL.")
      else
        match (if truncate then option_map Some (delete_all table) else Some None) with
        | None => DeleteFailed
        | Some removed =>
            let payloads := map payload (rows df) in
            if forallb prepares payloads && bulk_create table payloads then
              Imported removed payloads
                (lit "Imported " ++ repr_Z (Z.of_nat (List.length payloads))
                   ++ lit " real estate rows.")
            else CreateFailed removed payloads
        end
  end.

(** The records built from the frame [df]: one per row and in the order
    of the rows, each with exactly the model fields, in their order, and
    the cells of its row; at least one, each with a location and a city,
    ordered by [(final_location, year)]. *)
Definition records (df : DataFrame) (payloads : list row) : Prop :=
  payloads = map payload (rows df)
  /\ payloads <> []
  /\ List.length payloads = List.length (rows df)
  /\ Forall (fun p => map fst p = DB_FIELDS) payloads
  /\ Forall2 (fun r p => forall field, In field DB_FIELDS -> get p field = get r field)
             (rows df) payloads
  /\ Forall (fun p => notna (get p final_location) = true
                      /\ notna (get p city) = true) payloads
  /\ ordered key_leb payloads.

(** ** Sample runs *)

(** The sample sheet as the local file: its counts are blank. *)
Definition sheet_world : World :=
  {| excel_file := Table Samples.raw_sheet; data_url := Absent; database := None |}.

(** A sheet with a number in every numeric column. *)
Definition full_row (loc : str) (y : str) (sales : str) : row :=
  combine Samples.raw_headers
    ([Str loc; Str y; Str (lit "Pune"); Str (lit "18.5"); Str (lit "73.8"); Str sales]
     ++ repeat (Str (lit "7")) 22).

Definition full_world : World :=
  {| excel_file := Absent;
     data_url := Table {| columns := Samples.raw_headers;
                          rows := [full_row (lit "Wakad") (lit "2021") (lit "1,200");
                                   full_row (lit "Baner") (lit "2020") (lit "900")] |};
     database := None |}.

(** A table that stores whatever it is given. *)
Definition lenient_table : Store :=
  {| delete_all := Some 7%nat; bulk_create := fun _ => true |}.

End ImportCommand.

(* ================================================================== *)
(** * Properties of frames, as statements *)
(* ================================================================== *)

Module Shape.
Import Text Frame Processor.

(** Every row has a cell for each column, in column order. *)
Definition well_formed (df : DataFrame) : Prop :=
  Forall (fun r => map fst r = columns df) (rows df).

Definition is_number_or_missing (c : cell) : Prop :=
  match c with Str _ => False | _ => True end.

(** A run of decimal digits. *)
Definition all_digits (g : str) : Prop := Forall (fun c => isdigit c = true) g.

Definition integral (c : cell) : Prop := exists z, c = Num (inject_Z z).

(** Every entry of [r] whose label is in [S] has a cell with [P]. *)
Definition entry_ok (S : str -> Prop) (P : cell -> Prop) (r : row) : Prop :=
  Forall (fun kv => S (fst kv) -> P (snd kv)) r.

(** The columns of [done] hold no text. *)
Definition coerced (done : list str) (df : DataFrame) : Prop :=
  Forall (entry_ok (fun k => In k done) is_number_or_missing) (rows df).

(** A row as the loaders leave it: a location and a city, an integer
    year, and no text in a numeric column. *)
Definition canonical_row (r : row) : Prop :=
  notna (get r final_location) = true
  /\ notna (get r city) = true
  /\ integral (get r year)
  /\ forall c, In c NUMERIC_COLUMNS -> is_number_or_missing (get r c).

(** [l] is strictly increasing in code-point order. *)
Definition strictly_increasing (l : list str) : Prop :=
  StronglySorted (fun a b => Text.leb a b = true /\ a <> b) l.

Definition strictly_increasing_Z (l : list Z) : Prop :=
  StronglySorted Z.lt l.

End Shape.

(* ================================================================== *)
(** * Facts about text *)
(* ================================================================== *)

Unset Implicit Arguments.

Module TextFacts.
Import Text.

Lemma eqb_eq (s t : str) : eqb s t = true <-> s = t.
Proof.
  revert t; induction s as [|a s IH]; intros [|b t]; simpl; split; intro H;
    try reflexivity; try discriminate.
  - apply andb_true_iff in H as [Hab Hst].
    apply N.eqb_eq in Hab. apply IH in Hst. congruence.
  - injection H as -> ->. rewrite N.eqb_refl. simpl. now apply IH.
Qed.

Lemma eqb_refl (s : str) : eqb s s = true.
Proof. now apply eqb_eq. Qed.

Lemma eqb_neq (s t : str) : eqb s t = false <-> s <> t.
Proof.
  split.
  - intros H E. apply eqb_eq in E. congruence.
  - intro H. destruct (eqb s t) eqn:E; [apply eqb_eq in E; contradiction | reflexivity].
Qed.

Lemma eqb_sym (s t : str) : eqb s t = eqb t s.
Proof.
  destruct (eqb s t) eqn:E.
  - apply eqb_eq in E. subst. symmetry. apply eqb_refl.
  - symmetry. apply eqb_neq. apply eqb_neq in E. congruence.
Qed.

(** The code-point order is a total order. *)
Lemma leb_refl (s : str) : leb s s = true.
Proof.
  induction s as [|a s IH]; simpl; [reflexivity|].
  rewrite N.eqb_refl, IH. now rewrite orb_true_r.
Qed.

Lemma leb_total (s t : str) : leb s t = false -> leb t s = true.
Proof.
  revert t; induction s as [|a s IH]; intros [|b t]; simpl; intro H;
    try reflexivity; try discriminate.
  apply orb_false_iff in H as [Hlt H].
  apply N.ltb_ge in Hlt.
  destruct (N.ltb_spec b a) as [Hba|Hba]; [reflexivity|].
  assert (a = b) by lia. subst b.
  rewrite N.eqb_refl in *. simpl in *. now apply IH.
Qed.

Lemma leb_trans (s t u : str) :
  leb s t = true -> leb t u = true -> leb s u = true.
Proof.
  revert t u; induction s as [|a s IH]; intros [|b t] [|c u]; simpl;
    intros H1 H2; try reflexivity; try discriminate.
  apply orb_true_iff in H1. apply orb_true_iff in H2. apply orb_true_iff.
  destruct H1 as [H1|H1], H2 as [H2|H2].
  - left. apply N.ltb_lt in H1, H2. apply N.ltb_lt. lia.
  - apply andb_true_iff in H2 as [E _]. apply N.eqb_eq in E. subst. now left.
  - apply andb_true_iff in H1 as [E _]. apply N.eqb_eq in E. subst. now left.
  - apply andb_true_iff in H1 as [E1 L1]. apply andb_true_iff in H2 as [E2 L2].
    apply N.eqb_eq in E1, E2. subst. right. rewrite N.eqb_refl. simpl.
    eapply IH; eassumption.
Qed.

Lemma leb_antisym (s t : str) :
  leb s t = true -> leb t s = true -> s = t.
Proof.
  revert t; induction s as [|a s IH]; intros [|b t]; simpl;
    intros H1 H2; try reflexivity; try discriminate.
  apply orb_true_iff in H1. apply orb_true_iff in H2.
  destruct H1 as [H1|H1], H2 as [H2|H2].
  - apply N.ltb_lt in H1, H2. lia.
  - apply N.ltb_lt in H1. apply andb_true_iff in H2 as [E _].
    apply N.eqb_eq in E. lia.
  - apply N.ltb_lt in H2. apply andb_true_iff in H1 as [E _].
    apply N.eqb_eq in E. lia.
  - apply andb_true_iff in H1 as [E1 L1]. apply andb_true_iff in H2 as [_ L2].
    apply N.eqb_eq in E1. subst. f_equal. now apply IH.
Qed.

(** ** [strip] *)

Lemma dropwhile_idem (p : char -> bool) (s : str) :
  dropwhile p (dropwhile p s) = dropwhile p s.
Proof.
  induction s as [|c s IH]; simpl; [reflexivity|].
  destruct (p c) eqn:E; [exact IH|]. simpl. now rewrite E.
Qed.

Lemma dropwhile_head (p : char -> bool) (s : str) (c : char) (t : str) :
  dropwhile p s = c :: t -> p c = false.
Proof.
  induction s as [|a s IH]; simpl; [discriminate|].
  destruct (p a) eqn:E; [exact IH|]. intro H. injection H as -> _. exact E.
Qed.

Lemma dropwhile_app_last (p : char -> bool) (a : str) (c : char) :
  p c = false -> dropwhile p (a ++ [c]) = dropwhile p a ++ [c].
Proof.
  intro Hc. induction a as [|x a IH]; simpl.
  - now rewrite Hc.
  - destruct (p x); [exact IH | reflexivity].
Qed.

Lemma rstrip_cons (c : char) (t : str) :
  isspace c = false -> rstrip (c :: t) = c :: rstrip t.
Proof.
  intro Hc. unfold rstrip. simpl.
  rewrite dropwhile_app_last by exact Hc.
  now rewrite rev_app_distr.
Qed.

Lemma rstrip_idem (s : str) : rstrip (rstrip s) = rstrip s.
Proof.
  unfold rstrip. rewrite rev_involutive. now rewrite dropwhile_idem.
Qed.

Lemma strip_idem (s : str) : strip (strip s) = strip s.
Proof.
  unfold strip, lstrip.
  destruct (dropwhile isspace s) as [|c t] eqn:E.
  - reflexivity.
  - pose proof (dropwhile_head _ _ _ _ E) as Hc.
    rewrite (rstrip_cons c t Hc). simpl. rewrite Hc.
    rewrite <- (rstrip_cons c t Hc). apply rstrip_idem.
Qed.

Lemma dropwhile_Forall (P : char -> Prop) (p : char -> bool) (s : str) :
  Forall P s -> Forall P (dropwhile p s).
Proof.
  induction 1 as [|c s Hc Hs IH]; simpl; [constructor|].
  destruct (p c); [exact IH | now constructor].
Qed.

Lemma strip_Forall (P : char -> Prop) (s : str) :
  Forall P s -> Forall P (strip s).
Proof.
  intro H. unfold strip, rstrip, lstrip.
  apply Forall_rev, dropwhile_Forall, Forall_rev, dropwhile_Forall, H.
Qed.

(** ** [replace] of one code point by nothing *)

Lemma replace_char_filter (c : char) (s : str) :
  replace [c] [] s = filter (fun x => negb (x =? c)%N) s.
Proof.
  unfold replace. induction s as [|x s IH]; simpl; [reflexivity|].
  rewrite (N.eqb_sym c x).
  destruct (x =? c)%N; simpl.
  - destruct s; exact IH.
  - now rewrite IH.
Qed.

Lemma filter_id (A : Type) (f : A -> bool) (l : list A) :
  Forall (fun x => f x = true) l -> filter f l = l.
Proof.
  induction 1 as [|x l Hx Hl IH]; simpl; [reflexivity|].
  now rewrite Hx, IH.
Qed.

Lemma filter_Forall (A : Type) (f : A -> bool) (l : list A) :
  Forall (fun x => f x = true) (filter f l).
Proof.
  induction l as [|x l IH]; simpl; [constructor|].
  destruct (f x) eqn:E; [now constructor | exact IH].
Qed.

Lemma filter_keeps_Forall (A : Type) (P : A -> Prop) (f : A -> bool) (l : list A) :
  Forall P l -> Forall P (filter f l).
Proof.
  induction 1 as [|x l Hx Hl IH]; simpl; [constructor|].
  destruct (f x); [now constructor | exact IH].
Qed.

(** ** [split] on one code point *)

Lemma split_char_nonempty (sep : char) (s : str) : split_char sep s <> [].
Proof.
  destruct s as [|c s]; simpl; [discriminate|].
  destruct (c =? sep)%N; [discriminate|].
  destruct (split_char sep s); discriminate.
Qed.

Lemma split_char_one (sep : char) (s b : str) :
  split_char sep s = [b] -> s = b.
Proof.
  revert b; induction s as [|c s IH]; simpl; intros b H.
  - now injection H.
  - destruct (c =? sep)%N.
    + injection H as _ H. now apply split_char_nonempty in H.
    + destruct (split_char sep s) as [|h r] eqn:E.
      * now apply split_char_nonempty in E.
      * injection H as <- ->. f_equal. now apply IH.
Qed.

(** Two parts come from one separator, and the text is the two parts
    around it. *)
Lemma split_char_two (sep : char) (s a b : str) :
  split_char sep s = [a; b] -> s = a ++ sep :: b.
Proof.
  revert a; induction s as [|c s IH]; simpl; intros a H; [discriminate|].
  destruct (N.eqb_spec c sep) as [->|Hne].
  - injection H as <- H. simpl. f_equal. now apply split_char_one in H.
  - destruct (split_char sep s) as [|h r] eqn:E; [discriminate|].
    injection H as <- ->. simpl. f_equal. now apply IH.
Qed.

End TextFacts.

(* ================================================================== *)
(** * Facts about the stable sort *)
(* ================================================================== *)

Module SortFacts.
Import Frame.

Section Sorting.
Variable A : Type.
Variable le : A -> A -> bool.
Hypothesis le_total : forall x y, le x y = false -> le y x = true.
Hypothesis le_trans :
  forall x y z, le x y = true -> le y z = true -> le x z = true.

Lemma le_refl (x : A) : le x x = true.
Proof.
  destruct (le x x) eqn:E; [reflexivity|].
  pose proof (le_total x x E). congruence.
Qed.

Lemma insert_perm (x : A) (l : list A) : Permutation (insert le x l) (x :: l).
Proof.
  induction l as [|h t IH]; simpl; [reflexivity|].
  destruct (le x h); [reflexivity|].
  rewrite IH. apply perm_swap.
Qed.

Lemma sort_perm (l : list A) : Permutation (sort le l) l.
Proof.
  induction l as [|x t IH]; simpl; [reflexivity|].
  rewrite insert_perm. now constructor.
Qed.

Lemma insert_ordered (x : A) (l : list A) :
  ordered le l -> ordered le (insert le x l).
Proof.
  induction 1 as [|h t Ht IH Hh]; simpl.
  - repeat constructor.
  - destruct (le x h) eqn:E.
    + constructor; [now constructor|].
      constructor; [exact E|].
      eapply Forall_impl; [|exact Hh].
      intros y Hy. eapply le_trans; eassumption.
    + constructor; [exact IH|].
      apply (Permutation_Forall (Permutation_sym (insert_perm x t))).
      constructor; [now apply le_total | exact Hh].
Qed.

Lemma sort_ordered (l : list A) : ordered le (sort le l).
Proof.
  induction l as [|x t IH]; simpl; [constructor | now apply insert_ordered].
Qed.

(** Insertion passes only over elements strictly below the new one, so
    it leaves every class of tied elements in its order. *)
Lemma insert_stable (k x : A) (l : list A) :
  filter (tied le k) (insert le x l) = filter (tied le k) (x :: l).
Proof.
  induction l as [|h t IH]; simpl; [reflexivity|].
  destruct (le x h) eqn:E; [reflexivity|].
  simpl in *. rewrite IH.
  destruct (tied le k x) eqn:Kx, (tied le k h) eqn:Kh; try reflexivity.
  unfold tied in Kx, Kh.
  apply andb_true_iff in Kx as [_ Hxk]. apply andb_true_iff in Kh as [Hkh _].
  rewrite (le_trans _ _ _ Hxk Hkh) in E. discriminate.
Qed.

Lemma sort_stable (k : A) (l : list A) :
  filter (tied le k) (sort le l) = filter (tied le k) l.
Proof.
  induction l as [|x t IH]; simpl; [reflexivity|].
  rewrite insert_stable. simpl. now rewrite IH.
Qed.

Lemma ordered_head_least (x : A) (l : list A) :
  ordered le (x :: l) -> forall y, In y (x :: l) -> le x y = true.
Proof.
  intros H y [<-|Hy]; [apply le_refl|].
  inversion H as [|? ? _ Hall]; subst.
  now apply (proj1 (Forall_forall _ _) Hall).
Qed.

Lemma ordered_last_greatest (l : list A) (d : A) :
  ordered le l -> forall y, In y l -> le y (last l d) = true.
Proof.
  induction 1 as [|h t Ht IH Hh]; intros y Hy; [destruct Hy|].
  destruct t as [|h' t'].
  - destruct Hy as [<-|[]]. apply le_refl.
  - change (last (h :: h' :: t') d) with (last (h' :: t') d).
    destruct Hy as [<-|Hy]; [|now apply IH].
    apply (proj1 (Forall_forall _ _) Hh).
    clear. revert h'. induction t' as [|a t' IH']; intro h'; [now left|].
    right. apply IH'.
Qed.

Lemma last_In (l : list A) (d : A) : l <> [] -> In (last l d) l.
Proof.
  induction l as [|h t IH]; intro H; [contradiction|].
  destruct t as [|h' t']; [now left|].
  right. apply IH. discriminate.
Qed.
End Sorting.

Lemma Zleb_total (x y : Z) : (x <=? y) = false -> (y <=? x) = true.
Proof. intro H. apply Z.leb_gt in H. apply Z.leb_le. lia. Qed.

Lemma Zleb_trans (x y z : Z) :
  (x <=? y) = true -> (y <=? z) = true -> (x <=? z) = true.
Proof. rewrite !Z.leb_le. lia. Qed.

(** The first and the last element of a sorted list of integers are its
    least and its greatest element. *)
Lemma sorted_first_least (l : list Z) :
  l <> [] ->
  In (hd 0 (sort Z.leb l)) l /\ forall y, In y l -> hd 0 (sort Z.leb l) <= y.
Proof.
  intro Hl.
  pose proof (sort_perm Z Z.leb l) as P.
  pose proof (sort_ordered Z Z.leb Zleb_total Zleb_trans l) as O.
  destruct (sort Z.leb l) as [|x s] eqn:E.
  - apply Permutation_nil in P. congruence.
  - simpl. split.
    + apply (Permutation_in _ P). now left.
    + intros y Hy. apply Z.leb_le.
      apply (ordered_head_least Z Z.leb Zleb_total x s O).
      apply (Permutation_in _ (Permutation_sym P) Hy).
Qed.

Lemma sorted_last_greatest (l : list Z) :
  l <> [] ->
  In (last (sort Z.leb l) 0) l /\ forall y, In y l -> y <= last (sort Z.leb l) 0.
Proof.
  intro Hl.
  pose proof (sort_perm Z Z.leb l) as P.
  pose proof (sort_ordered Z Z.leb Zleb_total Zleb_trans l) as O.
  split.
  - apply (Permutation_in _ P). apply last_In.
    intro E. rewrite E in P. apply Permutation_nil in P.
    congruence.
  - intros y Hy. apply Z.leb_le.
    apply (ordered_last_greatest Z Z.leb Zleb_total (sort Z.leb l) 0 O).
    apply (Permutation_in _ (Permutation_sym P) Hy).
Qed.

End SortFacts.

(* ================================================================== *)
(** * Facts about cells and the sort key *)
(* ================================================================== *)

Module FrameFacts.
Import Text Frame.

Lemma Qle_bool_total (x y : Q) : Qle_bool x y = false -> Qle_bool y x = true.
Proof.
  intro H. apply Qle_bool_iff.
  destruct (Qlt_le_dec y x) as [L|L]; [now apply Qlt_le_weak|].
  apply Qle_bool_iff in L. congruence.
Qed.

Lemma Qle_bool_trans (x y z : Q) :
  Qle_bool x y = true -> Qle_bool y z = true -> Qle_bool x z = true.
Proof. rewrite !Qle_bool_iff. apply Qle_trans. Qed.

Lemma cell_leb_total (a b : cell) : cell_leb a b = false -> cell_leb b a = true.
Proof.
  destruct a, b; simpl; intro H; try reflexivity; try discriminate.
  - now apply TextFacts.leb_total.
  - now apply Qle_bool_total.
Qed.

Lemma cell_leb_trans (a b c : cell) :
  cell_leb a b = true -> cell_leb b c = true -> cell_leb a c = true.
Proof.
  destruct a, b, c; simpl; intros H1 H2; try reflexivity; try discriminate.
  - eapply TextFacts.leb_trans; eassumption.
  - eapply Qle_bool_trans; eassumption.
Qed.

(** Cells tied by the order are equal cells. *)
Lemma cell_tied_eqb (a b : cell) :
  cell_leb a b && cell_leb b a = cell_eqb a b.
Proof.
  destruct a as [s|x|], b as [t|y|]; simpl; try reflexivity.
  - destruct (eqb s t) eqn:E.
    + apply TextFacts.eqb_eq in E. subst. now rewrite TextFacts.leb_refl.
    + destruct (leb s t) eqn:L1, (leb t s) eqn:L2; try reflexivity.
      apply TextFacts.eqb_neq in E. elim E. now apply TextFacts.leb_antisym.
  - destruct (Qeq_bool x y) eqn:E.
    + apply Qeq_bool_iff in E.
      assert (H1 : Qle_bool x y = true) by (apply Qle_bool_iff; rewrite E; apply Qle_refl).
      assert (H2 : Qle_bool y x = true) by (apply Qle_bool_iff; rewrite E; apply Qle_refl).
      now rewrite H1, H2.
    + destruct (Qle_bool x y) eqn:L1, (Qle_bool y x) eqn:L2; try reflexivity.
      apply Qle_bool_iff in L1, L2.
      assert (Qeq x y) by (now apply Qle_antisym).
      apply Qeq_bool_iff in H. congruence.
Qed.

End FrameFacts.

(* ================================================================== *)
(** * Facts about the year-range forms *)
(* ================================================================== *)

Module RangeFacts.
Import Text Frame Processor Spec.

(** Unfolds the character classes into arithmetic on code points. *)
Ltac classes :=
  unfold lower_char, isupper, islower, isdigit, isspace, hyphen, plus_sign,
    underscore in *;
  repeat match goal with
         | H : context [if ?b then _ else _] |- _ => destruct b eqn:?
         | |- context [if ?b then _ else _] => destruct b eqn:?
         end;
  repeat rewrite ?orb_true_iff, ?orb_false_iff, ?andb_true_iff, ?andb_false_iff,
    ?N.leb_le, ?N.leb_gt, ?N.eqb_eq, ?N.eqb_neq in *.

Lemma lower_char_letter (c k : char) :
  lower_char c = k -> (97 <= k <= 122)%N ->
  isspace c = false /\ isdigit c = false /\ c <> hyphen /\ c <> plus_sign.
Proof.
  intros H K.
  assert (R : (c = k \/ (65 <= c <= 90))%N).
  { unfold lower_char, isupper in H.
    destruct ((65 <=? c)%N && (c <=? 90)%N) eqn:E; [right|left; exact H].
    apply andb_true_iff in E. rewrite !N.leb_le in E. exact E. }
  clear H.
  repeat split.
  - destruct (isspace c) eqn:E; [exfalso|reflexivity]. classes. lia.
  - destruct (isdigit c) eqn:E; [exfalso|reflexivity]. classes. lia.
  - unfold hyphen. lia.
  - unfold plus_sign. lia.
Qed.

Lemma lower_char_space (c : char) : lower_char c = 32%N -> c = 32%N.
Proof. intro H. classes; lia. Qed.

(** The five code points of a prefix that lowers to ['last ']. *)
Lemma last_prefix (p : str) :
  lower p = lit "last " ->
  exists c1 c2 c3 c4, p = [c1; c2; c3; c4; 32%N] /\
    Forall (fun c => isspace c = false) [c1; c2; c3; c4] /\
    (isdigit c1 = false /\ c1 <> hyphen /\ c1 <> plus_sign).
Proof.
  intro H.
  destruct p as [|c1 [|c2 [|c3 [|c4 [|c5 [|]]]]]]; try discriminate H.
  cbv [lower map] in H. change (lit "last ") with [108; 97; 115; 116; 32]%N in H.
  injection H as H1 H2 H3 H4 H5.
  apply lower_char_space in H5. subst c5.
  destruct (lower_char_letter c1 _ H1 ltac:(lia)) as (S1 & D1 & Y1 & P1).
  destruct (lower_char_letter c2 _ H2 ltac:(lia)) as (S2 & _).
  destruct (lower_char_letter c3 _ H3 ltac:(lia)) as (S3 & _).
  destruct (lower_char_letter c4 _ H4 ltac:(lia)) as (S4 & _).
  exists c1, c2, c3, c4. repeat split; auto.
Qed.

Lemma lower_app (a b : str) : lower (a ++ b) = lower a ++ lower b.
Proof. apply map_app. Qed.

Lemma startswith_app (p s : str) : startswith p (p ++ s) = true.
Proof.
  induction p as [|c p IH]; simpl; [reflexivity|].
  now rewrite N.eqb_refl.
Qed.

Lemma startswith_split (p s : str) :
  startswith p s = true -> exists t, s = p ++ t.
Proof.
  revert s; induction p as [|c p IH]; intros s H; simpl in *.
  - now exists s.
  - destruct s as [|d s]; [discriminate|].
    apply andb_true_iff in H as [E H]. apply N.eqb_eq in E. subst d.
    destruct (IH s H) as [t ->]. now exists t.
Qed.

(** A text that starts with ['last '] (in any case) is such a prefix and a
    rest. *)
Lemma starts_last_split (yr : str) :
  startswith (lit "last ") (lower yr) = true <->
  exists p rest, yr = p ++ rest /\ lower p = lit "last ".
Proof.
  split.
  - intro H. apply startswith_split in H as [t H].
    exists (firstn 5 yr), (skipn 5 yr). split.
    + symmetry. apply firstn_skipn.
    + unfold lower in *. rewrite <- firstn_map, H. reflexivity.
  - intros (p & rest & -> & H). rewrite lower_app, H. apply startswith_app.
Qed.

(** The words of a text behind the prefix: ['last'] and the words of the
    rest. *)
Lemma split_ws_last (p rest : str) :
  lower p = lit "last " ->
  exists w, split_ws (p ++ rest) = w :: split_ws rest.
Proof.
  intro H. destruct (last_prefix p H) as (c1 & c2 & c3 & c4 & -> & F & _).
  inversion F as [|? ? S1 F1]; subst. inversion F1 as [|? ? S2 F2]; subst.
  inversion F2 as [|? ? S3 F3]; subst. inversion F3 as [|? ? S4 _]; subst.
  exists [c1; c2; c3; c4].
  unfold split_ws. simpl. rewrite S1, S2, S3, S4. reflexivity.
Qed.

(** The declared form and the parse of the source agree. *)
Lemma last_form_parse (yr : str) (n : Z) :
  last_form yr n <->
  startswith (lit "last ") (lower yr) = true /\ parse_last yr = Some n.
Proof.
  unfold last_form, parse_last, index. split.
  - intros (p & rest & tok & more & -> & Hp & Hs & Hn). split.
    + apply starts_last_split. now exists p, rest.
    + destruct (split_ws_last p rest Hp) as [w ->]. simpl. now rewrite Hs.
  - intros [Hs Hn]. apply starts_last_split in Hs as (p & rest & -> & Hp).
    destruct (split_ws_last p rest Hp) as [w E]. rewrite E in Hn. simpl in Hn.
    destruct (split_ws rest) as [|tok more] eqn:R; [discriminate|].
    simpl in Hn. now exists p, rest, tok, more.
Qed.

(** ** One hyphen *)

Lemma split_char_without (sep : char) (s : str) :
  ~ In sep s -> split_char sep s = [s].
Proof.
  induction s as [|c s IH]; intro H; simpl; [reflexivity|].
  destruct (N.eqb_spec c sep) as [->|Hne]; [elim H; now left|].
  rewrite IH; [reflexivity|]. intro Hin. apply H. now right.
Qed.

Lemma split_char_app (sep : char) (a b : str) :
  ~ In sep a -> split_char sep (a ++ sep :: b) = a :: split_char sep b.
Proof.
  induction a as [|c a IH]; intro H; simpl.
  - now rewrite N.eqb_refl.
  - destruct (N.eqb_spec c sep) as [->|Hne]; [elim H; now left|].
    rewrite IH; [reflexivity|]. intro Hin. apply H. now right.
Qed.

Lemma split_char_parts (sep : char) (s : str) :
  Forall (fun p => ~ In sep p) (split_char sep s).
Proof.
  induction s as [|c s IH]; simpl.
  - constructor; [intros []|constructor].
  - destruct (N.eqb_spec c sep) as [->|Hne].
    + constructor; [intros []|exact IH].
    + destruct (split_char sep s) as [|h r]; [repeat constructor; intros [E|[]]; congruence|].
      inversion IH as [|? ? Hh Hr]; subst.
      constructor; [|exact Hr].
      intros [E|Hin]; [congruence | contradiction].
Qed.

Lemma contains_char (c : char) (a b : str) : contains [c] (a ++ c :: b) = true.
Proof.
  induction a as [|x a IH]; simpl.
  - now rewrite N.eqb_refl.
  - rewrite IH. apply orb_true_r.
Qed.

(** A text that starts with a letter does not read as an integer. *)
Lemma py_int_letter (c : char) (t : str) :
  isspace c = false -> isdigit c = false -> c <> hyphen -> c <> plus_sign ->
  py_int (c :: t) = None.
Proof.
  intros S D Y P. unfold py_int, strip, lstrip. simpl. rewrite S.
  rewrite (TextFacts.rstrip_cons c t S).
  apply N.eqb_neq in Y, P. rewrite Y, P. simpl. rewrite D.
  now rewrite andb_false_r.
Qed.

Lemma py_int_nil : py_int [] = None.
Proof. reflexivity. Qed.

Lemma span_form_parse (yr : str) (a b : Z) :
  span_form yr a b <-> parse_span yr = Some (a, b).
Proof.
  unfold span_form, parse_span, unpack_two_ints. split.
  - intros (sa & sb & -> & Ha & Hb & Pa & Pb).
    rewrite (split_char_app hyphen sa sb Ha), (split_char_without hyphen sb Hb).
    now rewrite Pa, Pb.
  - intro H.
    pose proof (split_char_parts hyphen yr) as F.
    destruct (split_char hyphen yr) as [|sa [|sb [|]]] eqn:E; try discriminate.
    destruct (py_int sa) as [x|] eqn:Pa; [|discriminate].
    destruct (py_int sb) as [y|] eqn:Pb; [|discriminate].
    injection H as -> ->.
    inversion F as [|? ? Ha F1]; subst. inversion F1 as [|? ? Hb _]; subst.
    exists sa, sb. repeat split; auto.
    now apply TextFacts.split_char_two.
Qed.

Lemma span_form_hyphen (yr : str) (a b : Z) :
  span_form yr a b -> contains (lit "-") yr = true.
Proof.
  intros (sa & sb & -> & _). apply contains_char.
Qed.

(** The two forms exclude each other: what starts with ['last '] has no
    integer before its first hyphen. *)
Lemma span_form_not_last (yr : str) (a b : Z) :
  span_form yr a b -> startswith (lit "last ") (lower yr) = false.
Proof.
  intros (sa & sb & E & Ha & _ & Pa & _).
  destruct (startswith (lit "last ") (lower yr)) eqn:S; [exfalso|reflexivity].
  apply starts_last_split in S as (p & rest & E' & Hp).
  destruct (last_prefix p Hp) as (c1 & c2 & c3 & c4 & -> & F & D1 & Y1 & P1).
  inversion F as [|? ? S1 _]; subst.
  destruct sa as [|x sa]; [now rewrite py_int_nil in Pa|].
  simpl in E'. injection E' as -> _.
  rewrite (py_int_letter c1 sa S1 D1 Y1 P1) in Pa. discriminate.
Qed.

End RangeFacts.

(* ================================================================== *)
(** * Facts about [filter_data] *)
(* ================================================================== *)

Module FilterFacts.
Import Text Frame Processor Spec.

Lemma filter_all (A : Type) (l : list A) : filter (fun _ => true) l = l.
Proof. induction l as [|x l IH]; simpl; [reflexivity | now rewrite IH]. Qed.

Lemma filter_filter (A : Type) (p q : A -> bool) (l : list A) :
  filter q (filter p l) = filter (fun x => p x && q x) l.
Proof.
  induction l as [|x l IH]; simpl; [reflexivity|].
  destruct (p x); simpl; [destruct (q x)|]; now rewrite IH.
Qed.

Lemma select_all (df : DataFrame) : select (fun _ => true) df = df.
Proof. destruct df. unfold select. simpl. now rewrite filter_all. Qed.

Lemma select_select (p q : row -> bool) (df : DataFrame) :
  select q (select p df) = select (fun r => p r && q r) df.
Proof. unfold select. simpl. now rewrite filter_filter. Qed.

Lemma select_ext (p q : row -> bool) (df : DataFrame) :
  (forall r, p r = q r) -> select p df = select q df.
Proof. intro H. unfold select. f_equal. now apply filter_ext. Qed.

(** The year-range step is one selection. *)
Lemma apply_year_range_select (cy : Z) (yr : str) (df : DataFrame) :
  apply_year_range cy yr df = select (keeps_year cy yr) df.
Proof.
  unfold apply_year_range, keeps_year, parse_last, parse_span.
  destruct (startswith (lit "last ") (lower yr)).
  - destruct (index (split_ws yr) 1) as [tok|]; [|now rewrite select_all].
    destruct (py_int tok); [reflexivity | now rewrite select_all].
  - destruct (contains (lit "-") yr); [|now rewrite select_all].
    destruct (unpack_two_ints (split_char hyphen yr)) as [[a b]|];
      [reflexivity | now rewrite select_all].
Qed.

(** The three steps of [filter_data] are one selection by [keeps]. *)
Lemma filter_data_select (cy : Z) (df : DataFrame) (f : Filters) :
  filter_data cy df f = select (keeps cy df f) df.
Proof.
  unfold filter_data, keeps.
  destruct (truthy (locality f)) as [loc|];
    destruct (truthy (year_range f)) as [yr|];
    rewrite ?apply_year_range_select;
    destruct (truthy (property_type f)) as [pt|];
    cbn [select columns];
    try destruct (mem (lower pt ++ lit "_sold") (columns df));
    rewrite ?select_select;
    try (apply select_ext; intro r;
         rewrite ?andb_true_r, ?andb_true_l, ?andb_assoc; reflexivity);
    try (rewrite <- (select_all df) at 1; apply select_ext; reflexivity).
Qed.

(** The inference steps read and write the locality, the year range and
    the property type only; the year bounds pass through. *)
Lemma resolve_filters_bounds (df : DataFrame) (q : str) (l y p : option str) :
  exists l' y' p', forall a b,
    resolve_filters df q (Build_Filters l y p a b) = Build_Filters l' y' p' a b.
Proof.
  unfold resolve_filters.
  assert (L : exists l', forall a b,
               infer_locality df q (Build_Filters l y p a b) = Build_Filters l' y p a b).
  { unfold infer_locality. cbn [locality].
    destruct (negb (is_set l) && nonempty q); [|now exists l].
    destruct (find _ _) as [loc|]; [now exists (Some loc) | now exists l]. }
  destruct L as [l' L].
  assert (Y : exists y', forall a b,
               infer_year_range q (Build_Filters l' y p a b) = Build_Filters l' y' p a b).
  { unfold infer_year_range. cbn [year_range].
    destruct (negb (is_set y) && nonempty q); [|now exists y].
    destruct (search_year_span q) as [[g1 g2]|];
      [now exists (Some (g1 ++ lit "-" ++ g2))|].
    destruct (search_last_years (lower q)) as [g|];
      [now exists (Some (lit "last " ++ g)) | now exists y]. }
  destruct Y as [y' Y].
  assert (P : exists p', forall a b,
               infer_property_type q (Build_Filters l' y' p a b) = Build_Filters l' y' p' a b).
  { unfold infer_property_type. cbn [property_type].
    destruct (negb (is_set p) && nonempty q); [|now exists p].
    destruct (find _ _) as [prop|]; [now exists (Some prop) | now exists p]. }
  destruct P as [p' P].
  exists l', y', p'. intros a b. now rewrite L, Y, P.
Qed.

(** ** The tests and the properties they decide *)

Lemma location_is_spec (loc : str) (r : row) :
  location_is loc r = true <-> in_locality loc r.
Proof.
  unfold location_is, in_locality.
  destruct (get r final_location) as [s|x|]; split.
  - intro H. apply TextFacts.eqb_eq in H. now exists s.
  - intros (s' & E & H). injection E as <-. now apply TextFacts.eqb_eq.
  - discriminate.
  - intros (s' & E & _). discriminate.
  - discriminate.
  - intros (s' & E & _). discriminate.
Qed.

Lemma year_ge_spec (n : Z) (r : row) :
  year_ge n r = true <-> year_at_least n r.
Proof.
  unfold year_ge, year_at_least.
  destruct (get r year) as [s|x|]; split.
  - discriminate.
  - intros (y & E & _). discriminate.
  - intro H. apply Qle_bool_iff in H. now exists x.
  - intros (y & E & H). injection E as <-. now apply Qle_bool_iff.
  - discriminate.
  - intros (y & E & _). discriminate.
Qed.

Lemma year_between_spec (a b : Z) (r : row) :
  year_ge a r && year_le b r = true <-> year_between a b r.
Proof.
  unfold year_ge, year_le, year_between.
  destruct (get r year) as [s|x|]; split.
  - discriminate.
  - intros (y & E & _). discriminate.
  - intro H. apply andb_true_iff in H as [H1 H2].
    apply Qle_bool_iff in H1, H2. now exists x.
  - intros (y & E & H1 & H2). injection E as <-.
    apply andb_true_iff. now rewrite !Qle_bool_iff.
  - discriminate.
  - intros (y & E & _). discriminate.
Qed.

Lemma positive_spec (col : str) (r : row) :
  positive col r = true <-> sold_some col r.
Proof.
  unfold positive, sold_some.
  destruct (get r col) as [s|x|]; split.
  - discriminate.
  - intros (y & E & _). discriminate.
  - intro H. exists x. split; [reflexivity|].
    apply Qnot_le_lt. intro L. apply Qle_bool_iff in L.
    rewrite L in H. discriminate.
  - intros (y & E & H). injection E as <-.
    destruct (Qle_bool x 0) eqn:L; [|reflexivity].
    apply Qle_bool_iff in L. now apply Qlt_not_le in H.
  - discriminate.
  - intros (y & E & _). discriminate.
Qed.

Lemma keeps_year_spec (cy : Z) (yr : str) (r : row) :
  keeps_year cy yr r = true <->
  (forall n, last_form yr n -> year_at_least (cy - n) r)
  /\ (forall a b, span_form yr a b -> year_between a b r).
Proof.
  unfold keeps_year.
  destruct (startswith (lit "last ") (lower yr)) eqn:S.
  - assert (NoSpan : forall a b, ~ span_form yr a b).
    { intros a b H. apply RangeFacts.span_form_not_last in H. congruence. }
    destruct (parse_last yr) as [n|] eqn:P.
    + rewrite year_ge_spec. split.
      * intro H. split.
        -- intros n' F. apply RangeFacts.last_form_parse in F as [_ F].
           congruence.
        -- intros a b F. now apply NoSpan in F.
      * intros [H _]. apply H. apply RangeFacts.last_form_parse. now split.
    + split; [|reflexivity]. intros _. split.
      * intros n F. apply RangeFacts.last_form_parse in F as [_ F]. congruence.
      * intros a b F. now apply NoSpan in F.
  - assert (NoLast : forall n, ~ last_form yr n).
    { intros n H. apply RangeFacts.last_form_parse in H as [H _]. congruence. }
    destruct (contains (lit "-") yr) eqn:C.
    + destruct (parse_span yr) as [[a b]|] eqn:P.
      * rewrite year_between_spec. split.
        -- intro H. split.
           ++ intros n F. now apply NoLast in F.
           ++ intros a' b' F. apply RangeFacts.span_form_parse in F. congruence.
        -- intros [_ H]. apply H. now apply RangeFacts.span_form_parse.
      * split; [|reflexivity]. intros _. split.
        -- intros n F. now apply NoLast in F.
        -- intros a b F. apply RangeFacts.span_form_parse in F. congruence.
    + split; [|reflexivity]. intros _. split.
      * intros n F. now apply NoLast in F.
      * intros a b F. apply RangeFacts.span_form_hyphen in F. congruence.
Qed.

Lemma keeps_spec (cy : Z) (df : DataFrame) (f : Filters) (r : row) :
  keeps cy df f r = true <-> passes cy df f r.
Proof.
  unfold keeps, passes. rewrite !andb_true_iff.
  assert (L : (match truthy (locality f) with
               | Some loc => location_is loc r | None => true end) = true
              <-> forall loc, truthy (locality f) = Some loc -> in_locality loc r).
  { destruct (truthy (locality f)) as [loc|].
    - rewrite location_is_spec. split; [intros H l E; injection E as <-; exact H | auto].
    - split; [intros _ l E; discriminate | reflexivity]. }
  assert (Y : (match truthy (year_range f) with
               | Some yr => keeps_year cy yr r | None => true end) = true
              <-> forall yr, truthy (year_range f) = Some yr ->
                    (forall n, last_form yr n -> year_at_least (cy - n) r)
                    /\ (forall a b, span_form yr a b -> year_between a b r)).
  { destruct (truthy (year_range f)) as [yr|].
    - rewrite keeps_year_spec. split; [intros H y E; injection E as <-; exact H | auto].
    - split; [intros _ y E; discriminate | reflexivity]. }
  assert (P : (match truthy (property_type f) with
               | Some pt => if mem (lower pt ++ lit "_sold") (columns df)
                            then positive (lower pt ++ lit "_sold") r else true
               | None => true end) = true
              <-> forall pt, truthy (property_type f) = Some pt ->
                    mem (lower pt ++ lit "_sold") (columns df) = true ->
                    sold_some (lower pt ++ lit "_sold") r).
  { destruct (truthy (property_type f)) as [pt|].
    - destruct (mem (lower pt ++ lit "_sold") (columns df)) eqn:M.
      + rewrite positive_spec. split.
        * intros H p E _. injection E as <-. exact H.
        * intro H. now apply H.
      + split; [|reflexivity].
        intros _ p E M'. injection E as <-. congruence.
    - split; [intros _ p E; discriminate | reflexivity]. }
  rewrite L, Y, P. tauto.
Qed.

End FilterFacts.

(* ================================================================== *)
(** * Facts about the loaders *)
(* ================================================================== *)

Module LoadFacts.
Import Text Frame Processor Spec.

Lemma key_leb_total (r1 r2 : row) : key_leb r1 r2 = false -> key_leb r2 r1 = true.
Proof.
  unfold key_leb.
  destruct (cell_leb (get r1 final_location) (get r2 final_location)) eqn:A.
  - destruct (cell_leb (get r2 final_location) (get r1 final_location)) eqn:B;
      [|discriminate].
    apply FrameFacts.cell_leb_total.
  - intros _. now rewrite (FrameFacts.cell_leb_total _ _ A).
Qed.

Lemma key_leb_trans (r1 r2 r3 : row) :
  key_leb r1 r2 = true -> key_leb r2 r3 = true -> key_leb r1 r3 = true.
Proof.
  unfold key_leb.
  set (a := get r1 final_location). set (b := get r2 final_location).
  set (c := get r3 final_location).
  destruct (cell_leb a b) eqn:AB; [|discriminate].
  destruct (cell_leb b c) eqn:BC; [|intros _; discriminate].
  rewrite (FrameFacts.cell_leb_trans a b c AB BC).
  destruct (cell_leb c a) eqn:CA; [|reflexivity].
  rewrite (FrameFacts.cell_leb_trans b c a BC CA).
  rewrite (FrameFacts.cell_leb_trans c a b CA AB).
  apply FrameFacts.cell_leb_trans.
Qed.

(** Rows tied by the order are rows with the same key. *)
Lemma tied_same_key (r1 r2 : row) : tied key_leb r1 r2 = same_key r1 r2.
Proof.
  unfold tied, key_leb, same_key.
  rewrite <- !FrameFacts.cell_tied_eqb.
  destruct (cell_leb (get r1 final_location) (get r2 final_location)),
    (cell_leb (get r2 final_location) (get r1 final_location)); reflexivity.
Qed.

(** [sort_values] is a stable sort by the key. *)
Lemma sort_values_stable (l : list row) : stable_sort_of l (sort key_leb l).
Proof.
  split; [|split].
  - apply SortFacts.sort_ordered; [exact key_leb_total | exact key_leb_trans].
  - apply SortFacts.sort_perm.
  - intro k.
    rewrite <- (filter_ext _ _ (tied_same_key k) (sort key_leb l)).
    rewrite <- (filter_ext _ _ (tied_same_key k) l).
    apply SortFacts.sort_stable. exact key_leb_trans.
Qed.

(** ** The row-wise steps keep the rows in their order *)

Lemma all_rows_map (f : row -> option row) (l l' : list row) :
  all_rows f l = Some l' ->
  l' = map (fun r => match f r with Some r' => r' | None => r end) l.
Proof.
  revert l'; induction l as [|r l IH]; simpl; intros l' H.
  - now injection H as <-.
  - destruct (f r) as [r'|]; [|discriminate].
    destruct (all_rows f l) as [t|]; [|discriminate].
    injection H as <-. f_equal. now apply IH.
Qed.

Lemma coerce_numeric_rows (f : cell -> cell) (df : DataFrame) :
  exists T, rows (coerce_numeric f df) = map T (rows df).
Proof.
  unfold coerce_numeric. generalize NUMERIC_COLUMNS as cols.
  intro cols. revert df. induction cols as [|col cols IH]; intro df; simpl.
  - exists (fun r => r). now rewrite map_id.
  - destruct (mem col (columns df)).
    + destruct (IH (assign col f df)) as [T E]. rewrite E.
      unfold assign at 1. cbn [rows]. rewrite map_map. now eexists.
    + apply IH.
Qed.

(** After the shared tail, the rows are the stable sort of the rows that
    were kept, taken row by row from the input. *)
Lemma finish_stable (df out : DataFrame) :
  finish df = inr out ->
  exists T, stable_sort_of (filter surviving (map T (rows df))) (rows out).
Proof.
  unfold finish, year_astype_int. intro H.
  destruct (all_rows year_row_astype_int (rows df)) as [rs|] eqn:E; [|discriminate].
  injection H as <-.
  apply all_rows_map in E. subst rs.
  unfold sort_values, dropna, select. cbn [rows].
  eexists. apply sort_values_stable.
Qed.

Lemma normalize_stable (raw out : DataFrame) :
  normalize raw = inr out ->
  exists T, stable_sort_of (filter surviving (map T (rows raw))) (rows out).
Proof.
  unfold normalize. intro H.
  remember (relabel rename_label (relabel (fun col => lower (strip col)) raw)) as df.
  remember (filter (fun col => negb (mem col (columns df))) DB_FIELDS) as missing.
  destruct missing; [|discriminate H].
  apply finish_stable in H. destruct H as (T & S).
  destruct (coerce_numeric_rows
              (fun v => to_numeric (_clean_numeric_value v)) df) as [T' E].
  rewrite E in S. subst df. unfold relabel in S. cbn [rows] in S.
  rewrite !map_map in S.
  eexists. exact S.
Qed.

Lemma database_stable (w : World) (out : DataFrame) :
  _load_from_database w = inr (Some out) ->
  exists rs T,
    database w = Some rs /\ stable_sort_of (filter surviving (map T rs)) (rows out).
Proof.
  unfold _load_from_database. intro H.
  destruct (database w) as [rs0|]; [|discriminate H].
  destruct rs0 as [|r rs]; [discriminate H|].
  remember {| columns := DB_FIELDS; rows := r :: rs |} as df.
  remember (finish (coerce_numeric to_numeric df)) as res.
  destruct res as [e|d]; [discriminate H|].
  injection H as ->.
  symmetry in Heqres. apply finish_stable in Heqres. destruct Heqres as (T & S).
  destruct (coerce_numeric_rows to_numeric df) as [T' E].
  rewrite E in S. subst df. cbn [rows] in S. rewrite map_map in S.
  exists (r :: rs), (fun x => T (T' x)). split; [reflexivity | exact S].
Qed.

(** Whatever the source, a loaded frame is ordered by the key. *)
Lemma load_data_ordered (prefer : bool) (w : World) (out : DataFrame) :
  load_data prefer w = inr out -> ordered key_leb (rows out).
Proof.
  unfold load_data. intro H.
  assert (N : forall raw, normalize raw = inr out -> ordered key_leb (rows out)).
  { intros raw E. apply normalize_stable in E. destruct E as (T & S).
    exact (proj1 S). }
  assert (X : _load_from_external_source w = inr out -> ordered key_leb (rows out)).
  { unfold _load_from_external_source.
    destruct (excel_file w) as [| |raw]; [|discriminate|apply N].
    destruct (data_url w) as [| |raw]; [discriminate|discriminate|apply N]. }
  destruct prefer; [|exact (X H)].
  remember (_load_from_database w) as res.
  destruct res as [e|[d|]]; [discriminate H| |exact (X H)].
  injection H as ->. symmetry in Heqres.
  apply database_stable in Heqres. destruct Heqres as (rs & T & _ & S).
  exact (proj1 S).
Qed.

End LoadFacts.

(* ================================================================== *)
(** * The loaders and their row-wise reading *)
(* ================================================================== *)

Module RowFacts.
Import Text Frame Processor Spec Rowwise.

Lemma all_rows_Some (f : row -> option row) (l l' : list row) :
  all_rows f l = Some l' -> map Some l' = map f l.
Proof.
  revert l'; induction l as [|r l IH]; simpl; intros l' H.
  - now injection H as <-.
  - destruct (f r) as [r'|]; [|discriminate].
    destruct (all_rows f l) as [t|]; [|discriminate].
    injection H as <-. simpl. f_equal. now apply IH.
Qed.

Lemma coerce_fold_rows (f : cell -> cell) (cols : list str) (df : DataFrame) :
  let out := fold_left (fun d col => if mem col (columns d) then assign col f d else d)
                       cols df in
  columns out = columns df
  /\ rows out
     = map (fun r => fold_left (fun r' col => if mem col (columns df)
                                              then assign_row col f r' else r')
                               cols r)
           (rows df).
Proof.
  revert df; induction cols as [|col cols IH]; intro df; cbn [fold_left].
  - split; [reflexivity|]. now rewrite map_id.
  - cbv zeta.
    set (d := if mem col (columns df) then assign col f df else df).
    assert (C : columns d = columns df) by (unfold d; now destruct (mem col (columns df))).
    assert (R : rows d = map (fun r => if mem col (columns df)
                                       then assign_row col f r else r) (rows df)).
    { unfold d. destruct (mem col (columns df)); [reflexivity|]. now rewrite map_id. }
    destruct (IH d) as [C' R']. split; [now rewrite C'|].
    rewrite R', R, C, map_map. apply map_ext. intro r. reflexivity.
Qed.

Lemma coerce_numeric_rowwise (f : cell -> cell) (df : DataFrame) :
  columns (coerce_numeric f df) = columns df
  /\ rows (coerce_numeric f df) = map (coerce_row f (columns df)) (rows df).
Proof. exact (coerce_fold_rows f NUMERIC_COLUMNS df). Qed.

(** The shared tail: the cast of the year row by row, then the stable
    sort of the rows that have a location and a city. *)
Lemma finish_rowwise (df out : DataFrame) :
  finish df = inr out ->
  exists pre,
    map Some pre = map year_row_astype_int (rows df)
    /\ stable_sort_of (filter surviving pre) (rows out).
Proof.
  unfold finish, year_astype_int. intro H.
  destruct (all_rows year_row_astype_int (rows df)) as [rs|] eqn:E; [|discriminate].
  injection H as <-.
  exists rs. split; [now apply all_rows_Some|].
  unfold sort_values, dropna, select. cbn [rows].
  apply LoadFacts.sort_values_stable.
Qed.

Lemma normalize_rowwise (raw out : DataFrame) :
  normalize raw = inr out ->
  exists pre,
    map Some pre = map (sheet_row (columns raw)) (rows raw)
    /\ stable_sort_of (filter surviving pre) (rows out).
Proof.
  unfold normalize. intro H.
  remember (relabel rename_label (relabel (fun col => lower (strip col)) raw)) as df.
  remember (filter (fun col => negb (mem col (columns df))) DB_FIELDS) as missing.
  destruct missing; [|discriminate H].
  apply finish_rowwise in H. destruct H as (pre & P & S).
  exists pre. split; [|exact S].
  rewrite P.
  destruct (coerce_numeric_rowwise (fun v => to_numeric (_clean_numeric_value v)) df)
    as [_ R].
  rewrite R. subst df. unfold relabel. cbn [rows columns].
  rewrite !map_map. apply map_ext. intro r.
  unfold sheet_row, relabel_row. rewrite !map_map. reflexivity.
Qed.

Lemma database_rowwise (w : World) (out : DataFrame) :
  _load_from_database w = inr (Some out) ->
  exists rs pre,
    database w = Some rs
    /\ map Some pre = map table_row rs
    /\ stable_sort_of (filter surviving pre) (rows out).
Proof.
  unfold _load_from_database. intro H.
  destruct (database w) as [rs0|]; [|discriminate H].
  destruct rs0 as [|r rs]; [discriminate H|].
  remember {| columns := DB_FIELDS; rows := r :: rs |} as df.
  remember (finish (coerce_numeric to_numeric df)) as res.
  destruct res as [e|d]; [discriminate H|].
  injection H as ->.
  symmetry in Heqres. apply finish_rowwise in Heqres. destruct Heqres as (pre & P & S).
  exists (r :: rs), pre. split; [reflexivity|]. split; [|exact S].
  rewrite P. destruct (coerce_numeric_rowwise to_numeric df) as [_ R].
  rewrite R. subst df. cbn [rows columns]. rewrite map_map. reflexivity.
Qed.

End RowFacts.

(* ================================================================== *)
(** * Facts about the serializer *)
(* ================================================================== *)

Module SerializerFacts.
Import Text Serializer.

Lemma extract_locality_years (d : QueryData) :
  year_from (extract_locality d) = year_from d
  /\ year_to (extract_locality d) = year_to d.
Proof.
  unfold extract_locality.
  destruct (negb (text_set (locality d))); [|now split].
  destruct (find _ _); now split.
Qed.

Lemma four_digits_spec (s g r : str) :
  four_digits s = Some (g, r) ->
  exists a b c d,
    g = [a; b; c; d] /\ s = g ++ r
    /\ isdigit a = true /\ isdigit b = true /\ isdigit c = true /\ isdigit d = true.
Proof.
  unfold four_digits.
  destruct s as [|a [|b [|c [|d t]]]]; try discriminate.
  destruct (isdigit a) eqn:A, (isdigit b) eqn:B, (isdigit c) eqn:C,
    (isdigit d) eqn:D; try discriminate.
  intro H. injection H as <- <-. now exists a, b, c, d.
Qed.


Lemma digit_plain (c : char) :
  isdigit c = true ->
  isspace c = false /\ (c =? hyphen)%N = false /\ (c =? plus_sign)%N = false.
Proof.
  intro H. repeat split.
  - destruct (isspace c) eqn:E; [exfalso|reflexivity]. RangeFacts.classes. lia.
  - apply N.eqb_neq. RangeFacts.classes. lia.
  - apply N.eqb_neq. RangeFacts.classes. lia.
Qed.


End SerializerFacts.

(* ================================================================== *)
(** * The matches of [\d{4}] and the numbers of the text *)
(* ================================================================== *)

Module GroupFacts.
Import Text Spec.












End GroupFacts.

(* ================================================================== *)
(** * Facts about the aggregation *)
(* ================================================================== *)

Module AggregateFacts.
Import Text Frame Processor.

(** The fold of [idxmax] ends on an entry that is in the series, is not
    below any entry, and is above every entry before it. *)
Lemma idxmax_fold (l : list (str * Q)) (start : str * Q) :
  let best := fold_left
                (fun best cur => if Qle_bool (snd cur) (snd best) then best else cur)
                l start in
  In best (start :: l)
  /\ (snd start <= snd best)%Q
  /\ forall cv, In cv l -> (snd cv <= snd best)%Q.
Proof.
  revert start; induction l as [|cv l IH]; intro start; cbn [fold_left].
  - repeat split; [now left | apply Qle_refl | intros ? []].
  - destruct (Qle_bool (snd cv) (snd start)) eqn:E.
    + destruct (IH start) as (I & S & A).
      split; [|split].
      * destruct I as [I|I]; [now left | right; now right].
      * exact S.
      * intros x [<-|Hx]; [|now apply A].
        apply Qle_bool_iff in E. eapply Qle_trans; eassumption.
    + destruct (IH cv) as (I & S & A).
      assert (L : (snd start <= snd cv)%Q).
      { apply Qlt_le_weak, Qnot_le_lt. intro L. apply Qle_bool_iff in L. congruence. }
      split; [|split].
      * right. exact I.
      * eapply Qle_trans; eassumption.
      * intros x [<-|Hx]; [exact S | now apply A].
Qed.

End AggregateFacts.

(* ================================================================== *)
(** * The filter engine *)
(* ================================================================== *)

Import Text Frame Processor Spec Samples.

(** C1.  [filter_data] returns, in their order, exactly the rows of the
    dataset that pass every filter that is present: the locality compared
    without case on [final_location], a range ['YYYY-YYYY'] keeping
    [start <= year <= end], a range ['last N'] keeping
    [year >= current_year - N], and a property type keeping the rows with a
    positive ['{property_type}_sold'] when that column exists.  The columns
    are unchanged.  With [{locality: 'wakad', year_range: '2020-2022'}] the
    result is the Wakad rows of 2020 to 2022, on any dataset and on the
    sample of Wakad and Baner over 2018-2023. *)
Theorem filter_data_conjunctive :
  (forall cy df f,
      columns (filter_data cy df f) = columns df /\
      exists keep,
        rows (filter_data cy df f) = filter keep (rows df) /\
        forall r, keep r = true <-> passes cy df f r)
  /\ (forall cy df r,
        In r (rows (filter_data cy df wakad_2020_2022)) <->
        In r (rows df) /\ in_locality (lit "wakad") r /\ year_between 2020 2022 r)
  /\ rows (filter_data 2026 wakad_baner wakad_2020_2022)
     = map wakad [2020; 2021; 2022].
Proof.
  split; [|split].
  - intros cy df f. rewrite FilterFacts.filter_data_select. split; [reflexivity|].
    exists (keeps cy df f). split; [reflexivity|].
    intro r. apply FilterFacts.keeps_spec.
  - intros cy df r. rewrite FilterFacts.filter_data_select.
    unfold select. cbn [rows]. rewrite filter_In.
    assert (K : keeps cy df wakad_2020_2022 r
                = location_is (lit "wakad") r && (year_ge 2020 r && year_le 2022 r) && true)
      by reflexivity.
    rewrite K, andb_true_r, andb_true_iff.
    rewrite FilterFacts.location_is_spec, FilterFacts.year_between_spec.
    reflexivity.
  - vm_compute. reflexivity.
Qed.

Lemma filter_data_conjunctive_witness :
  In (wakad 2021) (rows (filter_data 2026 wakad_baner wakad_2020_2022)).
Proof.
  apply (proj1 (proj2 filter_data_conjunctive) 2026 wakad_baner (wakad 2021)).
  split; [|split].
  - simpl. tauto.
  - exists (lit "Wakad"). split; reflexivity.
  - exists (inject_Z 2021). split; [reflexivity|].
    split; unfold Qle; simpl; lia.
Defined.

(** C5.  [year_from] and [year_to] play no part in the filtering: two
    filter sets that agree on the locality, the year range and the property
    type select the same rows, in [filter_data] and through the whole of
    [process_query]. *)
Theorem year_bounds_do_not_filter :
  forall cy df (f1 f2 : Filters),
    locality f1 = locality f2 ->
    year_range f1 = year_range f2 ->
    property_type f1 = property_type f2 ->
    filter_data cy df f1 = filter_data cy df f2
    /\ forall q,
         summary (process_query cy df q f1) = summary (process_query cy df q f2)
         /\ chart_data (process_query cy df q f1) = chart_data (process_query cy df q f2)
         /\ table_data (process_query cy df q f1) = table_data (process_query cy df q f2).
Proof.
  intros cy df [l1 y1 p1 a1 b1] [l2 y2 p2 a2 b2]. cbn [locality year_range property_type].
  intros <- <- <-. split; [reflexivity|].
  intro q.
  assert (E : filter_data cy df (resolve_filters df q (Build_Filters l1 y1 p1 a1 b1))
              = filter_data cy df (resolve_filters df q (Build_Filters l1 y1 p1 a2 b2))).
  { destruct (FilterFacts.resolve_filters_bounds df q l1 y1 p1) as (l' & y' & p' & R).
    now rewrite !R. }
  unfold process_query. cbn [summary chart_data table_data].
  rewrite E. repeat split.
Qed.

Lemma year_bounds_do_not_filter_witness :
  filter_data 2026 wakad_baner wakad_2020_2022
  = filter_data 2026 wakad_baner
      {| locality := Some (lit "wakad"); year_range := Some (lit "2020-2022");
         property_type := None; year_from := Some 2000; year_to := Some 2001 |}.
Proof.
  apply (year_bounds_do_not_filter 2026 wakad_baner wakad_2020_2022
           {| locality := Some (lit "wakad"); year_range := Some (lit "2020-2022");
              property_type := None; year_from := Some 2000; year_to := Some 2001 |});
    reflexivity.
Defined.

(** C8.  A year range that is of neither form, ['last N'] or
    ['YYYY-YYYY'], filters nothing: the year-range step returns its input
    and [filter_data] answers as it does without the range.  The
    [ValueError] and [IndexError] of the parse are the [None] the step
    matches on, so no error leaves it.  ['last abc'] and
    ['2020-2021-2022'] are such ranges. *)
Theorem malformed_year_range_is_noop :
  (forall cy df f yr,
      truthy (year_range f) = Some yr ->
      (forall n, ~ last_form yr n) ->
      (forall a b, ~ span_form yr a b) ->
      apply_year_range cy yr df = df
      /\ filter_data cy df f = filter_data cy df (without_year_range f))
  /\ (forall cy df, apply_year_range cy (lit "last abc") df = df)
  /\ (forall cy df, apply_year_range cy (lit "2020-2021-2022") df = df).
Proof.
  split; [|split; intros cy df; reflexivity].
  intros cy df f yr Hyr NoLast NoSpan.
  assert (Id : forall d, apply_year_range cy yr d = d).
  { intro d. rewrite FilterFacts.apply_year_range_select.
    rewrite <- (FilterFacts.select_all d) at 2.
    apply FilterFacts.select_ext. intro r.
    apply FilterFacts.keeps_year_spec. split.
    - intros n F. now apply NoLast in F.
    - intros a b F. now apply NoSpan in F. }
  split; [apply Id|].
  unfold filter_data, without_year_range. cbn [locality year_range property_type].
  rewrite Hyr. cbn [truthy]. now rewrite Id.
Qed.

Lemma malformed_year_range_is_noop_witness :
  filter_data 2026 wakad_baner
    {| locality := None; year_range := Some (lit "last abc");
       property_type := None; year_from := None; year_to := None |}
  = filter_data 2026 wakad_baner no_filters.
Proof.
  apply (proj1 malformed_year_range_is_noop 2026 wakad_baner
           {| locality := None; year_range := Some (lit "last abc");
              property_type := None; year_from := None; year_to := None |}
           (lit "last abc")).
  - reflexivity.
  - intros n F. apply RangeFacts.last_form_parse in F as [_ F].
    vm_compute in F. discriminate.
  - intros a b F. apply RangeFacts.span_form_parse in F.
    vm_compute in F. discriminate.
Defined.

(* ================================================================== *)
(** * Normalization *)
(* ================================================================== *)

(** C7.  A loaded dataset is sorted by [(final_location, year)] and the
    sort is stable.  From a sheet ([normalize]) or from the table
    ([_load_from_database]), every input row gives one prepared row, in
    the order of the input ([Rowwise.sheet_row], [Rowwise.table_row]); the
    rows of the result are the prepared rows that have a location and a
    city, sorted: ordered by the key, a permutation of them, and with the
    rows of any one key in the order they had in the input.  Whatever
    source [load_data] reads, its result is ordered. *)
Theorem normalized_dataset_sorted_stable :
  (forall raw df,
      normalize raw = inr df ->
      exists pre,
        map Some pre = map (Rowwise.sheet_row (columns raw)) (rows raw)
        /\ stable_sort_of (filter surviving pre) (rows df))
  /\ (forall w df,
        _load_from_database w = inr (Some df) ->
        exists rs pre,
          database w = Some rs
          /\ map Some pre = map Rowwise.table_row rs
          /\ stable_sort_of (filter surviving pre) (rows df))
  /\ (forall prefer w df,
        load_data prefer w = inr df -> ordered key_leb (rows df)).
Proof.
  split; [|split].
  - exact RowFacts.normalize_rowwise.
  - exact RowFacts.database_rowwise.
  - exact LoadFacts.load_data_ordered.
Qed.

(** On the sample sheet the row without a location is dropped, and the two
    Baner rows of 2020 stay as they were read, Pune before Mumbai. *)
Lemma normalized_dataset_sorted_stable_witness :
  exists df pre,
    normalize raw_sheet = inr df
    /\ map Some pre = map (Rowwise.sheet_row (columns raw_sheet)) (rows raw_sheet)
    /\ stable_sort_of (filter surviving pre) (rows df)
    /\ map (fun r => (get r final_location, get r year, get r city,
                      get r (lit "total_sales")))
           (filter surviving pre)
       = [ (Str (lit "Wakad"), num 2021, Str (lit "Pune"), num 1200);
           (Str (lit "Baner"), num 2020, Str (lit "Pune"), num 3400);
           (Str (lit "Wakad"), num 2019, Str (lit "Pune"), NaN);
           (Str (lit "Baner"), num 2020, Str (lit "Mumbai"), num 5600) ]
    /\ map (fun r => (get r final_location, get r year, get r city,
                      get r (lit "total_sales")))
           (rows df)
       = [ (Str (lit "Baner"), num 2020, Str (lit "Pune"), num 3400);
           (Str (lit "Baner"), num 2020, Str (lit "Mumbai"), num 5600);
           (Str (lit "Wakad"), num 2019, Str (lit "Pune"), NaN);
           (Str (lit "Wakad"), num 2021, Str (lit "Pune"), num 1200) ].
Proof.
  destruct (normalize raw_sheet) as [e|df] eqn:E; [vm_compute in E; discriminate E|].
  destruct (proj1 normalized_dataset_sorted_stable raw_sheet df E) as (pre & P & S).
  exists df, pre. split; [reflexivity|]. split; [exact P|]. split; [exact S|].
  split.
  - assert (Q : pre = map (fun o => match o with Some r => r | None => [] end)
                          (map (Rowwise.sheet_row (columns raw_sheet)) (rows raw_sheet))).
    { rewrite <- P, map_map. now rewrite map_id. }
    rewrite Q. vm_compute. reflexivity.
  - vm_compute in E. injection E as <-. vm_compute. reflexivity.
Defined.

(** C9.  Cleaning a numeric cell twice is cleaning it once; ['₹1,200']
    cleans and coerces to the number 1200; ['NA'] in any case and the empty
    text clean to a missing value. *)
Theorem clean_numeric_value_idempotent :
  (forall v, _clean_numeric_value (_clean_numeric_value v) = _clean_numeric_value v)
  /\ to_numeric (_clean_numeric_value (Str (lit "₹1,200"))) = Num (inject_Z 1200)
  /\ (forall s, lower s = lit "na" -> _clean_numeric_value (Str s) = NaN)
  /\ _clean_numeric_value (Str []) = NaN.
Proof.
  split; [|split; [|split]].
  - intros [s|x|]; try reflexivity.
    assert (U : forall t,
               _clean_numeric_value (Str t)
               = if Text.eqb (strip (replace (lit "₹") [] (replace (lit ",") [] t))) []
                    || Text.eqb (lower (strip (replace (lit "₹") [] (replace (lit ",") [] t))))
                                (lit "na")
                 then NaN
                 else Str (strip (replace (lit "₹") [] (replace (lit ",") [] t))))
      by reflexivity.
    rewrite (U s).
    remember (strip (replace (lit "₹") [] (replace (lit ",") [] s))) as v' eqn:V.
    destruct (Text.eqb v' [] || Text.eqb (lower v') (lit "na")) eqn:E; [reflexivity|].
    rewrite (U v').
    assert (F : strip (replace (lit "₹") [] (replace (lit ",") [] v')) = v').
    { assert (C : Forall (fun x => negb (x =? 44)%N = true) v'
                  /\ Forall (fun x => negb (x =? 8377)%N = true) v').
      { rewrite V. change (lit "₹") with [8377%N]. change (lit ",") with [44%N].
        rewrite !TextFacts.replace_char_filter. split.
        - apply TextFacts.strip_Forall, TextFacts.filter_keeps_Forall,
            TextFacts.filter_Forall.
        - apply TextFacts.strip_Forall, TextFacts.filter_Forall. }
      destruct C as [C1 C2].
      change (lit "₹") with [8377%N]. change (lit ",") with [44%N].
      rewrite !TextFacts.replace_char_filter.
      assert (F1 : filter (fun x => negb (x =? 44)%N) v' = v')
        by (apply TextFacts.filter_id; exact C1).
      assert (F2 : filter (fun x => negb (x =? 8377)%N) v' = v')
        by (apply TextFacts.filter_id; exact C2).
      rewrite F1, F2.
      rewrite V. apply TextFacts.strip_idem. }
    rewrite F. now rewrite E.
  - vm_compute. reflexivity.
  - intros s H.
    destruct s as [|a [|b [|]]]; try discriminate H.
    cbv [lower map] in H. change (lit "na") with [110; 97]%N in H.
    injection H as Ha Hb.
    assert (A : a = 110%N \/ a = 78%N) by (RangeFacts.classes; lia).
    assert (B : b = 97%N \/ b = 65%N) by (RangeFacts.classes; lia).
    destruct A as [-> | ->], B as [-> | ->]; vm_compute; reflexivity.
  - reflexivity.
Qed.

Lemma clean_numeric_value_idempotent_witness :
  _clean_numeric_value (Str (lit "Na")) = NaN.
Proof.
  apply (proj1 (proj2 (proj2 clean_numeric_value_idempotent)) (lit "Na")).
  reflexivity.
Defined.

(* ================================================================== *)
(** * Aggregation *)
(* ================================================================== *)

(** C3.  On an empty frame the summary is the fixed sentence, the chart
    is [{labels: [], datasets: []}] and the table is empty. *)
Theorem empty_frame_answers :
  forall df q,
    empty df = true ->
    generate_summary df q = lit "No data available for the specified filters."
    /\ prepare_chart_data df = {| labels := []; datasets := [] |}
    /\ prepare_table_data df = [].
Proof.
  intros df q H.
  unfold generate_summary, prepare_chart_data, prepare_table_data.
  rewrite H. repeat split.
Qed.

Lemma empty_frame_answers_witness :
  generate_summary (select (fun _ => false) wakad_baner) None
  = lit "No data available for the specified filters.".
Proof.
  apply (empty_frame_answers (select (fun _ => false) wakad_baner) None).
  reflexivity.
Defined.

(* ================================================================== *)
(** * Request validation and query interpretation *)
(* ================================================================== *)

(** C4.  A request that supplies both bounds with [year_from] after
    [year_to] is rejected by the validation, and [get] and [post] answer it
    with status 400 before anything is filtered: the trace of the request
    is empty.  When the declared fields pass, the error is the ordering
    error of [validate].  When a bound is missing that error is never
    raised.  A request that passes the validation does reach
    [filter_data]. *)
Theorem reversed_year_bounds_rejected :
  (forall v r a b,
      Serializer.req_year_from r = Some a ->
      Serializer.req_year_to r = Some b ->
      b < a ->
      exists e,
        Serializer.run_validation r = inl e
        /\ Views.post v r = (Views.BadRequest (lit "Invalid request data") e, [])
        /\ Views.get v r = (Views.BadRequest (lit "Invalid query parameters") e, [])
        /\ (Serializer.field_errors r = [] ->
            e = Serializer.NonFieldError Serializer.year_order_message))
  /\ (forall r,
        Serializer.req_year_from r = None \/ Serializer.req_year_to r = None ->
        Serializer.run_validation r
        <> inl (Serializer.NonFieldError Serializer.year_order_message))
  /\ (forall v r d,
        Serializer.run_validation r = inr d ->
        exists response f rest, Views.post v r = (response, Views.FilterCall f :: rest)).
Proof.
  split; [|split].
  - intros v r a b Ha Hb Hlt.
    assert (R : exists e, Serializer.run_validation r = inl e
                /\ (Serializer.field_errors r = [] ->
                    e = Serializer.NonFieldError Serializer.year_order_message)).
    { unfold Serializer.run_validation.
      destruct (Serializer.field_errors r) as [|x errs] eqn:FE.
      - exists (Serializer.NonFieldError Serializer.year_order_message).
        split; [|reflexivity].
        unfold Serializer.field_errors in FE.
        apply app_eq_nil in FE as [_ FE]. apply app_eq_nil in FE as [Fa FE].
        apply app_eq_nil in FE as [Fb _].
        rewrite Ha in Fa. rewrite Hb in Fb.
        destruct (Serializer.year_in_bounds (Some a)) eqn:Ba; [|discriminate Fa].
        destruct (Serializer.year_in_bounds (Some b)) eqn:Bb; [|discriminate Fb].
        cbn [Serializer.year_in_bounds] in Ba, Bb.
        apply andb_true_iff in Ba as [Ba _]. apply andb_true_iff in Bb as [Bb _].
        apply Z.leb_le in Ba, Bb.
        unfold Serializer.validate, Serializer.internal_value.
        cbn [Serializer.year_from Serializer.year_to]. rewrite Ha, Hb.
        cbn [Serializer.int_set].
        assert (Za : (a =? 0) = false) by (apply Z.eqb_neq; lia).
        assert (Zb : (b =? 0) = false) by (apply Z.eqb_neq; lia).
        assert (L : (b <? a) = true) by (apply Z.ltb_lt; lia).
        rewrite Za, Zb, L. reflexivity.
      - exists (Serializer.FieldErrors (x :: errs)). split; [reflexivity|discriminate]. }
    destruct R as (e & RV & FE). exists e.
    unfold Views.post, Views.get, Views.handle. rewrite RV. repeat split. exact FE.
  - intros r H E.
    unfold Serializer.run_validation in E.
    destruct (Serializer.field_errors r); [|discriminate E].
    unfold Serializer.validate, Serializer.internal_value in E.
    cbn [Serializer.year_from Serializer.year_to] in E.
    destruct H as [H|H]; rewrite H in E.
    + discriminate E.
    + destruct (Serializer.req_year_from r); discriminate E.
  - intros v r d RV.
    unfold Views.post, Views.handle. rewrite RV. unfold Views.process_analysis.
    destruct (Views._maybe_generate_ai_summary _ _ _) as [reply ai_events].
    destruct reply as [[|c t]|]; do 3 eexists; reflexivity.
Qed.

Lemma reversed_year_bounds_rejected_witness :
  exists e, Views.post sample_view reversed_request
            = (Views.BadRequest (lit "Invalid request data") e, []).
Proof.
  destruct (proj1 reversed_year_bounds_rejected sample_view reversed_request 2023 2020)
    as (e & _ & P & _); [reflexivity | reflexivity | lia |].
  exists e. exact P.
Defined.




(** C2 (what the code does).  A request that supplies [year_from = 2020]
    and no [year_to], with the text ['compare 2015 and 2018'], passes the
    validation with [year_from = 2015] and [year_to = 2018]: the supplied
    bound is replaced by the least year of the text. *)
Theorem supplied_year_from_is_replaced :
  Serializer.req_year_from half_range_request = Some 2020
  /\ exists d,
       Serializer.run_validation half_range_request = inr d
       /\ Serializer.year_from d = Some 2015
       /\ Serializer.year_to d = Some 2018.
Proof.
  split; [reflexivity|].
  eexists. split; [vm_compute; reflexivity|]. split; reflexivity.
Qed.

(** C10 (what the code does).  On one Wakad row with 5 flats and 3
    offices sold, 8 units in all, the flats are the largest of the
    per-category sold counts, and the summary names ['Total'] as the most
    active segment and counts 16 units sold: [total_sold] ends in
    ['_sold'] and is taken for a category. *)
Theorem most_active_segment_is_total :
  top_property one_wakad_row = lit "Total"
  /\ forallb (fun col => Qle_bool (sum (column one_wakad_row col))
                                  (sum (column one_wakad_row (lit "flat_sold"))))
             category_columns = true
  /\ mem (lit "flat_sold") category_columns = true
  /\ generate_summary one_wakad_row None
     = lit "Between 2021 and 2021, Wakad recorded ₹800,000 in total sales with 16 units sold. Average prices per sq.ft (Flat/Office/Shop) were ₹6,500 / ₹9,000 / ₹12,000. Most active segment: Total.".
Proof.
  repeat split; vm_compute; reflexivity.
Qed.

(* ================================================================== *)
(** * Overrides and inference *)
(* ================================================================== *)

Module InferenceFacts.
Import Text Frame Processor.

Lemma infer_locality_fields (df : DataFrame) (q : str) (f : Filters) :
  year_range (infer_locality df q f) = year_range f
  /\ property_type (infer_locality df q f) = property_type f
  /\ year_from (infer_locality df q f) = year_from f
  /\ year_to (infer_locality df q f) = year_to f
  /\ (is_set (locality f) = true -> locality (infer_locality df q f) = locality f).
Proof.
  unfold infer_locality.
  destruct (is_set (locality f)) eqn:S; cbn [negb andb].
  - repeat split.
  - destruct (nonempty q); [|repeat split; discriminate].
    destruct (find _ _); repeat split; discriminate.
Qed.

Lemma infer_year_range_fields (q : str) (f : Filters) :
  locality (infer_year_range q f) = locality f
  /\ property_type (infer_year_range q f) = property_type f
  /\ year_from (infer_year_range q f) = year_from f
  /\ year_to (infer_year_range q f) = year_to f
  /\ (is_set (year_range f) = true -> year_range (infer_year_range q f) = year_range f).
Proof.
  unfold infer_year_range.
  destruct (is_set (year_range f)) eqn:S; cbn [negb andb].
  - repeat split.
  - destruct (nonempty q); [|repeat split; discriminate].
    destruct (search_year_span q) as [[g1 g2]|]; [repeat split; discriminate|].
    destruct (search_last_years (lower q)); repeat split; discriminate.
Qed.

Lemma infer_property_type_fields (q : str) (f : Filters) :
  locality (infer_property_type q f) = locality f
  /\ year_range (infer_property_type q f) = year_range f
  /\ year_from (infer_property_type q f) = year_from f
  /\ year_to (infer_property_type q f) = year_to f
  /\ (is_set (property_type f) = true ->
      property_type (infer_property_type q f) = property_type f).
Proof.
  unfold infer_property_type.
  destruct (is_set (property_type f)) eqn:S; cbn [negb andb].
  - repeat split.
  - destruct (nonempty q); [|repeat split; discriminate].
    destruct (find _ _); repeat split; discriminate.
Qed.

End InferenceFacts.

(** X1.  The inference of [process_query] never replaces a filter the
    caller has set: a locality, a year range or a property type that is
    present and not empty is the one of the resolved filter set, and the
    year bounds pass through untouched. *)
Theorem inference_keeps_overrides :
  forall cy df q f,
    let resolved := filters (process_query cy df q f) in
    (is_set (locality f) = true -> locality resolved = locality f)
    /\ (is_set (year_range f) = true -> year_range resolved = year_range f)
    /\ (is_set (property_type f) = true -> property_type resolved = property_type f)
    /\ year_from resolved = year_from f
    /\ year_to resolved = year_to f.
Proof.
  intros cy df q f. unfold process_query. cbn [filters]. unfold resolve_filters.
  destruct (InferenceFacts.infer_locality_fields df q f) as (L1 & L2 & L3 & L4 & L5).
  destruct (InferenceFacts.infer_year_range_fields q (infer_locality df q f))
    as (Y1 & Y2 & Y3 & Y4 & Y5).
  destruct (InferenceFacts.infer_property_type_fields q
              (infer_year_range q (infer_locality df q f)))
    as (P1 & P2 & P3 & P4 & P5).
  cbv zeta. repeat split.
  - intro H. rewrite P1, Y1. now apply L5.
  - intro H. rewrite P2. rewrite <- L1 in H |- *. now apply Y5.
  - intro H. rewrite <- L2, <- Y2 in H |- *. now apply P5.
  - now rewrite P3, Y3, L3.
  - now rewrite P4, Y4, L4.
Qed.

Lemma inference_keeps_overrides_witness :
  locality (filters (process_query 2026 wakad_baner
                       (lit "flats in baner 2019-2021") wakad_2020_2022))
  = Some (lit "wakad").
Proof.
  apply (proj1 (inference_keeps_overrides 2026 wakad_baner
                  (lit "flats in baner 2019-2021") wakad_2020_2022)).
  reflexivity.
Defined.

Module ValidateFacts.
Import Text Serializer.

Lemma extract_locality_fields (d : QueryData) :
  query (extract_locality d) = query d
  /\ property_type (extract_locality d) = property_type d
  /\ (text_set (locality d) = true -> locality (extract_locality d) = locality d).
Proof.
  unfold extract_locality.
  destruct (text_set (locality d)); cbn [negb].
  - repeat split.
  - destruct (find _ _); repeat split; discriminate.
Qed.

Lemma extract_years_fields (d : QueryData) :
  query (extract_years d) = query d
  /\ locality (extract_years d) = locality d
  /\ property_type (extract_years d) = property_type d.
Proof.
  unfold extract_years.
  destruct (negb (int_set (year_from d)) || negb (int_set (year_to d)));
    [|repeat split].
  destruct (2 <=? List.length (findall_year (query d)))%nat; repeat split.
Qed.

(** The years [extract_years] writes are in order. *)
Lemma extract_years_ordered (d : QueryData) (a b : Z) :
  (forall x y, year_from d = Some x -> year_to d = Some y ->
               int_set (Some x) = true -> int_set (Some y) = true -> x <= y) ->
  (forall x, year_from d = Some x -> x <> 0) ->
  (forall y, year_to d = Some y -> y <> 0) ->
  year_from (extract_years d) = Some a ->
  year_to (extract_years d) = Some b ->
  a <= b.
Proof.
  intros Hord Hx Hy. unfold extract_years.
  destruct (negb (int_set (year_from d)) || negb (int_set (year_to d))) eqn:G.
  - destruct (2 <=? List.length (findall_year (query d)))%nat eqn:N.
    + cbn [with_years year_from year_to]. intros Ha Hb.
      injection Ha as <-. injection Hb as <-.
      set (found := map int_of_digits (findall_year (query d))).
      assert (NE : found <> []).
      { unfold found. apply Nat.leb_le in N.
        destruct (findall_year (query d)); [simpl in N; lia | discriminate]. }
      destruct (SortFacts.sorted_first_least found NE) as [I1 L1].
      destruct (SortFacts.sorted_last_greatest found NE) as [I2 L2].
      unfold first, final. now apply L2.
    + intros Ha Hb. exfalso.
      apply orb_true_iff in G. unfold int_set in G. rewrite Ha, Hb in G.
      specialize (Hx a Ha). specialize (Hy b Hb).
      apply Z.eqb_neq in Hx, Hy. rewrite Hx, Hy in G. cbn in G.
      destruct G; discriminate.
  - intros Ha Hb. apply orb_false_iff in G as [G1 G2].
    apply negb_false_iff in G1, G2. rewrite Ha in G1. rewrite Hb in G2.
    now apply Hord.
Qed.

End ValidateFacts.

(** X2.  [validate] keeps the query and the property type, keeps a
    locality that is supplied and not empty, and keeps the two year bounds
    when both are supplied. *)
Theorem validate_keeps_supplied_fields :
  forall d d',
    Serializer.validate d = inr d' ->
    Serializer.query d' = Serializer.query d
    /\ Serializer.property_type d' = Serializer.property_type d
    /\ (Serializer.text_set (Serializer.locality d) = true ->
        Serializer.locality d' = Serializer.locality d)
    /\ (Serializer.int_set (Serializer.year_from d) = true ->
        Serializer.int_set (Serializer.year_to d) = true ->
        Serializer.year_from d' = Serializer.year_from d
        /\ Serializer.year_to d' = Serializer.year_to d).
Proof.
  intros d d' V. unfold Serializer.validate in V.
  destruct (match Serializer.year_from d with
            | Some a => match Serializer.year_to d with
                        | Some b => _ | None => false end
            | None => false end); [discriminate V|].
  injection V as <-.
  destruct (ValidateFacts.extract_locality_fields (Serializer.extract_years d))
    as (Q & P & L).
  destruct (ValidateFacts.extract_years_fields d) as (Q' & L' & P').
  destruct (SerializerFacts.extract_locality_years (Serializer.extract_years d))
    as (Y1 & Y2).
  repeat split.
  - now rewrite Q, Q'.
  - now rewrite P, P'.
  - intro H. rewrite <- L' in H |- *. now apply L.
  - rewrite Y1. unfold Serializer.extract_years. now rewrite H, H0.
  - rewrite Y2. unfold Serializer.extract_years. now rewrite H, H0.
Qed.

Lemma validate_keeps_supplied_fields_witness :
  exists d',
    Serializer.validate
      {| Serializer.query := lit "compare 2015 and 2018 in baner";
         Serializer.locality := Some (lit "Kothrud");
         Serializer.year_from := Some 2020; Serializer.year_to := Some 2021;
         Serializer.property_type := None |} = inr d'
    /\ Serializer.locality d' = Some (lit "Kothrud")
    /\ Serializer.year_from d' = Some 2020 /\ Serializer.year_to d' = Some 2021.
Proof.
  set (d := {| Serializer.query := lit "compare 2015 and 2018 in baner";
               Serializer.locality := Some (lit "Kothrud");
               Serializer.year_from := Some 2020; Serializer.year_to := Some 2021;
               Serializer.property_type := None |}).
  destruct (Serializer.validate d) as [e|d'] eqn:V; [vm_compute in V; discriminate V|].
  exists d'. split; [reflexivity|].
  destruct (validate_keeps_supplied_fields d d' V) as (_ & _ & L & Y).
  split; [apply L; reflexivity | apply Y; reflexivity].
Defined.

(** X3.  Validated data never has [year_from] after [year_to]: supplied
    bounds are checked, inferred bounds are a least and a greatest year. *)
Theorem validated_bounds_are_ordered :
  forall r d a b,
    Serializer.run_validation r = inr d ->
    Serializer.year_from d = Some a ->
    Serializer.year_to d = Some b ->
    a <= b.
Proof.
  intros r d a b RV Ha Hb.
  unfold Serializer.run_validation in RV.
  destruct (Serializer.field_errors r) eqn:FE; [|discriminate RV].
  unfold Serializer.field_errors in FE.
  apply app_eq_nil in FE as [_ FE]. apply app_eq_nil in FE as [Fa FE].
  apply app_eq_nil in FE as [Fb _].
  destruct (Serializer.year_in_bounds (Serializer.req_year_from r)) eqn:Ba;
    [|discriminate Fa].
  destruct (Serializer.year_in_bounds (Serializer.req_year_to r)) eqn:Bb;
    [|discriminate Fb].
  clear Fa Fb.
  set (d0 := Serializer.internal_value r) in *.
  assert (Nx : forall x, Serializer.year_from d0 = Some x -> x <> 0).
  { intros x E. unfold d0, Serializer.internal_value in E.
    cbn [Serializer.year_from] in E. rewrite E in Ba. cbn in Ba.
    apply andb_true_iff in Ba as [Ba _]. apply Z.leb_le in Ba. lia. }
  assert (Ny : forall y, Serializer.year_to d0 = Some y -> y <> 0).
  { intros y E. unfold d0, Serializer.internal_value in E.
    cbn [Serializer.year_to] in E. rewrite E in Bb. cbn in Bb.
    apply andb_true_iff in Bb as [Bb _]. apply Z.leb_le in Bb. lia. }
  unfold Serializer.validate in RV.
  match type of RV with
  | (if ?c then _ else _) = _ => destruct c eqn:G; [discriminate RV|]
  end.
  injection RV as <-.
  destruct (SerializerFacts.extract_locality_years (Serializer.extract_years d0))
    as (Y1 & Y2).
  rewrite Y1 in Ha. rewrite Y2 in Hb.
  apply (ValidateFacts.extract_years_ordered d0 a b); auto.
  intros x y Ex Ey Sx Sy. rewrite Ex, Ey in G. rewrite Sx, Sy in G.
  cbn in G. apply Z.ltb_ge in G. lia.
Qed.

Lemma validated_bounds_are_ordered_witness :
  exists d a b,
    Serializer.run_validation half_range_request = inr d
    /\ Serializer.year_from d = Some a /\ Serializer.year_to d = Some b /\ a <= b.
Proof.
  destruct (Serializer.run_validation half_range_request) as [e|d] eqn:V;
    [vm_compute in V; discriminate V|].
  destruct (Serializer.year_from d) as [a|] eqn:A;
    [|vm_compute in V; injection V as <-; discriminate A].
  destruct (Serializer.year_to d) as [b|] eqn:B;
    [|vm_compute in V; injection V as <-; discriminate B].
  exists d, a, b.
  split; [reflexivity|]. split; [exact A|]. split; [exact B|].
  apply (validated_bounds_are_ordered half_range_request d a b V A B).
Defined.

(* ================================================================== *)
(** * From the query text to the year filter *)
(* ================================================================== *)

Module DigitFacts.
Import Text Serializer.

Lemma digit_not_space (c : char) : isdigit c = true -> isspace c = false.
Proof. intro H. now destruct (SerializerFacts.digit_plain c H). Qed.

Lemma digit_not_hyphen (c : char) : isdigit c = true -> c <> hyphen.
Proof.
  intro H. destruct (SerializerFacts.digit_plain c H) as (_ & Y & _).
  now apply N.eqb_neq.
Qed.

Lemma dropwhile_none (p : char -> bool) (s : str) :
  Forall (fun c => p c = false) s -> dropwhile p s = s.
Proof. destruct 1 as [|c s Hc _]; simpl; [reflexivity | now rewrite Hc]. Qed.

(** Text without white space is its own [strip]. *)
Lemma strip_plain (s : str) :
  Forall (fun c => isspace c = false) s -> strip s = s.
Proof.
  intro H. unfold strip, lstrip, rstrip.
  rewrite (dropwhile_none isspace s H).
  rewrite (dropwhile_none isspace (rev s)); [apply rev_involutive|].
  now apply Forall_rev.
Qed.

Lemma digits_value_run (g : str) (acc : Z) (b : bool) :
  Shape.all_digits g -> g <> [] ->
  digits_value acc b g = Some (fold_left (fun a c => 10 * a + digit_value c) g acc).
Proof.
  intros H. revert acc b. induction H as [|c g Hc Hg IH]; intros acc b NE;
    [contradiction|].
  cbn [digits_value fold_left]. rewrite Hc.
  destruct g as [|c' g']; [reflexivity|].
  apply IH. discriminate.
Qed.

(** [int] of a run of digits is [int_of_digits]. *)
Lemma py_int_run (g : str) :
  Shape.all_digits g -> g <> [] -> py_int g = Some (int_of_digits g).
Proof.
  intros H NE. unfold py_int.
  rewrite strip_plain
    by (eapply Forall_impl; [|exact H]; intros c Hc; now apply digit_not_space).
  destruct g as [|c t]; [contradiction|].
  inversion H as [|? ? Hc _]; subst.
  destruct (SerializerFacts.digit_plain c Hc) as (_ & Y & P).
  rewrite Y, P. now apply digits_value_run.
Qed.

Lemma four_digits_all (s g r : str) :
  four_digits s = Some (g, r) -> Shape.all_digits g /\ g <> [].
Proof.
  intro F.
  destruct (SerializerFacts.four_digits_spec s g r F)
    as (a & b & c & d & -> & _ & Ha & Hb & Hc & Hd).
  split; [repeat constructor; assumption | discriminate].
Qed.

Lemma search_year_span_digits (q g1 g2 : str) :
  search_year_span q = Some (g1, g2) ->
  (Shape.all_digits g1 /\ g1 <> []) /\ (Shape.all_digits g2 /\ g2 <> []).
Proof.
  induction q as [|c q IH]; cbn [search_year_span]; intro H.
  - destruct (match_year_span []) eqn:M; discriminate.
  - destruct (match_year_span (c :: q)) as [[h1 h2]|] eqn:M; [|now apply IH].
    injection H as -> ->. unfold match_year_span in M.
    destruct (four_digits (c :: q)) as [[a r1]|] eqn:F1; [|discriminate M].
    destruct (dropwhile isspace r1) as [|x r2]; [discriminate M|].
    destruct (x =? hyphen)%N; [|discriminate M].
    destruct (four_digits (dropwhile isspace r2)) as [[b r3]|] eqn:F2;
      [|discriminate M].
    injection M as -> ->.
    split; eapply four_digits_all; eassumption.
Qed.

Lemma takewhile_all (p : char -> bool) (s : str) :
  Forall (fun c => p c = true) (takewhile p s).
Proof.
  induction s as [|c s IH]; simpl; [constructor|].
  destruct (p c) eqn:E; [now constructor | constructor].
Qed.

Lemma search_last_years_digits (s g : str) :
  search_last_years s = Some g -> Shape.all_digits g /\ g <> [].
Proof.
  induction s as [|c s IH]; cbn [search_last_years]; intro H.
  - destruct (match_last_years []) eqn:M; discriminate.
  - destruct (match_last_years (c :: s)) as [h|] eqn:M; [|now apply IH].
    injection H as ->. unfold match_last_years in M.
    destruct (startswith (lit "last") (c :: s)); [|discriminate M].
    match type of M with
    | (if ?b then _ else _) = _ => destruct b eqn:G; [|discriminate M]
    end.
    injection M as <-. split; [apply takewhile_all|].
    apply andb_true_iff in G as [G _]. apply andb_true_iff in G as [G _].
    apply andb_true_iff in G as [_ G]. apply negb_true_iff, Nat.eqb_neq in G.
    intro E. apply G. apply (f_equal (@List.length _)) in E. exact E.
Qed.

(** One word is its own list of words. *)
Lemma split_ws_from_word (g cur : str) :
  Forall (fun c => isspace c = false) g ->
  split_ws_from cur g = match rev cur ++ g with [] => [] | w => [w] end.
Proof.
  intro H. revert cur. induction H as [|c g Hc Hg IH]; intro cur; cbn [split_ws_from].
  - rewrite app_nil_r. destruct cur as [|x cur]; [reflexivity|].
    destruct (rev (x :: cur)) eqn:E; [|reflexivity].
    apply (f_equal (@List.length _)) in E. rewrite length_rev in E. discriminate E.
  - rewrite Hc, IH. cbn [rev]. now rewrite <- app_assoc.
Qed.

End DigitFacts.

(** X4.  A year range that [process_query] reads from the query is one
    that [filter_data] understands.  When no range is set and the text
    has ['YYYY-YYYY'] (white space allowed around the hyphen), the
    resolved range is the two years around one hyphen and every row of the
    filtered frame has its year between them; otherwise, when the text has
    ['last N years'], the resolved range is ['last N'] and every row has
    [year >= current_year - N]. *)
Theorem inferred_year_range_filters :
  forall cy df q f,
    is_set (year_range f) = false ->
    q <> [] ->
    let resolved := resolve_filters df q f in
    (forall g1 g2,
        search_year_span q = Some (g1, g2) ->
        year_range resolved = Some (g1 ++ lit "-" ++ g2)
        /\ forall r, In r (rows (filter_data cy df resolved)) ->
                     year_between (Serializer.int_of_digits g1)
                                  (Serializer.int_of_digits g2) r)
    /\ (forall g,
          search_year_span q = None ->
          search_last_years (lower q) = Some g ->
          year_range resolved = Some (lit "last " ++ g)
          /\ forall r, In r (rows (filter_data cy df resolved)) ->
                       year_at_least (cy - Serializer.int_of_digits g) r).
Proof.
  intros cy df q f Hset Hq resolved.
  assert (NQ : nonempty q = true) by (destruct q; [contradiction|reflexivity]).
  assert (R : forall v, year_range (infer_year_range q (infer_locality df q f)) = Some v ->
                        year_range resolved = Some v).
  { intros v E. unfold resolved, resolve_filters.
    destruct (InferenceFacts.infer_property_type_fields q
                (infer_year_range q (infer_locality df q f))) as (_ & P & _).
    now rewrite P. }
  assert (S0 : is_set (year_range (infer_locality df q f)) = false).
  { destruct (InferenceFacts.infer_locality_fields df q f) as (L & _). now rewrite L. }
  assert (K : forall r yr, year_range resolved = Some yr -> yr <> [] ->
                In r (rows (filter_data cy df resolved)) ->
                (forall n, last_form yr n -> year_at_least (cy - n) r)
                /\ (forall a b, span_form yr a b -> year_between a b r)).
  { intros r yr E NE Hin. rewrite FilterFacts.filter_data_select in Hin.
    unfold select in Hin. cbn [rows] in Hin. apply filter_In in Hin as [_ Hk].
    apply FilterFacts.keeps_spec in Hk. destruct Hk as (_ & Y & _).
    apply Y. rewrite E. destruct yr; [contradiction|reflexivity]. }
  split.
  - intros g1 g2 Hs.
    destruct (DigitFacts.search_year_span_digits q g1 g2 Hs) as ((D1 & N1) & (D2 & N2)).
    assert (E : year_range resolved = Some (g1 ++ lit "-" ++ g2)).
    { apply R. unfold infer_year_range. rewrite S0, NQ, Hs. reflexivity. }
    split; [exact E|].
    intros r Hin.
    apply (proj2 (K r _ E ltac:(destruct g1; [contradiction|discriminate]) Hin)).
    exists g1, g2. repeat split.
    + intro Hh. apply (proj1 (Forall_forall _ _) D1) in Hh.
      now apply DigitFacts.digit_not_hyphen in Hh.
    + intro Hh. apply (proj1 (Forall_forall _ _) D2) in Hh.
      now apply DigitFacts.digit_not_hyphen in Hh.
    + now apply DigitFacts.py_int_run.
    + now apply DigitFacts.py_int_run.
  - intros g Hs Hl.
    destruct (DigitFacts.search_last_years_digits _ g Hl) as (D & N).
    assert (E : year_range resolved = Some (lit "last " ++ g)).
    { apply R. unfold infer_year_range. rewrite S0, NQ, Hs, Hl. reflexivity. }
    split; [exact E|].
    intros r Hin.
    apply (proj1 (K r _ E ltac:(discriminate) Hin)).
    exists (lit "last "), g, g, []. repeat split.
    + unfold split_ws. rewrite DigitFacts.split_ws_from_word.
      * destruct g; [contradiction|reflexivity].
      * eapply Forall_impl; [|exact D]. intros c Hc.
        now apply DigitFacts.digit_not_space.
    + now apply DigitFacts.py_int_run.
Qed.

Lemma inferred_year_range_filters_witness :
  year_between 2019 2021 (baner 2019).
Proof.
  apply (proj2 (proj1 (inferred_year_range_filters 2026 wakad_baner
                         (lit "prices 2019 - 2021") no_filters
                         eq_refl ltac:(discriminate))
                      (lit "2019") (lit "2021") eq_refl)).
  vm_compute. left. reflexivity.
Defined.

(* ================================================================== *)
(** * What the loaders guarantee about a frame *)
(* ================================================================== *)

Module ShapeFacts.
Import Text Frame Processor Shape.

Lemma mem_In (c : str) (l : list str) : mem c l = true <-> In c l.
Proof.
  induction l as [|x l IH]; simpl; [split; [discriminate|intros []]|].
  rewrite orb_true_iff, IH, TextFacts.eqb_eq. split; intros [H|H]; auto.
Qed.

(** The cell [get] finds has every property the entries of its label
    have; a label that is absent reads as missing. *)
Lemma get_entries (P : str -> cell -> Prop) (r : row) (c : str) :
  Forall (fun kv => P (fst kv) (snd kv)) r -> P c NaN -> P c (get r c).
Proof.
  intros H N. induction H as [|[k v] r Hkv Hr IH]; simpl; [exact N|].
  destruct (Text.eqb k c) eqn:E; [|exact IH].
  apply TextFacts.eqb_eq in E. subst k. exact Hkv.
Qed.

Lemma get_present (r : row) (c : str) :
  In c (map fst r) -> exists v, In (c, v) r /\ get r c = v.
Proof.
  induction r as [|[k v] r IH]; simpl; [intros []|].
  destruct (Text.eqb k c) eqn:E.
  - intros _. apply TextFacts.eqb_eq in E. subst k. exists v. split; [now left|reflexivity].
  - intros [H|H]; [subst k; now rewrite TextFacts.eqb_refl in E|].
    destruct (IH H) as (w & I & G). exists w. split; [now right|exact G].
Qed.

(** ** [relabel] and [assign] *)

Lemma relabel_well_formed (f : str -> str) (df : DataFrame) :
  well_formed df -> well_formed (relabel f df).
Proof.
  unfold well_formed, relabel. cbn [rows columns]. intro H.
  apply Forall_map. eapply Forall_impl; [|exact H].
  intros r E. cbn beta. rewrite map_map. cbn [fst]. rewrite <- E. now rewrite map_map.
Qed.

Lemma assign_keys (col : str) (f : cell -> cell) (r : row) :
  map fst (map (fun kv : str * cell =>
                  if Text.eqb (fst kv) col then (fst kv, f (snd kv)) else kv) r)
  = map fst r.
Proof.
  rewrite map_map. apply map_ext. intros [k v]. cbn [fst snd].
  now destruct (Text.eqb k col).
Qed.

Section Coerce.
Variable f : cell -> cell.
Hypothesis f_number : forall v, is_number_or_missing (f v).

Lemma coerce_step (col : str) (done : list str) (df : DataFrame) :
  well_formed df -> coerced done df ->
  let df' := if mem col (columns df) then assign col f df else df in
  columns df' = columns df /\ well_formed df' /\ coerced (done ++ [col]) df'.
Proof.
  intros W C. destruct (mem col (columns df)) eqn:M; cbv zeta.
  - split; [reflexivity|]. split.
    + unfold well_formed, assign. cbn [rows columns].
      apply Forall_map. eapply Forall_impl; [|exact W].
      intros r E. cbn beta. now rewrite assign_keys.
    + unfold coerced, assign. cbn [rows].
      apply Forall_map. eapply Forall_impl; [|exact C].
      intros r Hr. unfold entry_ok in *. apply Forall_map.
      eapply Forall_impl; [|exact Hr].
      intros [k v] Hkv. cbn [fst snd] in *.
      destruct (Text.eqb k col) eqn:E; cbn [fst snd].
      * intros _. apply f_number.
      * intro Hin. apply in_app_or in Hin as [Hin|[Hin|[]]]; [now apply Hkv|].
        subst k. now rewrite TextFacts.eqb_refl in E.
  - split; [reflexivity|]. split; [exact W|].
    unfold coerced in *.
    apply Forall_forall. intros r Hr.
    pose proof (proj1 (Forall_forall _ _) C r Hr) as Cr.
    pose proof (proj1 (Forall_forall _ _) W r Hr) as Wr.
    unfold entry_ok in *. apply Forall_forall. intros [k v] Hkv. cbn [fst snd].
    intro Hin. apply in_app_or in Hin as [Hin|[Hin|[]]].
    + exact (proj1 (Forall_forall _ _) Cr (k, v) Hkv Hin).
    + subst k. exfalso.
      assert (In col (columns df)).
      { rewrite <- Wr. apply in_map_iff. now exists (col, v). }
      apply mem_In in H. congruence.
Qed.

Lemma coerce_fold (cols done : list str) (df : DataFrame) :
  well_formed df -> coerced done df ->
  let df' := fold_left
               (fun d col => if mem col (columns d) then assign col f d else d)
               cols df in
  columns df' = columns df /\ well_formed df' /\ coerced (done ++ cols) df'.
Proof.
  revert done df. induction cols as [|col cols IH]; intros done df W C; cbn [fold_left].
  - rewrite app_nil_r. now repeat split.
  - destruct (coerce_step col done df W C) as (E & W' & C').
    destruct (IH (done ++ [col]) _ W' C') as (E2 & W2 & C2).
    cbv zeta in *. rewrite <- app_assoc in C2. cbn [app] in C2.
    split; [now rewrite E2, E|]. now split.
Qed.

Lemma coerce_numeric_shape (df : DataFrame) :
  well_formed df ->
  columns (coerce_numeric f df) = columns df
  /\ well_formed (coerce_numeric f df)
  /\ coerced NUMERIC_COLUMNS (coerce_numeric f df).
Proof.
  intro W. apply (coerce_fold NUMERIC_COLUMNS [] df W).
  unfold coerced, entry_ok. apply Forall_forall. intros r _.
  apply Forall_forall. intros kv _ [].
Qed.
End Coerce.

Lemma to_numeric_number (v : cell) : is_number_or_missing (to_numeric v).
Proof.
  destruct v as [s|x|]; cbn; [|exact I|exact I].
  destruct (Num.parse_number s); exact I.
Qed.

(** ** The year cast *)

Lemma year_row_shape (r r' : row) :
  year_row_astype_int r = Some r' ->
  map fst r' = map fst r
  /\ entry_ok (fun k => k = year) integral r'
  /\ forall S, entry_ok S is_number_or_missing r ->
               entry_ok S is_number_or_missing r'.
Proof.
  revert r'; induction r as [|[k v] r IH]; cbn [year_row_astype_int]; intros r' H.
  - injection H as <-. repeat split; constructor.
  - destruct (year_row_astype_int r) as [t'|]; [|discriminate H].
    destruct (IH t' eq_refl) as (K & Y & N).
    destruct (Text.eqb k year) eqn:E.
    + destruct (astype_int v) as [v'|] eqn:A; [|discriminate H].
      injection H as <-. cbn [map fst]. split; [now rewrite K|].
      destruct v as [s|x|]; try discriminate A. injection A as <-.
      split.
      * constructor; [intros _; now eexists | exact Y].
      * intros S HS. inversion HS; subst.
        constructor; [intros _; exact I | now apply N].
    + injection H as <-. cbn [map fst]. split; [now rewrite K|].
      split.
      * constructor; [|exact Y]. cbn [fst snd]. intros ->.
        now rewrite TextFacts.eqb_refl in E.
      * intros S HS. inversion HS; subst. constructor; [assumption | now apply N].
Qed.

Lemma all_rows_Forall2 (g : row -> option row) (l l' : list row) :
  all_rows g l = Some l' -> Forall2 (fun r r' => g r = Some r') l l'.
Proof.
  revert l'; induction l as [|r l IH]; cbn [all_rows]; intros l' H.
  - injection H as <-. constructor.
  - destruct (g r) as [r'|] eqn:E; [|discriminate H].
    destruct (all_rows g l) as [t|]; [|discriminate H].
    injection H as <-. constructor; [exact E | now apply IH].
Qed.

(** ** The shared tail *)

Lemma finish_shape (df out : DataFrame) :
  well_formed df ->
  coerced NUMERIC_COLUMNS df ->
  In year (columns df) ->
  finish df = inr out ->
  columns out = columns df
  /\ well_formed out
  /\ Forall canonical_row (rows out).
Proof.
  intros W C Y H. unfold finish, year_astype_int in H.
  destruct (all_rows year_row_astype_int (rows df)) as [rs|] eqn:E; [|discriminate H].
  injection H as <-.
  apply all_rows_Forall2 in E.
  assert (A : Forall (fun r => map fst r = columns df
                               /\ entry_ok (fun k => k = year) integral r
                               /\ entry_ok (fun k => In k NUMERIC_COLUMNS)
                                    is_number_or_missing r) rs).
  { unfold well_formed, coerced in *.
    induction E as [|r r' l l' Hr Hl IH]; [constructor|].
    inversion W; subst. inversion C; subst.
    destruct (year_row_shape r r' Hr) as (K & Yr & N).
    constructor; [|now apply IH].
    split; [congruence|]. split; [exact Yr | now apply N]. }
  unfold sort_values, dropna, select. cbn [rows columns].
  set (kept := filter (fun r => notna (get r final_location) && notna (get r city)) rs).
  assert (P : Permutation (sort key_leb kept) kept) by apply SortFacts.sort_perm.
  assert (B : Forall (fun r => (map fst r = columns df
                                /\ entry_ok (fun k => k = year) integral r
                                /\ entry_ok (fun k => In k NUMERIC_COLUMNS)
                                     is_number_or_missing r)
                               /\ notna (get r final_location) && notna (get r city) = true)
                     kept).
  { unfold kept. apply Forall_forall. intros r Hr. apply filter_In in Hr as [Hr Hs].
    split; [exact (proj1 (Forall_forall _ _) A r Hr) | exact Hs]. }
  apply (Permutation_Forall (Permutation_sym P)) in B.
  split; [reflexivity|]. split.
  - unfold well_formed. cbn [rows columns].
    eapply Forall_impl; [|exact B]. intros r ((K & _) & _). exact K.
  - eapply Forall_impl; [|exact B].
    intros r ((K & Yr & N) & S). apply andb_true_iff in S as [S1 S2].
    unfold canonical_row. split; [exact S1|]. split; [exact S2|]. split.
    + assert (Hin : In year (map fst r)) by (now rewrite K).
      destruct (get_present r year Hin) as (v & Iv & G). rewrite G.
      exact (proj1 (Forall_forall _ _) Yr (year, v) Iv eq_refl).
    + intros c Hc.
      apply (get_entries (fun k v => In k NUMERIC_COLUMNS -> is_number_or_missing v) r c);
        [exact N | intros _; exact I | exact Hc].
Qed.

Lemma normalize_shape (raw out : DataFrame) :
  well_formed raw ->
  normalize raw = inr out ->
  well_formed out
  /\ (forall c, In c DB_FIELDS -> In c (columns out))
  /\ Forall canonical_row (rows out).
Proof.
  intro W. unfold normalize. intro H.
  remember (relabel rename_label (relabel (fun col => lower (strip col)) raw)) as df.
  remember (filter (fun col => negb (mem col (columns df))) DB_FIELDS) as missing.
  destruct missing; [|discriminate H].
  assert (W0 : well_formed df)
    by (subst df; now apply relabel_well_formed, relabel_well_formed).
  assert (Cols : forall c, In c DB_FIELDS -> In c (columns df)).
  { intros c Hc. apply mem_In.
    destruct (mem c (columns df)) eqn:M; [reflexivity|].
    assert (In c (filter (fun col => negb (mem col (columns df))) DB_FIELDS)).
    { apply filter_In. split; [exact Hc | now rewrite M]. }
    rewrite <- Heqmissing in H0. destruct H0. }
  destruct (coerce_numeric_shape (fun v => to_numeric (_clean_numeric_value v))
              (fun v => to_numeric_number _) df W0) as (E1 & W1 & C1).
  assert (Y : In year (columns (coerce_numeric
                                  (fun v => to_numeric (_clean_numeric_value v)) df))).
  { rewrite E1. apply Cols. apply mem_In. vm_compute. reflexivity. }
  destruct (finish_shape _ out W1 C1 Y H) as (E2 & W2 & R).
  split; [exact W2|]. split; [|exact R].
  intros c Hc. rewrite E2, E1. apply Cols. exact Hc.
Qed.

Lemma database_shape (w : World) (out : DataFrame) :
  (forall rs, database w = Some rs -> Forall (fun r => map fst r = DB_FIELDS) rs) ->
  _load_from_database w = inr (Some out) ->
  columns out = DB_FIELDS
  /\ well_formed out
  /\ Forall canonical_row (rows out).
Proof.
  intro W. unfold _load_from_database. intro H.
  destruct (database w) as [rs0|]; [|discriminate H].
  specialize (W rs0 eq_refl).
  destruct rs0 as [|r rs]; [discriminate H|].
  remember {| columns := DB_FIELDS; rows := r :: rs |} as df.
  assert (W0 : well_formed df) by (subst df; exact W).
  remember (finish (coerce_numeric to_numeric df)) as res.
  destruct res as [e|d]; [discriminate H|].
  injection H as ->. symmetry in Heqres.
  destruct (coerce_numeric_shape to_numeric to_numeric_number df W0) as (E1 & W1 & C1).
  assert (Y : In year (columns (coerce_numeric to_numeric df))).
  { rewrite E1. subst df. cbn [columns]. apply mem_In. vm_compute. reflexivity. }
  destruct (finish_shape _ out W1 C1 Y Heqres) as (E2 & W2 & R).
  split; [|split; assumption].
  rewrite E2, E1. subst df. reflexivity.
Qed.

End ShapeFacts.

(** X5.  A sheet or a table that loads gives a canonical frame: every
    canonical column is there, every row has a location and a city, its
    year is an integer, and no numeric column holds text. *)
Theorem loaded_rows_are_canonical :
  (forall raw df,
      Shape.well_formed raw ->
      normalize raw = inr df ->
      Shape.well_formed df
      /\ (forall c, In c DB_FIELDS -> In c (columns df))
      /\ Forall Shape.canonical_row (rows df))
  /\ (forall w df,
        (forall rs, database w = Some rs ->
                    Forall (fun r => map fst r = DB_FIELDS) rs) ->
        _load_from_database w = inr (Some df) ->
        columns df = DB_FIELDS
        /\ Shape.well_formed df
        /\ Forall Shape.canonical_row (rows df)).
Proof.
  split; [exact ShapeFacts.normalize_shape | exact ShapeFacts.database_shape].
Qed.

Lemma loaded_rows_are_canonical_witness :
  exists df, normalize raw_sheet = inr df /\ Forall Shape.canonical_row (rows df).
Proof.
  destruct (normalize raw_sheet) as [e|df] eqn:E; [vm_compute in E; discriminate E|].
  exists df. split; [reflexivity|].
  apply (proj1 loaded_rows_are_canonical raw_sheet df); [|exact E].
  repeat constructor.
Defined.

(** X6.  A frame that already has the canonical columns is never refused
    for missing columns: the canonical names are left alone by the header
    reconciliation, so what [normalize] returns can be normalized again. *)
Theorem canonical_headers_are_accepted :
  forall df cols,
    (forall c, In c DB_FIELDS -> In c (columns df)) ->
    normalize df <> inl (MissingColumns cols).
Proof.
  intros df cols Hc. unfold normalize.
  remember (relabel rename_label (relabel (fun col => lower (strip col)) df)) as d.
  assert (F : filter (fun col => negb (mem col (columns d))) DB_FIELDS = []).
  { assert (Fix : forall c, In c DB_FIELDS -> rename_label (lower (strip c)) = c).
    { assert (B : forallb (fun c => Text.eqb (rename_label (lower (strip c))) c) DB_FIELDS
                  = true) by (vm_compute; reflexivity).
      intros c Hin. apply TextFacts.eqb_eq.
      exact (proj1 (forallb_forall _ _) B c Hin). }
    assert (A : forall l, (forall c, In c l -> In c DB_FIELDS) ->
                          filter (fun col => negb (mem col (columns d))) l = []).
    { induction l as [|c l IH]; intro Hl; [reflexivity|].
      cbn [filter].
      assert (M : mem c (columns d) = true).
      { apply ShapeFacts.mem_In. subst d. unfold relabel. cbn [columns].
        rewrite map_map. apply in_map_iff. exists c. split.
        - apply Fix, Hl. now left.
        - apply Hc, Hl. now left. }
      rewrite M. cbn [negb]. apply IH. intros x Hx. apply Hl. now right. }
    apply A. auto. }
  rewrite F. unfold finish, year_astype_int.
  destruct (all_rows year_row_astype_int _); intro X; discriminate X.
Qed.

Lemma canonical_headers_are_accepted_witness :
  normalize wakad_baner <> inl (MissingColumns [lit "year"]).
Proof.
  apply (canonical_headers_are_accepted wakad_baner [lit "year"]).
  intros c H. exact H.
Defined.

(* ================================================================== *)
(** * Composing filters *)
(* ================================================================== *)

Module ComposeFacts.
Import Text Frame Processor Spec.

(** The test of a row reads the frame for its columns only. *)
Lemma keeps_columns (cy : Z) (df df' : DataFrame) (f : Filters) (r : row) :
  columns df' = columns df -> keeps cy df' f r = keeps cy df f r.
Proof. intro E. unfold keeps. now rewrite E. Qed.

Lemma filter_data_twice (cy : Z) (df : DataFrame) (f g : Filters) :
  filter_data cy (filter_data cy df f) g
  = select (fun r => keeps cy df f r && keeps cy df g r) df.
Proof.
  rewrite (FilterFacts.filter_data_select cy df f).
  rewrite FilterFacts.filter_data_select.
  rewrite FilterFacts.select_select.
  apply FilterFacts.select_ext. intro r.
  now rewrite (keeps_columns cy df (select (keeps cy df f) df) g r eq_refl).
Qed.

End ComposeFacts.

(** X7.  Filtering is idempotent and two filter sets can be applied in
    either order: filtering a filtered frame again with the same filters
    changes nothing, and [filter_data] by [f] then by [g] is [filter_data]
    by [g] then by [f]. *)
Theorem filter_data_idempotent_commutes :
  forall cy df f g,
    filter_data cy (filter_data cy df f) f = filter_data cy df f
    /\ filter_data cy (filter_data cy df f) g
       = filter_data cy (filter_data cy df g) f.
Proof.
  intros cy df f g. split.
  - rewrite ComposeFacts.filter_data_twice, FilterFacts.filter_data_select.
    apply FilterFacts.select_ext. intro r. now destruct (keeps cy df f r).
  - rewrite !ComposeFacts.filter_data_twice.
    apply FilterFacts.select_ext. intro r. apply andb_comm.
Qed.

(** X8.  The locality and the property type of a filter set are read
    without case: two filter sets whose localities and property types
    differ by case only, with the same year range, select the same rows. *)
Theorem filters_ignore_case :
  forall cy df f g,
    option_map lower (truthy (locality f)) = option_map lower (truthy (locality g)) ->
    option_map lower (truthy (property_type f))
    = option_map lower (truthy (property_type g)) ->
    truthy (year_range f) = truthy (year_range g) ->
    filter_data cy df f = filter_data cy df g.
Proof.
  intros cy df f g L P Y.
  rewrite !FilterFacts.filter_data_select.
  apply FilterFacts.select_ext. intro r. unfold keeps. rewrite Y.
  f_equal; [f_equal|].
  - destruct (truthy (locality f)) as [a|], (truthy (locality g)) as [b|];
      try discriminate L; [|reflexivity].
    injection L as L. unfold location_is. now rewrite L.
  - destruct (truthy (property_type f)) as [a|], (truthy (property_type g)) as [b|];
      try discriminate P; [|reflexivity].
    injection P as P. now rewrite P.
Qed.

Lemma filters_ignore_case_witness :
  filter_data 2026 wakad_baner
    {| locality := Some (lit "WAKAD"); year_range := Some (lit "2020-2022");
       property_type := Some (lit "Office"); year_from := None; year_to := None |}
  = filter_data 2026 wakad_baner
      {| locality := Some (lit "wakad"); year_range := Some (lit "2020-2022");
         property_type := Some (lit "office"); year_from := None; year_to := None |}.
Proof.
  apply (filters_ignore_case 2026 wakad_baner); reflexivity.
Defined.


(* ================================================================== *)
(** * The summary, the chart and the enrichment *)
(* ================================================================== *)

Module UniqueFacts.
Import Frame.

Section Unique.
Variable A : Type.
Variable eq : A -> A -> bool.
Hypothesis eq_spec : forall a b, eq a b = true <-> a = b.

Lemma existsb_eq (x : A) (l : list A) : existsb (eq x) l = true <-> In x l.
Proof.
  rewrite existsb_exists. split.
  - intros (y & Hy & E). apply eq_spec in E. now subst.
  - intro H. exists x. split; [exact H | now apply eq_spec].
Qed.

Lemma unique_from_In (seen l : list A) (x : A) :
  In x (unique_from eq seen l) <-> In x l /\ ~ In x seen.
Proof.
  revert seen; induction l as [|y l IH]; intro seen; cbn [unique_from].
  - split; [intros [] | intros [[] _]].
  - destruct (existsb (eq y) seen) eqn:E.
    + apply existsb_eq in E. rewrite IH. split.
      * intros [H N]. split; [now right | exact N].
      * intros [[H|H] N]; [subst; contradiction | now split].
    + assert (Ny : ~ In y seen).
      { intro H. apply existsb_eq in H. congruence. }
      cbn [In]. rewrite IH. cbn [In]. split.
      * intros [H|[H N]]; [subst; split; [now left | exact Ny]|].
        split; [now right | tauto].
      * intros [[H|H] N]; [now left|].
        destruct (existsb (eq x) [y]) eqn:X.
        -- apply existsb_eq in X. destruct X as [X|[]]. now left.
        -- right. split; [exact H|]. intros [Hy|Hs]; [|contradiction].
           subst. assert (existsb (eq x) [x] = true) by (apply existsb_eq; now left).
           congruence.
Qed.

Lemma unique_from_NoDup (seen l : list A) : NoDup (unique_from eq seen l).
Proof.
  revert seen; induction l as [|y l IH]; intro seen; cbn [unique_from];
    [constructor|].
  destruct (existsb (eq y) seen); [apply IH|].
  constructor; [|apply IH].
  intro H. apply unique_from_In in H as [_ N]. apply N. now left.
Qed.

Lemma unique_In (l : list A) (x : A) : In x (unique eq l) <-> In x l.
Proof. unfold unique. rewrite unique_from_In. cbn [In]. tauto. Qed.

Lemma unique_NoDup (l : list A) : NoDup (unique eq l).
Proof. apply unique_from_NoDup. Qed.
End Unique.

(** A sorted list without repetition is strictly sorted. *)
Lemma sorted_strict (A : Type) (R : A -> A -> Prop) (l : list A) :
  StronglySorted R l -> NoDup l -> StronglySorted (fun a b => R a b /\ a <> b) l.
Proof.
  induction 1 as [|x l Hl IH Hx]; intro N; [constructor|].
  inversion N as [|? ? Nx Nl]; subst.
  constructor; [now apply IH|].
  apply Forall_forall. intros y Hy. split.
  - exact (proj1 (Forall_forall _ _) Hx y Hy).
  - intros ->. contradiction.
Qed.

Lemma sort_unique_Z (l : list Z) :
  Shape.strictly_increasing_Z (sort Z.leb (unique Z.eqb l))
  /\ forall y, In y (sort Z.leb (unique Z.eqb l)) <-> In y l.
Proof.
  pose proof (SortFacts.sort_perm Z Z.leb (unique Z.eqb l)) as P.
  split.
  - assert (S : StronglySorted (fun a b => (a <=? b) = true /\ a <> b)
                  (sort Z.leb (unique Z.eqb l))).
    { apply sorted_strict.
      - apply (SortFacts.sort_ordered Z Z.leb SortFacts.Zleb_total SortFacts.Zleb_trans).
      - apply (Permutation_NoDup (Permutation_sym P)).
        apply unique_NoDup. exact Z.eqb_eq. }
    unfold Shape.strictly_increasing_Z. clear P.
    induction S as [|x s Hs IH Hx]; [constructor|].
    constructor; [exact IH|].
    eapply Forall_impl; [|exact Hx]. intros y [L N].
    apply Z.leb_le in L. lia.
  - intro y. rewrite <- (unique_In Z Z.eqb Z.eqb_eq l y). split.
    + apply (Permutation_in _ P).
    + apply (Permutation_in _ (Permutation_sym P)).
Qed.

Lemma sort_unique_text (l : list Text.str) :
  Shape.strictly_increasing (sort Text.leb (unique Text.eqb l))
  /\ forall s, In s (sort Text.leb (unique Text.eqb l)) <-> In s l.
Proof.
  pose proof (SortFacts.sort_perm Text.str Text.leb (unique Text.eqb l)) as P.
  split.
  - apply sorted_strict.
    + apply (SortFacts.sort_ordered _ Text.leb TextFacts.leb_total TextFacts.leb_trans).
    + apply (Permutation_NoDup (Permutation_sym P)).
      apply unique_NoDup. exact TextFacts.eqb_eq.
  - intro s. rewrite <- (unique_In _ Text.eqb TextFacts.eqb_eq l s). split.
    + apply (Permutation_in _ P).
    + apply (Permutation_in _ (Permutation_sym P)).
Qed.

End UniqueFacts.

Module SummaryFacts.
Import Text Frame Processor.

(** Where the fold of [idxmax] stops: at the first greatest entry. *)
Lemma idxmax_split (l : list (str * Q)) (start : str * Q) :
  let best := fold_left
                (fun best cur => if Qle_bool (snd cur) (snd best) then best else cur)
                l start in
  exists before after,
    start :: l = before ++ best :: after
    /\ (forall e, In e before -> (snd e < snd best)%Q)
    /\ (forall e, In e after -> (snd e <= snd best)%Q).
Proof.
  revert start; induction l as [|cv l IH]; intro start; cbn [fold_left].
  - exists [], []. repeat split; intros e [].
  - destruct (Qle_bool (snd cv) (snd start)) eqn:E.
    + destruct (IH start) as (b & a & S & B & A). cbv zeta in *.
      remember (fold_left
                  (fun best cur => if Qle_bool (snd cur) (snd best) then best else cur)
                  l start) as best eqn:Hb.
      clear Hb IH. apply Qle_bool_iff in E.
      destruct b as [|x b]; cbn [app] in S; injection S as S1 S2.
      * subst best a. exists [], (cv :: l).
        split; [reflexivity|]. split; [intros e []|].
        intros e [<-|He]; [exact E | now apply A].
      * subst x l. exists (start :: cv :: b), a.
        split; [reflexivity|]. split; [|exact A].
        intros e [<-|[<-|He]].
        -- apply B. now left.
        -- eapply Qle_lt_trans; [exact E|]. apply B. now left.
        -- apply B. now right.
    + destruct (IH cv) as (b & a & S & B & A). cbv zeta in *.
      remember (fold_left
                  (fun best cur => if Qle_bool (snd cur) (snd best) then best else cur)
                  l cv) as best eqn:Hb.
      clear Hb IH.
      assert (L : (snd start < snd cv)%Q).
      { apply Qnot_le_lt. intro L. apply Qle_bool_iff in L. congruence. }
      exists (start :: b), a. split; [cbn [app]; now f_equal|].
      split; [|exact A].
      intros e [<-|He]; [|now apply B].
      destruct b as [|x b]; cbn [app] in S; injection S as S1 S2.
      * now subst best.
      * subst x. eapply Qlt_trans; [exact L|]. apply B. now left.
Qed.

End SummaryFacts.

(** X10.  The most active segment comes from the first column with the
    greatest sum among the columns whose name ends in ['_sold'], in the
    order of the frame's columns: every such column before it has a
    smaller sum, every one after it a sum that is not greater.  Without
    such a column the segment is ['N/A']. *)
Theorem top_property_is_first_greatest :
  forall df,
    let sold := filter (endswith (lit "_sold")) (columns df) in
    (sold = [] -> top_property df = lit "N/A")
    /\ (sold <> [] ->
        exists before col after,
          sold = before ++ col :: after
          /\ idxmax (property_sums df) = Some col
          /\ top_property df
             = title (replace (lit "_") (lit " ") (replace (lit "_sold") [] col))
          /\ (forall c, In c before ->
                        (sum (column df c) < sum (column df col))%Q)
          /\ (forall c, In c after ->
                        (sum (column df c) <= sum (column df col))%Q)).
Proof.
  intros df sold. unfold top_property, property_sums. fold sold.
  set (g := fun col : str => (col, sum (column df col))).
  split.
  - intros ->. reflexivity.
  - intro NE. destruct sold as [|c0 rest] eqn:S; [contradiction|].
    change (map g (c0 :: rest)) with (g c0 :: map g rest).
    unfold idxmax.
    destruct (SummaryFacts.idxmax_split (map g rest) (g c0))
      as (b & a & Sp & B & A).
    cbv zeta in Sp, B, A.
    remember (fold_left
                (fun best cur => if Qle_bool (snd cur) (snd best) then best else cur)
                (map g rest) (g c0)) as best eqn:Hb.
    clear Hb.
    change (g c0 :: map g rest) with (map g (c0 :: rest)) in Sp.
    apply map_eq_app in Sp as (lb & lr & E1 & E2 & E3).
    destruct lr as [|cb la]; [discriminate E3|].
    cbn [map] in E3. injection E3 as E3 E4.
    exists lb, cb, la.
    assert (Fb : fst best = cb) by (rewrite <- E3; reflexivity).
    assert (Sb : snd best = sum (column df cb)) by (rewrite <- E3; reflexivity).
    split; [exact E1|]. split; [now rewrite Fb|]. split; [now rewrite Fb|].
    rewrite <- Sb. split.
    + intros c Hc. apply (B (g c)). rewrite <- E2. now apply in_map.
    + intros c Hc. apply (A (g c)). rewrite <- E4. now apply in_map.
Qed.

(** Flats 3, offices 5, shops 5: the offices come first among the
    greatest. *)
Lemma top_property_is_first_greatest_witness :
  top_property segments_frame = lit "Office"
  /\ exists before col after,
       filter (endswith (lit "_sold")) (columns segments_frame)
       = before ++ col :: after
       /\ idxmax (property_sums segments_frame) = Some col
       /\ top_property segments_frame
          = title (replace (lit "_") (lit " ") (replace (lit "_sold") [] col))
       /\ (forall c, In c before ->
                     (sum (column segments_frame c) < sum (column segments_frame col))%Q)
       /\ (forall c, In c after ->
                     (sum (column segments_frame c) <= sum (column segments_frame col))%Q).
Proof.
  split; [vm_compute; reflexivity|].
  apply (proj2 (top_property_is_first_greatest segments_frame)).
  vm_compute. discriminate.
Defined.

(** X11.  The labels of the chart are the years of the frame, each once,
    in increasing order, and each of the two series has one point per
    label. *)
Theorem chart_has_one_point_per_year :
  forall df,
    let chart := prepare_chart_data df in
    Shape.strictly_increasing_Z (labels chart)
    /\ Forall (fun d => List.length (data d) = List.length (labels chart))
              (datasets chart)
    /\ (empty df = false ->
        List.length (datasets chart) = 2%nat
        /\ forall y, In y (labels chart) <-> In y (years_of df)).
Proof.
  intro df. unfold prepare_chart_data. destruct (empty df).
  - cbn. repeat split; try constructor; discriminate.
  - cbn [labels datasets].
    destruct (UniqueFacts.sort_unique_Z (years_of df)) as [S I].
    split; [exact S|]. split.
    + repeat constructor; cbn [data]; apply length_map.
    + intros _. split; [reflexivity | exact I].
Qed.

Lemma chart_has_one_point_per_year_witness :
  In 2020 (labels (prepare_chart_data wakad_baner)).
Proof.
  apply (proj2 (proj2 (chart_has_one_point_per_year wakad_baner)) eq_refl).
  vm_compute. do 2 right. left. reflexivity.
Defined.

Module ViewFacts.
Import Text Frame Processor.

Lemma process_analysis_result :
  forall v data,
    let base :=
      process_query (Views.current_year v) (Views.df v) (Serializer.query data)
        {| locality := Some (Views.or_empty (Serializer.locality data));
           year_range := Some [];
           property_type := Some (Views.or_empty (Serializer.property_type data));
           year_from := Serializer.year_from data;
           year_to := Serializer.year_to data |} in
    exists result meta,
      fst (Views.process_analysis v data) = Views.Ok result meta
      /\ chart_data result = chart_data base
      /\ table_data result = table_data base
      /\ filters result = filters base
      /\ Views.meta_rows meta = List.length (table_data base)
      /\ (Views.ai_summary meta = false -> summary result = summary base)
      /\ (Views.ai_summary meta = true -> summary result <> [])
      /\ (Views.ai_client v = None ->
          Views.ai_summary meta = false
          /\ snd (Views.process_analysis v data) = [Views.FilterCall (filters base)])
      /\ (forall client,
            Views.ai_client v = Some client ->
            client (Serializer.query data) base = None ->
            Views.ai_summary meta = false).
Proof.
  intros v data base. unfold Views.process_analysis. fold base.
  unfold Views._maybe_generate_ai_summary.
  destruct (Views.ai_client v) as [client|] eqn:C.
  - destruct (Serializer.query data) as [|c q] eqn:Q.
    + exists base, {| Views.meta_rows := List.length (table_data base);
                      Views.generated_at := Views.time_zone v;
                      Views.ai_summary := false |}.
      cbn. repeat split; try discriminate.
    + destruct (client (c :: q) base) as [reply|] eqn:R; cbn [option_map].
      * destruct (strip reply) as [|x t] eqn:T.
        -- exists base, {| Views.meta_rows := List.length (table_data base);
                           Views.generated_at := Views.time_zone v;
                           Views.ai_summary := false |}.
           cbn. repeat split; try discriminate.
        -- exists (Views.with_summary base (x :: t)),
             {| Views.meta_rows := List.length (table_data base);
                Views.generated_at := Views.time_zone v;
                Views.ai_summary := true |}.
           cbn. repeat split; try discriminate.
           intros client' E1 E2. injection E1 as <-. congruence.
      * exists base, {| Views.meta_rows := List.length (table_data base);
                        Views.generated_at := Views.time_zone v;
                        Views.ai_summary := false |}.
        cbn. repeat split; try discriminate.
  - exists base, {| Views.meta_rows := List.length (table_data base);
                    Views.generated_at := Views.time_zone v;
                    Views.ai_summary := false |}.
    cbn. repeat split; try discriminate.
Qed.


(** The table has one record per row of a frame that has columns, each
    with the display labels. *)
Lemma table_shape (df : DataFrame) :
  columns df <> [] ->
  List.length (prepare_table_data df) = List.length (rows df)
  /\ Forall (fun rec => map fst rec = map snd display_columns) (prepare_table_data df).
Proof.
  intro C. unfold prepare_table_data, empty.
  destruct (rows df) as [|r rs] eqn:R.
  - split; [reflexivity | constructor].
  - destruct (columns df) as [|c cs]; [contradiction|].
    split; [apply length_map|].
    apply Forall_map. apply Forall_forall. intros x _.
    rewrite map_map. reflexivity.
Qed.

End ViewFacts.

(** X12.  The enrichment changes nothing but the summary and its flag.
    Whatever the client answers, the chart, the table, the filters and the
    row count are those of [process_query].  Without a client, or with an
    empty query, the client is not called and the generated summary
    stands.  Otherwise the client is called once, after the filtering,
    with the query and the generated result: an answer that is not blank
    once trimmed becomes the summary, trimmed, and the result is marked as
    enriched; a failed call or a blank answer leaves the generated summary
    and the mark off. *)
Theorem enrichment_is_optional :
  forall v data,
    let q := Serializer.query data in
    let base :=
      process_query (Views.current_year v) (Views.df v) q
        {| locality := Some (Views.or_empty (Serializer.locality data));
           year_range := Some [];
           property_type := Some (Views.or_empty (Serializer.property_type data));
           year_from := Serializer.year_from data;
           year_to := Serializer.year_to data |} in
    exists result meta,
      fst (Views.process_analysis v data) = Views.Ok result meta
      /\ chart_data result = chart_data base
      /\ table_data result = table_data base
      /\ filters result = filters base
      /\ Views.meta_rows meta = List.length (table_data base)
      /\ (Views.ai_client v = None \/ q = [] ->
          snd (Views.process_analysis v data) = [Views.FilterCall (filters base)]
          /\ summary result = summary base
          /\ Views.ai_summary meta = false)
      /\ (forall client,
            Views.ai_client v = Some client ->
            q <> [] ->
            snd (Views.process_analysis v data)
            = [Views.FilterCall (filters base); Views.EnrichmentCall q]
            /\ (forall reply,
                  client q base = Some reply ->
                  strip reply <> [] ->
                  summary result = strip reply /\ Views.ai_summary meta = true)
            /\ (client q base = None
                \/ (exists reply, client q base = Some reply /\ strip reply = []) ->
                summary result = summary base /\ Views.ai_summary meta = false)).
Proof.
  intros v data q base. unfold Views.process_analysis. fold q. fold base.
  unfold Views._maybe_generate_ai_summary.
  set (plain := {| Views.meta_rows := List.length (table_data base);
                   Views.generated_at := Views.time_zone v;
                   Views.ai_summary := false |}).
  destruct (Views.ai_client v) as [client|] eqn:C.
  - destruct q as [|c0 q0] eqn:Q.
    + exists base, plain.
      do 5 (split; [reflexivity|]). split.
      * intros _. repeat split.
      * intros client' _ N. now contradiction N.
    + destruct (client (c0 :: q0) base) as [reply|] eqn:R; cbn [option_map].
      * destruct (strip reply) as [|x t] eqn:T.
        -- exists base, plain.
           do 5 (split; [reflexivity|]). split.
           ++ intros [H|H]; discriminate H.
           ++ intros client' H _. injection H as <-.
              split; [reflexivity|]. split.
              ** intros reply' H1 H2. rewrite R in H1. injection H1 as <-.
                 now contradiction H2.
              ** intros _. split; reflexivity.
        -- exists (Views.with_summary base (x :: t)),
             {| Views.meta_rows := List.length (table_data base);
                Views.generated_at := Views.time_zone v;
                Views.ai_summary := true |}.
           do 5 (split; [reflexivity|]). split.
           ++ intros [H|H]; discriminate H.
           ++ intros client' H _. injection H as <-.
              split; [reflexivity|]. split.
              ** intros reply' H1 _. rewrite R in H1. injection H1 as <-.
                 rewrite T. split; reflexivity.
              ** intros [H1|(r' & H1 & H2)]; rewrite R in H1; [discriminate H1|].
                 injection H1 as <-. rewrite T in H2. discriminate H2.
      * exists base, plain.
        do 5 (split; [reflexivity|]). split.
        -- intros [H|H]; discriminate H.
        -- intros client' H _. injection H as <-.
           split; [reflexivity|]. split.
           ++ intros reply' H1 _. rewrite R in H1. discriminate H1.
           ++ intros _. split; reflexivity.
  - exists base, plain.
    do 5 (split; [reflexivity|]). split.
    + intros _. repeat split.
    + intros client' H. discriminate H.
Qed.

(** With a client that answers ['  Prices rose.  '] the summary is
    ['Prices rose.'] and the result is marked; with a client that answers
    blanks the generated summary stands. *)
Lemma enrichment_is_optional_witness :
  (exists result meta,
      Views.process_analysis enriched_view (Serializer.internal_value compare_request)
      = (Views.Ok result meta,
         [Views.FilterCall (filters result);
          Views.EnrichmentCall (lit "compare 2023 and 2019")])
      /\ summary result = lit "Prices rose."
      /\ Views.ai_summary meta = true)
  /\ (exists result meta,
        fst (Views.process_analysis blank_view (Serializer.internal_value compare_request))
        = Views.Ok result meta
        /\ summary result
           = generate_summary
               (filter_data 2026 wakad_baner (filters result))
               (Some (lit "compare 2023 and 2019"))
        /\ Views.ai_summary meta = false).
Proof.
  split.
  - destruct (enrichment_is_optional enriched_view
                (Serializer.internal_value compare_request))
      as (result & meta & E & _ & _ & F & _ & _ & B).
    destruct (B _ eq_refl) as (T & Y & _); [vm_compute; discriminate|].
    destruct (Y _ eq_refl) as (S & A); [vm_compute; discriminate|].
    exists result, meta. split; [|split; [|exact A]].
    + rewrite (surjective_pairing (Views.process_analysis _ _)), E, T, F.
      reflexivity.
    + rewrite S. vm_compute. reflexivity.
  - destruct (enrichment_is_optional blank_view
                (Serializer.internal_value compare_request))
      as (result & meta & E & _ & _ & F & _ & _ & B).
    destruct (B _ eq_refl) as (_ & _ & N); [vm_compute; discriminate|].
    destruct N as (S & A).
    { right. eexists. split; [reflexivity | vm_compute; reflexivity]. }
    exists result, meta. split; [exact E|]. split; [|exact A].
    rewrite S, F. reflexivity.
Defined.

(** X18.  The row count of the metadata is the number of rows that pass
    the resolved filters, and the table has one record for each of them,
    with the nine display labels in their order. *)
Theorem metadata_counts_filtered_rows :
  forall v data,
    columns (Views.df v) <> [] ->
    exists result meta,
      fst (Views.process_analysis v data) = Views.Ok result meta
      /\ Views.meta_rows meta
         = List.length (rows (filter_data (Views.current_year v) (Views.df v)
                                (filters result)))
      /\ List.length (table_data result) = Views.meta_rows meta
      /\ Forall (fun rec => map fst rec = map snd display_columns) (table_data result).
Proof.
  intros v data C.
  destruct (ViewFacts.process_analysis_result v data)
    as (result & meta & E & _ & T & F & M & _).
  cbv zeta in T, F, M.
  exists result, meta. split; [exact E|].
  rewrite M, T, F. unfold process_query. cbn [table_data filters].
  set (selected := filter_data (Views.current_year v) (Views.df v) _).
  assert (Cs : columns selected <> []).
  { unfold selected. rewrite FilterFacts.filter_data_select. exact C. }
  destruct (ViewFacts.table_shape selected Cs) as [L S].
  split; [exact L|]. split; [reflexivity | exact S].
Qed.

Lemma metadata_counts_filtered_rows_witness :
  exists result meta,
    fst (Views.process_analysis sample_view
           (Serializer.internal_value compare_request)) = Views.Ok result meta
    /\ List.length (table_data result) = Views.meta_rows meta.
Proof.
  destruct (metadata_counts_filtered_rows sample_view
              (Serializer.internal_value compare_request))
    as (result & meta & E & _ & L & _); [discriminate|].
  exists result, meta. split; [exact E | exact L].
Defined.

(* ================================================================== *)
(** * The other endpoints and the import command *)
(* ================================================================== *)

Module EndpointFacts.
Import Text Frame Processor.

Lemma texts_In (l : list cell) (s : str) : In s (texts l) <-> In (Str s) l.
Proof.
  induction l as [|c l IH]; cbn [texts In]; [tauto|].
  destruct c as [t|x|]; cbn [In]; rewrite IH; split;
    try (intros [H|H]; [left | right]; congruence);
    try (intro H; now right);
    try (intros [H|H]; [discriminate H | exact H]).
Qed.

(** [payload] copies the cells of the model fields. *)
Lemma get_table (g : str -> cell) (l : list str) (c : str) :
  In c l -> get (map (fun field => (field, g field)) l) c = g c.
Proof.
  induction l as [|x l IH]; cbn [map get]; [intros []|].
  destruct (Text.eqb x c) eqn:E.
  - intros _. apply TextFacts.eqb_eq in E. now subst.
  - intros [H|H]; [subst; now rewrite TextFacts.eqb_refl in E | now apply IH].
Qed.

Lemma payload_get (r : row) (c : str) :
  In c DB_FIELDS -> get (ImportCommand.payload r) c = get r c.
Proof. apply get_table. Qed.

Lemma payload_key (r1 r2 : row) :
  key_leb (ImportCommand.payload r1) (ImportCommand.payload r2) = key_leb r1 r2.
Proof.
  unfold key_leb.
  assert (F : In final_location DB_FIELDS) by (apply ShapeFacts.mem_In; vm_compute; reflexivity).
  assert (Y : In year DB_FIELDS) by (apply ShapeFacts.mem_In; vm_compute; reflexivity).
  now rewrite !(payload_get _ _ F), !(payload_get _ _ Y).
Qed.

Lemma ordered_map (A B : Type) (le : A -> A -> bool) (le' : B -> B -> bool)
  (g : A -> B) (l : list A) :
  (forall x y, le' (g x) (g y) = le x y) ->
  ordered le l -> ordered le' (map g l).
Proof.
  intro H. unfold ordered. induction 1 as [|x l Hl IH Hx]; cbn [map]; constructor.
  - exact IH.
  - apply Forall_map. eapply Forall_impl; [|exact Hx].
    intros y Hy. now rewrite H.
Qed.

(** ** The export serializer and the filter values *)

Lemma is_valid_fields (accepts : Endpoints.value -> bool) (r : Endpoints.ExportRequest) :
  Endpoints.is_valid accepts r = None <->
  Endpoints.validated_format (Endpoints.format r) = None
  \/ Endpoints.boolean_valid accepts (Endpoints.include_charts r) = false
  \/ Endpoints.boolean_valid accepts (Endpoints.include_raw_data r) = false.
Proof.
  unfold Endpoints.is_valid.
  destruct (Endpoints.validated_format (Endpoints.format r)) as [f|].
  - destruct (Endpoints.boolean_valid accepts (Endpoints.include_charts r)),
      (Endpoints.boolean_valid accepts (Endpoints.include_raw_data r));
      cbn [andb]; split; intro H;
      try discriminate H; try reflexivity; try (right; now left);
      try (right; now right);
      destruct H as [H|[H|H]]; discriminate H.
  - split; [now left | reflexivity].
Qed.

Lemma is_valid_format (accepts : Endpoints.value -> bool) (r : Endpoints.ExportRequest)
  (fmt : str) :
  Endpoints.is_valid accepts r = Some fmt ->
  (Endpoints.format r = Some (Endpoints.VText (lit "excel")) /\ fmt = lit "excel")
  \/ (Endpoints.format r <> Some (Endpoints.VText (lit "excel"))
      /\ Text.eqb fmt (lit "excel") = false).
Proof.
  unfold Endpoints.is_valid, Endpoints.validated_format.
  destruct (Endpoints.format r) as [[| | |s| |]|]; try discriminate.
  - destruct (Text.eqb s (lit "csv") || Text.eqb s (lit "excel")) eqn:T;
      [|discriminate].
    destruct (_ && _); [|discriminate]. intro H. injection H as <-.
    destruct (Text.eqb s (lit "excel")) eqn:X.
    + left. apply TextFacts.eqb_eq in X. now subst.
    + right. split; [|reflexivity]. intro E. injection E as ->.
      vm_compute in X. discriminate X.
  - destruct (_ && _); [|discriminate]. intro H. injection H as <-.
    right. split; [discriminate | vm_compute; reflexivity].
Qed.

Lemma filter_text_raise (v : option Endpoints.value) :
  Endpoints.filter_text v = None <->
  exists x, v = Some x /\ Endpoints.truth x = true
            /\ forall s, x <> Endpoints.VText s.
Proof.
  unfold Endpoints.filter_text. split.
  - destruct v as [x|]; [|discriminate].
    destruct x as [|b|q|s|items|fields]; try discriminate;
      match goal with
      | |- (if ?c then _ else _) = _ -> _ =>
          destruct c eqn:T; [intros _|discriminate]
      end;
      eexists; (split; [reflexivity|]); (split; [exact T|]); discriminate.
  - intros (x & -> & T & N).
    destruct x as [|b|q|s|items|fields]; cbv beta iota;
      try (rewrite T; reflexivity).
    now contradiction (N s).
Qed.

Lemma export_filters_raise (r : Endpoints.ExportRequest) :
  Endpoints.export_filters r = None <->
  exists v,
    (Endpoints.export_locality r = Some v
     \/ Endpoints.export_year_range r = Some v
     \/ Endpoints.export_property_type r = Some v)
    /\ Endpoints.truth v = true
    /\ forall s, v <> Endpoints.VText s.
Proof.
  unfold Endpoints.export_filters. split.
  - destruct (Endpoints.filter_text (Endpoints.export_locality r)) as [l|] eqn:A.
    + destruct (Endpoints.filter_text (Endpoints.export_year_range r)) as [y|] eqn:B.
      * destruct (Endpoints.filter_text (Endpoints.export_property_type r))
          as [p|] eqn:C; [discriminate|].
        intros _. apply filter_text_raise in C as (x & E & T & N).
        exists x. split; [right; now right | now split].
      * intros _. apply filter_text_raise in B as (x & E & T & N).
        exists x. split; [right; now left | now split].
    + intros _. apply filter_text_raise in A as (x & E & T & N).
      exists x. split; [now left | now split].
  - intros (x & [E|[E|E]] & T & N);
      assert (F : Endpoints.filter_text (Some x) = None)
        by (apply filter_text_raise; now exists x);
      rewrite <- E in F; rewrite F;
      repeat match goal with
             | |- match ?c with _ => _ end = None => destruct c
             end; reflexivity.
Qed.

Lemma export_filters_fields (r : Endpoints.ExportRequest) (f : Filters) :
  Endpoints.export_filters r = Some f ->
  Endpoints.filter_text (Endpoints.export_locality r) = Some (locality f)
  /\ Endpoints.filter_text (Endpoints.export_year_range r) = Some (year_range f)
  /\ Endpoints.filter_text (Endpoints.export_property_type r)
     = Some (property_type f)
  /\ year_from f = Endpoints.carried_int (Endpoints.export_year_from r).
Proof.
  unfold Endpoints.export_filters.
  destruct (Endpoints.filter_text (Endpoints.export_locality r)) as [l|];
    [|discriminate].
  destruct (Endpoints.filter_text (Endpoints.export_year_range r)) as [y|];
    [|discriminate].
  destruct (Endpoints.filter_text (Endpoints.export_property_type r)) as [p|];
    [|discriminate].
  intro H. injection H as <-. repeat split.
Qed.

(** ** The records of the import *)

Lemma not_prepared (payloads : list row) :
  forallb ImportCommand.prepares payloads = false ->
  Exists (fun p => exists field, In field ImportCommand.INTEGER_FIELDS
                                 /\ notna (get p field) = false) payloads.
Proof.
  induction payloads as [|p l IH]; cbn [forallb]; [discriminate|].
  destruct (ImportCommand.prepares p) eqn:P; cbn [andb].
  - intro H. right. now apply IH.
  - intros _. left. unfold ImportCommand.prepares in P.
    revert P. generalize ImportCommand.INTEGER_FIELDS as fields.
    induction fields as [|f fs IHf]; cbn [forallb]; [discriminate|].
    destruct (notna (get p f)) eqn:N; cbn [andb].
    + intro H. destruct (IHf H) as (field & I & E).
      exists field. split; [now right | exact E].
    + intros _. exists f. split; [now left | exact N].
Qed.

Lemma records_of_load (w : World) (df : DataFrame) :
  load_data false w = inr df ->
  empty df = false ->
  ImportCommand.records df (map ImportCommand.payload (rows df)).
Proof.
  intros L E.
  assert (Surv : Forall (fun r => Spec.surviving r = true) (rows df)).
  { unfold load_data, _load_from_external_source in L.
    assert (N : forall raw, normalize raw = inr df ->
                            Forall (fun r => Spec.surviving r = true) (rows df)).
    { intros raw H. apply LoadFacts.normalize_stable in H. destruct H as (T & _ & P & _).
      apply (Permutation_Forall (Permutation_sym P)).
      apply TextFacts.filter_Forall. }
    destruct (excel_file w) as [| |raw]; [|discriminate L|now apply (N raw)].
    destruct (data_url w) as [| |raw]; [discriminate L|discriminate L|now apply (N raw)]. }
  assert (F : In final_location DB_FIELDS)
    by (apply ShapeFacts.mem_In; vm_compute; reflexivity).
  assert (C : In city DB_FIELDS)
    by (apply ShapeFacts.mem_In; vm_compute; reflexivity).
  unfold ImportCommand.records. split; [reflexivity|]. split; [|split; [|split; [|split; [|split]]]].
  - unfold empty in E. destruct (rows df); [discriminate E | discriminate].
  - apply length_map.
  - apply Forall_map. apply Forall_forall. intros r _.
    unfold ImportCommand.payload. rewrite map_map. apply map_id.
  - clear. induction (rows df) as [|r l IH]; cbn [map]; constructor; [|exact IH].
    intros field I. now apply payload_get.
  - apply Forall_map. eapply Forall_impl; [|exact Surv].
    intros r S. unfold Spec.surviving in S. apply andb_true_iff in S.
    now rewrite (payload_get r _ F), (payload_get r _ C).
  - apply (ordered_map _ _ key_leb key_leb); [exact payload_key|].
    exact (LoadFacts.load_data_ordered false w df L).
Qed.

End EndpointFacts.

(** X13.  The localities endpoint lists the locations of the loaded
    frame, each once, in increasing order; it fails only when the load
    fails. *)
Theorem localities_are_sorted_and_distinct :
  forall w,
    match Endpoints.localities_get w with
    | Endpoints.Localities names =>
        Shape.strictly_increasing names
        /\ exists df,
             load_data true w = inr df
             /\ forall s, In s names <-> In (Str s) (column df final_location)
    | Endpoints.LocalitiesFailed => exists e, load_data true w = inl e
    end.
Proof.
  intro w. unfold Endpoints.localities_get.
  destruct (load_data true w) as [e|df]; [now exists e|].
  destruct (UniqueFacts.sort_unique_text (texts (column df final_location))) as [S I].
  split; [exact S|]. exists df. split; [reflexivity|].
  intro s. rewrite I. apply EndpointFacts.texts_In.
Qed.

(** X14.  The export endpoint.  The request is rejected, before anything
    is loaded, exactly when [format] is not one of the two choices or one
    of the two boolean fields does not hold a boolean.  A valid request
    fails when the dataset does not load, and when a filter value is true
    and not a text, on which [filter_data] raises.  Otherwise the endpoint
    never sends an empty file: it answers 404 exactly when no row passes
    the filters, and else the file holds the rows [filter_data] selects,
    as a spreadsheet for ['excel'] and as CSV for ['csv'] or no format.
    The year bounds of the request play no part. *)
Theorem export_sends_the_filtered_rows :
  forall accepts cy w r,
    let answer := Endpoints.export_post accepts cy w r in
    (Endpoints.is_valid accepts r = None <->
     Endpoints.validated_format (Endpoints.format r) = None
     \/ Endpoints.boolean_valid accepts (Endpoints.include_charts r) = false
     \/ Endpoints.boolean_valid accepts (Endpoints.include_raw_data r) = false)
    /\ (Endpoints.is_valid accepts r = None -> answer = Endpoints.ExportRejected)
    /\ (Endpoints.export_filters r = None <->
        exists v,
          (Endpoints.export_locality r = Some v
           \/ Endpoints.export_year_range r = Some v
           \/ Endpoints.export_property_type r = Some v)
          /\ Endpoints.truth v = true
          /\ forall s, v <> Endpoints.VText s)
    /\ (Endpoints.is_valid accepts r <> None ->
        (forall e, load_data true w = inl e -> answer = Endpoints.ExportUnavailable e)
        /\ forall df,
             load_data true w = inr df ->
             (Endpoints.export_filters r = None -> answer = Endpoints.ExportRaised)
             /\ forall f,
                  Endpoints.export_filters r = Some f ->
                  let selected := filter_data cy df f in
                  Endpoints.filter_text (Endpoints.export_locality r)
                  = Some (locality f)
                  /\ Endpoints.filter_text (Endpoints.export_year_range r)
                     = Some (year_range f)
                  /\ Endpoints.filter_text (Endpoints.export_property_type r)
                     = Some (property_type f)
                  /\ (empty selected = true ->
                      answer
                      = Endpoints.ExportNotFound
                          (lit "No data available for the specified filters."))
                  /\ (empty selected = false ->
                      (Endpoints.format r = Some (Endpoints.VText (lit "excel"))
                       /\ answer
                          = Endpoints.ExportFile
                              (lit "application/vnd.openxmlformats-officedocument.spreadsheetml.sheet")
                              (lit "real_estate_export.xlsx") selected)
                      \/ (Endpoints.format r <> Some (Endpoints.VText (lit "excel"))
                          /\ answer
                             = Endpoints.ExportFile (lit "text/csv")
                                 (lit "real_estate_export.csv") selected)))
    /\ (forall a b,
          answer
          = Endpoints.export_post accepts cy w
              {| Endpoints.format := Endpoints.format r;
                 Endpoints.include_charts := Endpoints.include_charts r;
                 Endpoints.include_raw_data := Endpoints.include_raw_data r;
                 Endpoints.export_locality := Endpoints.export_locality r;
                 Endpoints.export_year_range := Endpoints.export_year_range r;
                 Endpoints.export_property_type := Endpoints.export_property_type r;
                 Endpoints.export_year_from := a;
                 Endpoints.export_year_to := b |}).
Proof.
  intros accepts cy w r answer.
  split; [|split; [|split; [|split]]].
  - exact (EndpointFacts.is_valid_fields accepts r).
  - intro V. unfold answer, Endpoints.export_post. now rewrite V.
  - exact (EndpointFacts.export_filters_raise r).
  - intro V. unfold answer, Endpoints.export_post.
    destruct (Endpoints.is_valid accepts r) as [fmt|] eqn:F; [clear V|contradiction].
    split; [intros e L; now rewrite L|].
    intros df L. rewrite L.
    split; [intros ->; reflexivity|].
    intros f E. rewrite E. cbv zeta.
    destruct (EndpointFacts.export_filters_fields r f E) as (F1 & F2 & F3 & _).
    split; [exact F1|]. split; [exact F2|]. split; [exact F3|].
    split; [intros ->; reflexivity|].
    intros ->.
    destruct (EndpointFacts.is_valid_format accepts r fmt F) as [[Fr ->]|[Fr X]].
    + left. split; [exact Fr | reflexivity].
    + right. split; [exact Fr|]. rewrite X. reflexivity.
  - intros a b. unfold answer, Endpoints.export_post, Endpoints.is_valid.
    cbn [Endpoints.format Endpoints.include_charts Endpoints.include_raw_data].
    destruct (Endpoints.validated_format (Endpoints.format r)); [|reflexivity].
    destruct (Endpoints.boolean_valid accepts (Endpoints.include_charts r)
              && Endpoints.boolean_valid accepts (Endpoints.include_raw_data r));
      [|reflexivity].
    destruct (load_data true w) as [e|df]; [reflexivity|].
    unfold Endpoints.export_filters.
    cbn [Endpoints.export_locality Endpoints.export_year_range
         Endpoints.export_property_type Endpoints.export_year_from
         Endpoints.export_year_to].
    destruct (Endpoints.filter_text (Endpoints.export_locality r)) as [l|];
      [|reflexivity].
    destruct (Endpoints.filter_text (Endpoints.export_year_range r)) as [y|];
      [|reflexivity].
    destruct (Endpoints.filter_text (Endpoints.export_property_type r)) as [p|];
      [|reflexivity].
    rewrite !FilterFacts.filter_data_select. reflexivity.
Qed.

(** The Wakad rows of 2020 to 2022 as a spreadsheet: the year bounds 2023
    and 2019 of the body do not filter.  The same body with
    [include_charts: 'maybe'] is rejected. *)
Lemma export_sends_the_filtered_rows_witness :
  (exists content,
      Endpoints.export_post Endpoints.booleans_only 2026 Endpoints.sample_world
        Endpoints.wakad_export
      = Endpoints.ExportFile
          (lit "application/vnd.openxmlformats-officedocument.spreadsheetml.sheet")
          (lit "real_estate_export.xlsx") content
      /\ rows content = map wakad [2020; 2021; 2022])
  /\ Endpoints.export_post Endpoints.booleans_only 2026 Endpoints.sample_world
       Endpoints.maybe_export
     = Endpoints.ExportRejected.
Proof.
  split.
  - destruct (load_data true Endpoints.sample_world) as [e|df] eqn:L;
      [vm_compute in L; discriminate L|].
    destruct (Endpoints.export_filters Endpoints.wakad_export) as [f|] eqn:F;
      [|vm_compute in F; discriminate F].
    destruct (export_sends_the_filtered_rows Endpoints.booleans_only 2026
                Endpoints.sample_world Endpoints.wakad_export)
      as (_ & _ & _ & V & _).
    destruct V as [_ V]; [vm_compute; discriminate|].
    destruct (V df L) as [_ W].
    pose proof (W f F) as P. cbv zeta in P. destruct P as (_ & _ & _ & _ & S).
    assert (C : rows (filter_data 2026 df f) = map wakad [2020; 2021; 2022]).
    { vm_compute in L. injection L as <-. vm_compute in F. injection F as <-.
      vm_compute. reflexivity. }
    assert (N : empty (filter_data 2026 df f) = false).
    { vm_compute in L. injection L as <-. vm_compute in F. injection F as <-.
      vm_compute. reflexivity. }
    destruct (S N) as [[_ A]|[X _]].
    + exists (filter_data 2026 df f). split; [exact A | exact C].
    + exfalso. apply X. reflexivity.
  - apply (proj1 (proj2 (export_sends_the_filtered_rows Endpoints.booleans_only 2026
                           Endpoints.sample_world Endpoints.maybe_export))).
    apply (proj2 (proj1 (export_sends_the_filtered_rows Endpoints.booleans_only 2026
                           Endpoints.sample_world Endpoints.maybe_export))).
    right. left. reflexivity.
Defined.

(** X15.  The import command reads the sheet, never the table.  It
    refuses an empty sheet before it deletes or creates anything.
    Otherwise it gives [bulk_create] one record per loaded row, in the
    sorted order of the frame, each with exactly the model fields and
    with a location and a city.  It reports the number of records only
    when every record has a number in each integer field and the database
    has stored them: a sheet with a blank count is not imported, whatever
    the database.  The sample sheet, whose counts are blank, fails; a
    sheet of two full rows is imported as two records. *)
Theorem import_builds_one_record_per_row :
  forall truncate table w,
    match ImportCommand.handle truncate table w with
    | ImportCommand.Imported removed payloads message =>
        Forall (fun p => forall field, In field ImportCommand.INTEGER_FIELDS ->
                                       notna (get p field) = true) payloads
        /\ ImportCommand.bulk_create table payloads = true
        /\ message = lit "Imported " ++ repr_Z (Z.of_nat (List.length payloads))
                       ++ lit " real estate rows."
        /\ (if truncate then removed <> None /\ removed = ImportCommand.delete_all table
            else removed = None)
        /\ exists df,
             load_data false w = inr df /\ ImportCommand.records df payloads
    | ImportCommand.CreateFailed removed payloads =>
        (Exists (fun p => exists field, In field ImportCommand.INTEGER_FIELDS
                                        /\ notna (get p field) = false) payloads
         \/ ImportCommand.bulk_create table payloads = false)
        /\ exists df,
             load_data false w = inr df /\ ImportCommand.records df payloads
    | ImportCommand.DeleteFailed =>
        truncate = true /\ ImportCommand.delete_all table = None
        /\ exists df, load_data false w = inr df /\ empty df = false
    | ImportCommand.CommandError _ =>
        exists df, load_data false w = inr df /\ empty df = true
    | ImportCommand.LoadFailed e => load_data false w = inl e
    end
    /\ (forall rs,
          ImportCommand.handle truncate table w
          = ImportCommand.handle truncate table
              {| excel_file := excel_file w; data_url := data_url w;
                 database := rs |})
    /\ (exists payloads,
          ImportCommand.handle false table ImportCommand.sheet_world
          = ImportCommand.CreateFailed None payloads
          /\ map (fun p => (get p final_location, get p year, get p city,
                            get p (lit "total_sold")))
                 payloads
             = [ (Str (lit "Baner"), num 2020, Str (lit "Pune"), NaN);
                 (Str (lit "Baner"), num 2020, Str (lit "Mumbai"), NaN);
                 (Str (lit "Wakad"), num 2019, Str (lit "Pune"), NaN);
                 (Str (lit "Wakad"), num 2021, Str (lit "Pune"), NaN) ])
    /\ (exists payloads,
          ImportCommand.handle true ImportCommand.lenient_table
            ImportCommand.full_world
          = ImportCommand.Imported (Some 7%nat) payloads
              (lit "Imported 2 real estate rows.")
          /\ map (fun p => (get p final_location, get p year,
                            get p (lit "total_sales"), get p (lit "total_sold")))
                 payloads
             = [ (Str (lit "Baner"), num 2020, num 900, num 7);
                 (Str (lit "Wakad"), num 2021, num 1200, num 7) ]).
Proof.
  intros truncate table w. split; [|split; [|split]].
  - unfold ImportCommand.handle.
    destruct (load_data false w) as [e|df] eqn:L; [reflexivity|].
    destruct (empty df) eqn:E; [now exists df|].
    pose proof (EndpointFacts.records_of_load w df L E) as R.
    set (payloads := map ImportCommand.payload (rows df)) in *.
    assert (Prep : forallb ImportCommand.prepares payloads = true ->
                   Forall (fun p => forall field,
                               In field ImportCommand.INTEGER_FIELDS ->
                               notna (get p field) = true) payloads).
    { intro P. apply Forall_forall. intros p I field If.
      apply (proj1 (forallb_forall _ _) P) in I.
      exact (proj1 (forallb_forall _ _) I field If). }
    pose proof (EndpointFacts.not_prepared payloads) as Not.
    destruct truncate.
    + destruct (ImportCommand.delete_all table) as [n|] eqn:D; cbn [option_map].
      * destruct (forallb ImportCommand.prepares payloads) eqn:P; cbn [andb].
        -- destruct (ImportCommand.bulk_create table payloads) eqn:B.
           ++ split; [now apply Prep|]. split; [exact B|]. split; [reflexivity|].
              split; [split; [discriminate | reflexivity]|]. exists df; split; [reflexivity | exact R].
           ++ split; [now right|]. exists df; split; [reflexivity | exact R].
        -- split; [left; now apply Not|]. exists df; split; [reflexivity | exact R].
      * split; [reflexivity|]. split; [reflexivity|]. exists df. now split.
    + destruct (forallb ImportCommand.prepares payloads) eqn:P; cbn [andb].
      * destruct (ImportCommand.bulk_create table payloads) eqn:B.
        -- split; [now apply Prep|]. split; [exact B|]. split; [reflexivity|].
           split; [reflexivity|]. exists df; split; [reflexivity | exact R].
        -- split; [now right|]. exists df; split; [reflexivity | exact R].
      * split; [left; now apply Not|]. exists df; split; [reflexivity | exact R].
  - intro rs. reflexivity.
  - exists (match load_data false ImportCommand.sheet_world with
            | inr df => map ImportCommand.payload (rows df)
            | inl _ => []
            end).
    split; [|vm_compute; reflexivity].
    unfold ImportCommand.handle.
    destruct (load_data false ImportCommand.sheet_world) as [e|df] eqn:L;
      [vm_compute in L; discriminate L|].
    assert (E : empty df = false)
      by (vm_compute in L; injection L as <-; vm_compute; reflexivity).
    assert (P : forallb ImportCommand.prepares (map ImportCommand.payload (rows df))
                = false)
      by (vm_compute in L; injection L as <-; vm_compute; reflexivity).
    rewrite E, P. reflexivity.
  - eexists. split; [vm_compute; reflexivity|]. vm_compute. reflexivity.
Qed.

(** The two full rows, after the seven rows of the table are removed. *)
Lemma import_builds_one_record_per_row_witness :
  exists payloads,
    ImportCommand.handle true ImportCommand.lenient_table ImportCommand.full_world
    = ImportCommand.Imported (Some 7%nat) payloads (lit "Imported 2 real estate rows.")
    /\ List.length payloads = 2%nat
    /\ Forall (fun p => map fst p = DB_FIELDS) payloads
    /\ Forall (fun p => forall field, In field ImportCommand.INTEGER_FIELDS ->
                                      notna (get p field) = true) payloads
    /\ ordered key_leb payloads.
Proof.
  generalize (import_builds_one_record_per_row true ImportCommand.lenient_table
                ImportCommand.full_world).
  remember (ImportCommand.handle true ImportCommand.lenient_table
              ImportCommand.full_world) as out eqn:E.
  intros [H _].
  vm_compute in E. subst out. cbv beta iota in H.
  destruct H as (A & _ & _ & _ & df & _ & R).
  destruct R as (_ & _ & _ & F & _ & _ & O).
  eexists. split; [reflexivity|]. split; [reflexivity|].
  split; [exact F | split; [exact A | exact O]].
Defined.

(** X9.  A locality that [process_query] reads from the query is the
    location of a row of the frame, and its name occurs in the query
    without regard to case: the locality filter it sets selects at least
    one row. *)
Theorem inferred_locality_has_rows :
  forall df q f loc,
    is_set (locality f) = false ->
    truthy (locality (resolve_filters df q f)) = Some loc ->
    contains (lower loc) (lower q) = true
    /\ exists r, In r (rows df) /\ in_locality loc r.
Proof.
  intros df q f loc U R.
  unfold resolve_filters in R.
  destruct (InferenceFacts.infer_property_type_fields q
              (infer_year_range q (infer_locality df q f))) as (P & _).
  destruct (InferenceFacts.infer_year_range_fields q (infer_locality df q f)) as (Y & _).
  rewrite P, Y in R. unfold infer_locality in R. rewrite U in R. cbn [negb andb] in R.
  destruct (nonempty q).
  - destruct (find (fun l => contains (lower l) (lower q))
                (unique Text.eqb (texts (column df final_location)))) as [found|] eqn:F.
    + cbn [set_locality locality] in R.
      assert (found = loc) as ->.
      { destruct found; [discriminate R | now injection R]. }
      apply find_some in F as [I C]. split; [exact C|].
      apply (proj1 (UniqueFacts.unique_In _ Text.eqb TextFacts.eqb_eq _ _)) in I.
      apply (proj1 (EndpointFacts.texts_In _ _)) in I. unfold column in I.
      apply in_map_iff in I as (r & G & Hr).
      exists r. split; [exact Hr|]. now exists loc.
    + unfold is_set in U. rewrite R in U. discriminate U.
  - unfold is_set in U. rewrite R in U. discriminate U.
Qed.

Lemma inferred_locality_has_rows_witness :
  exists r, In r (rows wakad_baner) /\ in_locality (lit "Baner") r.
Proof.
  apply (inferred_locality_has_rows wakad_baner (lit "flats in BANER") no_filters
           (lit "Baner")); reflexivity.
Defined.

(** X16.  Where the processor reads from.  With [prefer_database] and a
    table that has rows, the sheet and the URL are not consulted, and a
    failure of the table load is not retried from them.  With an absent or
    empty table, or without [prefer_database], the local file is read when
    there is one, else the URL, and with neither the load fails with
    [NoDataset]. *)
Theorem source_selection :
  forall w,
    (forall r rs file url,
        database w = Some (r :: rs) ->
        load_data true w
        = load_data true {| excel_file := file; data_url := url;
                            database := database w |})
    /\ (forall e, _load_from_database w = inl e -> load_data true w = inl e)
    /\ (database w = None \/ database w = Some [] ->
        load_data true w = load_data false w)
    /\ (forall raw, excel_file w = Table raw -> load_data false w = normalize raw)
    /\ (forall raw,
          excel_file w = Absent -> data_url w = Table raw ->
          load_data false w = normalize raw)
    /\ (excel_file w = Absent -> data_url w = Absent ->
        load_data false w = inl NoDataset).
Proof.
  intro w. unfold load_data, _load_from_external_source.
  split; [|split; [|split; [|split; [|split]]]].
  - intros r rs file url D. unfold _load_from_database. cbn [database]. rewrite D.
    remember (finish (coerce_numeric to_numeric
                        {| columns := DB_FIELDS; rows := r :: rs |})) as res.
    now destruct res.
  - intros e E. now rewrite E.
  - unfold _load_from_database. intros [D|D]; now rewrite D.
  - intros raw E. now rewrite E.
  - intros raw E U. now rewrite E, U.
  - intros E U. now rewrite E, U.
Qed.

Lemma source_selection_witness :
  load_data true {| excel_file := Table raw_sheet; data_url := Absent;
                    database := Some [] |}
  = load_data false {| excel_file := Table raw_sheet; data_url := Absent;
                       database := Some [] |}.
Proof.
  apply (proj1 (proj2 (proj2 (source_selection
           {| excel_file := Table raw_sheet; data_url := Absent;
              database := Some [] |})))).
  right. reflexivity.
Defined.

(** X17.  The locality keywords of [validate] are tried in the order of
    the table, not of the text: with no locality supplied, ['wakad']
    anywhere in the query gives Wakad, else ['aundh'] gives Aundh, else
    ['baner'] gives Baner, else ['hinjewadi'] gives Hinjewadi, and a query
    with none of them leaves the locality as it was. *)
Theorem locality_keywords_in_table_order :
  forall d d',
    Serializer.text_set (Serializer.locality d) = false ->
    Serializer.validate d = inr d' ->
    let q := lower (Serializer.query d) in
    if contains (lit "wakad") q then Serializer.locality d' = Some (lit "Wakad")
    else if contains (lit "aundh") q then Serializer.locality d' = Some (lit "Aundh")
    else if contains (lit "baner") q then Serializer.locality d' = Some (lit "Baner")
    else if contains (lit "hinjewadi") q
         then Serializer.locality d' = Some (lit "Hinjewadi")
         else Serializer.locality d' = Serializer.locality d.
Proof.
  intros d d' U V q.
  assert (E : d' = Serializer.extract_locality (Serializer.extract_years d)).
  { unfold Serializer.validate in V.
    match type of V with
    | (if ?c then _ else _) = _ => destruct c; [discriminate V | now injection V]
    end. }
  destruct (ValidateFacts.extract_years_fields d) as (Q & L & _).
  subst d'. unfold Serializer.extract_locality. rewrite L, U, Q. fold q.
  cbn [negb]. unfold Serializer.locality_keywords. cbn [find fst snd].
  destruct (contains (lit "wakad") q); [reflexivity|].
  destruct (contains (lit "aundh") q); [reflexivity|].
  destruct (contains (lit "baner") q); [reflexivity|].
  destruct (contains (lit "hinjewadi") q); [reflexivity | exact L].
Qed.

Lemma locality_keywords_in_table_order_witness :
  exists d',
    Serializer.validate
      {| Serializer.query := lit "Compare Baner with Wakad";
         Serializer.locality := None; Serializer.year_from := None;
         Serializer.year_to := None; Serializer.property_type := None |} = inr d'
    /\ Serializer.locality d' = Some (lit "Wakad").
Proof.
  set (d := {| Serializer.query := lit "Compare Baner with Wakad";
               Serializer.locality := None; Serializer.year_from := None;
               Serializer.year_to := None; Serializer.property_type := None |}).
  destruct (Serializer.validate d) as [e|d'] eqn:V; [vm_compute in V; discriminate V|].
  exists d'. split; [reflexivity|].
  exact (locality_keywords_in_table_order d d' eq_refl V).
Defined.
